(** * PollRoom: vote submission and result aggregation

    A shallow embedding of the route handlers
      - [src/app/api/polls/[id]/vote/route.ts]     (POST, cast a vote)
      - [src/app/api/polls/[id]/results/route.ts]  (GET, aggregated results)
      - [src/app/api/rooms/[code]/route.ts]        (GET, resolve a room;
                                                    DELETE, remove it)
      - [src/app/api/rooms/create/route.ts]        (POST, create a room)
      - [src/app/api/polls/create/route.ts]        (POST, create a poll)
      - [src/app/api/polls/[id]/route.ts]          (GET, resolve a poll)
      - the handler that lists the polls of a room (GET)
    together with [src/lib/utils.ts], [SessionManager] and [RateLimiter]
    of [src/lib/kv.ts] and the tables of the initial SQL migration.

    Conventions of the embedding.
      - JavaScript strings are [string]s of ASCII characters.
      - JavaScript objects used as dictionaries ([options], [voteCounts],
        [votePercentages], [formattedResults]) are finite maps
        [gmap string _]; [Object.keys] lists their keys.  Property names
        that collide with members of [Object.prototype] are outside the
        model.
      - Timestamps are milliseconds since the epoch, in [Z].
      - Numbers that the handlers only count with are [nat]; the numeric
        option values ([min], [max]) are integers in [Z]; the percentage
        arithmetic is IEEE binary64, written out on [Z].
      - A handler is a state-passing function on a [World] (database,
        session store, log of storage calls) that may return a response
        early or throw; a thrown exception is caught by the handler's
        outer [try]/[catch] and mapped to the 500 response. *)

From Stdlib Require Import ZArith String Ascii List Bool Lia.
From stdpp Require Import base option list strings gmap fin_maps pretty sorting.

Open Scope string_scope.
Open Scope Z_scope.

(* ===================================================================== *)
(** ** JavaScript primitives used by the handlers *)
(* ===================================================================== *)

Module Js.

(** *** Characters and strings *)

Definition code (c : ascii) : N := N_of_ascii c.

Definition is_digit (c : ascii) : bool :=
  ((48 <=? code c) && (code c <=? 57))%N.
Definition is_upper (c : ascii) : bool :=
  ((65 <=? code c) && (code c <=? 90))%N.
Definition is_lower (c : ascii) : bool :=
  ((97 <=? code c) && (code c <=? 122))%N.

(** The class [[0-9a-f]] under the [i] flag. *)
Definition is_hex (c : ascii) : bool :=
  is_digit c
  || ((97 <=? code c) && (code c <=? 102))%N
  || ((65 <=? code c) && (code c <=? 70))%N.

(** The class [[A-Z0-9]]. *)
Definition is_upper_alnum (c : ascii) : bool := is_upper c || is_digit c.

Definition upper_char (c : ascii) : ascii :=
  if is_lower c then ascii_of_N (code c - 32) else c.
Definition lower_char (c : ascii) : ascii :=
  if is_upper c then ascii_of_N (code c + 32) else c.

Fixpoint map_string (f : ascii -> ascii) (s : string) : string :=
  match s with
  | EmptyString => EmptyString
  | String c r => String (f c) (map_string f r)
  end.

Fixpoint forall_string (p : ascii -> bool) (s : string) : bool :=
  match s with
  | EmptyString => true
  | String c r => p c && forall_string p r
  end.

(** [String.prototype.toUpperCase] and [toLowerCase]. *)
Definition toUpperCase : string -> string := map_string upper_char.
Definition toLowerCase : string -> string := map_string lower_char.

(** White space removed by [String.prototype.trim]:
    tab, line feed, vertical tab, form feed, carriage return, space. *)
Definition is_space (c : ascii) : bool :=
  ((9 <=? code c) && (code c <=? 13))%N || (code c =? 32)%N.

Fixpoint trim_start (s : string) : string :=
  match s with
  | String c r => if is_space c then trim_start r else s
  | EmptyString => EmptyString
  end.

Fixpoint trim_end (s : string) : string :=
  match s with
  | EmptyString => EmptyString
  | String c r =>
      match trim_end r with
      | EmptyString => if is_space c then EmptyString else String c EmptyString
      | r' => String c r'
      end
  end.

Definition trim (s : string) : string := trim_end (trim_start s).

(** [Array.prototype.join]. *)
Definition join (sep : string) (l : list string) : string :=
  String.concat sep l.

(** [Array.prototype.includes] on an array of strings. *)
Definition includes (l : list string) (s : string) : bool :=
  bool_decide (s ∈ l).

(** *** Values of a parsed JSON body *)

Inductive Value :=
| Undefined
| Null
| Bool (b : bool)
| Number (n : Z)
| Str (s : string)
| Object.

(** Truthiness, as tested by [!v]. *)
Definition truthy (v : Value) : bool :=
  match v with
  | Undefined | Null => false
  | Bool b => b
  | Number n => negb (n =? 0)
  | Str s => negb (String.eqb s "")
  | Object => true
  end.

(** [typeof v === "string"]. *)
Definition is_string (v : Value) : bool :=
  match v with Str _ => true | _ => false end.

(** [h || d] on an optional header value: [null] and the empty string
    are falsy. *)
Definition or_string (h : option string) (d : string) : string :=
  match h with
  | Some s => if String.eqb s "" then d else s
  | None => d
  end.

(** *** Numbers *)

(** [Number.prototype.toString] on an integer. *)
Definition toString (i : Z) : string := pretty i.

Fixpoint digits_value (acc : Z) (s : string) : option Z :=
  match s with
  | EmptyString => Some acc
  | String c r =>
      if is_digit c
      then digits_value (10 * acc + Z.of_N (code c - 48)) r
      else None
  end.

(** [Number(s)] on a string, for the decimal integer literals: the
    string is trimmed; the empty string is 0; an optional sign is
    followed by digits.  [None] is NaN.  Literal forms that denote a
    fraction or use an exponent or a radix prefix are outside the
    integer model. *)
Definition StringToNumber (s : string) : option Z :=
  match trim s with
  | EmptyString => Some 0
  | String "-" (String c r) => Z.opp <$> digits_value 0 (String c r)
  | String "+" (String c r) => digits_value 0 (String c r)
  | t => digits_value 0 t
  end.

(** [x || d] on a number: NaN and 0 are falsy. *)
Definition or_number (x : option Z) (d : Z) : Z :=
  match x with
  | Some n => if n =? 0 then d else n
  | None => d
  end.

(** The values [min, min + 1, ..., max] visited by
    [for (let i = min; i <= max; i++)]. *)
Definition loop_range (min max : Z) : list Z :=
  (fun k : nat => min + Z.of_nat k) <$> seq 0 (Z.to_nat (max - min + 1)).

(** *** Binary64 arithmetic on non-negative finite numbers

    A number is [m * 2 ^ e], held as the pair [(m, e)]; [(0, 0)] is
    zero.  [round53 n d e] is the binary64 nearest to [n / d * 2 ^ e]
    (round to nearest, ties to even, 53-bit significand).  The values
    that occur are far from the subnormal and overflow ranges. *)

Definition f64 : Type := Z * Z.

(** The fraction [n / (d * 2 ^ k)], kept in integers. *)
Definition scaled (n d k : Z) : Z * Z :=
  if 0 <=? k then (n, d * 2 ^ k) else (n * 2 ^ (- k), d).

(** The integer nearest to [n / d], ties to even. *)
Definition rne (n d : Z) : Z :=
  let q := n / d in
  let r := n mod d in
  if 2 * r <? d then q
  else if d <? 2 * r then q + 1
  else if Z.even q then q else q + 1.

Definition round53 (n d e : Z) : f64 :=
  if n =? 0 then (0, 0) else
  let k0 := Z.log2 n - Z.log2 d - 52 in
  (* choose k with 2 ^ 52 <= n / (d * 2 ^ k) < 2 ^ 53 *)
  let k :=
    if fst (scaled n d k0) / snd (scaled n d k0) <? 2 ^ 52 then k0 - 1 else k0 in
  (rne (fst (scaled n d k)) (snd (scaled n d k)), k + e).

Definition of_nat (n : nat) : f64 := round53 (Z.of_nat n) 1 0.
Definition fdiv (x y : f64) : f64 := round53 (fst x) (fst y) (snd x - snd y).
Definition fmul (x y : f64) : f64 := round53 (fst x * fst y) 1 (snd x + snd y).

(** [Math.round]: the integer nearest to [x], ties towards +infinity. *)
Definition Math_round (x : f64) : Z :=
  let '(m, e) := x in
  if 0 <=? e then m * 2 ^ e else (2 * m + 2 ^ (- e)) / 2 ^ (1 - e).

(** [Math.floor]: the greatest integer not above [x]. *)
Definition Math_floor (x : f64) : Z :=
  let '(m, e) := x in
  if 0 <=? e then m * 2 ^ e else m / 2 ^ (- e).

(** The values of [Math.random()]: the binary64 numbers of [0, 1),
    each of them [m * 2 ^ e] with [m < 2 ^ 53] and [m < 2 ^ (- e)]. *)
Definition unit_interval (x : f64) : Prop :=
  0 <= fst x < 2 ^ 53 /\ fst x < 2 ^ (- snd x).

(** [s.charAt(i)]: the character at index [i], or the empty string when
    [i] is out of range. *)
Definition charAt (s : string) (i : Z) : string :=
  if i <? 0 then ""
  else match String.get (Z.to_nat i) s with
       | Some c => String c ""
       | None => ""
       end.

(** [s.split(sep)[0]] for a one-character separator: the text before
    the first separator, the whole string when there is none. *)
Fixpoint split_first (sep : ascii) (s : string) : string :=
  match s with
  | EmptyString => EmptyString
  | String c r => if Ascii.eqb c sep then EmptyString else String c (split_first sep r)
  end.

(** [a >= b] on strings: the comparison of the code units. *)
Definition string_ge (a b : string) : bool :=
  match String.compare a b with
  | Lt => false
  | _ => true
  end.

End Js.

(* ===================================================================== *)
(** ** [src/lib/utils.ts] *)
(* ===================================================================== *)

Module Utils.

(** [/^[A-Z0-9]+$/.test(code)] *)
Definition upper_alnum_regex_test (code : string) : bool :=
  negb (String.eqb code "") && Js.forall_string Js.is_upper_alnum code.

(** [typeof code === 'string' && code.length === 6 && /^[A-Z0-9]+$/.test(code)] *)
Definition validateRoomCode (code : string) : bool :=
  (String.length code =? 6)%nat && upper_alnum_regex_test code.

(** [code.toUpperCase().trim()] *)
Definition normalizeRoomCode (code : string) : string :=
  Js.trim (Js.toUpperCase code).

(** [if (!expiresAt) return true; return now > expiration] *)
Definition isRoomExpired (now : Z) (expiresAt : option Z) : bool :=
  match expiresAt with
  | None => true
  | Some expiration => expiration <? now
  end.

(** [chars.charAt(Math.floor(Math.random() * chars.length))], for the
    value [r] that [Math.random()] returns. *)
Definition random_char (chars : string) (r : Js.f64) : string :=
  Js.charAt chars
    (Js.Math_floor (Js.fmul r (Js.of_nat (String.length chars)))).

(** [for (let i = 0; i < n; i++) result += ...]: [random k] is the value
    of the [k]-th call of [Math.random()], the loop starts at the call
    [first]. *)
Fixpoint random_chars (chars : string) (random : nat -> Js.f64)
    (first n : nat) (result : string) : string :=
  match n with
  | O => result
  | S n' =>
      random_chars chars random (S first) n'
        (result +:+ random_char chars (random first))
  end.

Definition generateRoomCode (random : nat -> Js.f64) (first : nat) : string :=
  let chars := "ABCDEFGHIJKLMNOPQRSTUVWXYZ0123456789" in
  random_chars chars random first 6 "".

Definition generateSessionId (random : nat -> Js.f64) (first : nat) : string :=
  let chars := "ABCDEFGHIJKLMNOPQRSTUVWXYZabcdefghijklmnopqrstuvwxyz0123456789" in
  random_chars chars random first 32 "sess_".

(** The headers that the functions below read; [None] is an absent
    header ([headers.get] returns [null]). *)
Record Headers := {
  x_session_id : option string;
  x_forwarded_for : option string;
  x_real_ip : option string;
  cf_connecting_ip : option string;
  user_agent : option string;
}.

(** [if (h)] on a header value: [null] and the empty string are falsy. *)
Definition present (h : option string) : option string :=
  match h with
  | Some s => if String.eqb s "" then None else Some s
  | None => None
  end.

Definition getSessionId (random : nat -> Js.f64) (first : nat) (req : Headers)
  : string :=
  match present (x_session_id req) with
  | Some sessionHeader => sessionHeader
  | None => generateSessionId random first
  end.

Definition getClientIP (req : Headers) : string :=
  match present (x_forwarded_for req) with
  | Some forwarded => Js.trim (Js.split_first "," forwarded)
  | None =>
      match present (x_real_ip req) with
      | Some realIP => realIP
      | None =>
          match present (cf_connecting_ip req) with
          | Some cfConnectingIP => cfConnectingIP
          | None => "unknown"
          end
      end
  end.

Definition getUserAgent (req : Headers) : string :=
  Js.or_string (user_agent req) "unknown".

(** [expiration.setHours(expiration.getHours() + 24)] on the current
    time, in milliseconds; the clock of the server is in UTC, where a
    day has 24 hours. *)
Definition getRoomExpirationTime (now : Z) : Z := now + 24 * 60 * 60 * 1000.

End Utils.

(* ===================================================================== *)
(** ** The tables of the initial migration *)
(* ===================================================================== *)

(** A value of the [options] JSON column: [string | number]. *)
Inductive OptionValue :=
| ONum (n : Z)
| OStr (s : string).

Record Room := {
  room_id : string;
  room_code : string;
  room_name : option string;
  room_created_at : Z;
  room_expires_at : option Z;
}.

Record Poll := {
  poll_id : string;
  poll_room_id : string;
  poll_question : string;
  poll_options : gmap string OptionValue;
  poll_type : string;
  poll_created_at : Z;
  poll_is_active : bool;
}.

Record Vote := {
  vote_id : string;
  vote_poll_id : string;
  vote_choice : string;
  vote_session_id : string;
  vote_created_at : Z;
}.

Record Database := {
  rooms : list Room;
  polls : list Poll;
  votes : list Vote;
}.

(** Equality on a [UUID] column: the text form is case-insensitive. *)
Definition uuid_eqb (a b : string) : bool :=
  String.eqb (Js.toLowerCase a) (Js.toLowerCase b).

(** The row of a poll joined with its room ([rooms!inner(...)]). *)
Definition PollWithRoom : Type := Poll * Room.

(* ===================================================================== *)
(** ** The session store ([@vercel/kv]) *)
(* ===================================================================== *)

Inductive Role := creator | participant.

Record SessionData := {
  session_data_id : string;
  createdAt : Z;
  lastActivity : Z;
  roomCode : option string;
  role : option Role;
}.

(** [KvUnconfigured]: the environment variables are missing, so
    [getKvClient] throws and [getKvClientSafe] returns [null].
    [KvUnreachable]: a client exists but its requests reject. *)
Inductive KvStatus := KvUnconfigured | KvAvailable | KvUnreachable.

Record KvStore := {
  kv_status : KvStatus;
  kv_entries : gmap string (Z * SessionData);  (* key -> (ttl, value) *)
}.

(* ===================================================================== *)
(** ** Worlds and handlers *)
(* ===================================================================== *)

(** The calls made on the storage layer, in the order they are made. *)
Inductive DbCall :=
| SelectPollWithRoom (id : string)
| SelectVoteId (poll_id session_id : string)
| InsertVote (poll_id session_id choice : string)
| SelectVotes (poll_id : string)
| SelectRoom (code : string).

Record World := {
  db : Database;
  kv : KvStore;
  db_calls : list DbCall;
}.

(** What a request finds outside the stores: the clock,
    [crypto.randomUUID()] and the identifier that [uuid_generate_v4()]
    gives to an inserted row. *)
Record Env := {
  now : Z;
  randomUUID : string;
  generated_id : string;
}.

Record ResultEntry := {
  label : string;
  count : nat;
  percentage : Z;
}.

Inductive ResponseData :=
| VoteData (id poll_id choice : string) (created_at : Z)
| ResultsData (poll_id question poll_type : string) (total_votes : nat)
    (results : gmap string ResultEntry) (last_updated : Z)
    (room_id room_code : string) (room_name : option string)
| RoomData (id code : string) (name : option string)
    (created_at : Z) (expires_at : option Z) (is_expired : bool).

(** [{success, data?, error?, details?}] with its HTTP status. *)
Record Response := {
  status : Z;
  success : bool;
  error : option string;
  details : option string;
  data : option ResponseData;
}.

Definition failure (st : Z) (err det : string) : Response :=
  {| status := st; success := false; error := Some err;
     details := Some det; data := None |}.

Definition ok (st : Z) (d : ResponseData) : Response :=
  {| status := st; success := true; error := None;
     details := None; data := Some d |}.

(** The result of running part of a handler: a value to continue with,
    an early [return] of a response, or a thrown exception. *)
Inductive Outcome (A : Type) :=
| Value (a : A)
| Return (r : Response)
| Throw.
Arguments Value {A} a.
Arguments Return {A} r.
Arguments Throw {A}.

Definition Handler (A : Type) : Type := World -> Outcome A * World.

Definition pure {A} (a : A) : Handler A := fun w => (Value a, w).

Definition bind {A B} (h : Handler A) (k : A -> Handler B) : Handler B :=
  fun w =>
    match h w with
    | (Value a, w') => k a w'
    | (Return r, w') => (Return r, w')
    | (Throw, w') => (Throw, w')
    end.

Definition respond {A} (r : Response) : Handler A := fun w => (Return r, w).

(** [if (c) return r;] *)
Definition return_if (c : bool) (r : Response) : Handler unit :=
  if c then respond r else pure tt.

Declare Scope handler_scope.
Delimit Scope handler_scope with handler.
Notation "x <- h ;; k" := (bind h (fun x => k))
  (at level 100, h at next level, right associativity) : handler_scope.
Notation "h ;;; k" := (bind h (fun _ => k))
  (at level 100, right associativity) : handler_scope.

(** [try { body } catch (error) { return on_error }] *)
Definition try_catch (body : Handler Response) (on_error : Response)
  : World -> Response * World :=
  fun w =>
    match body w with
    | (Value r, w') => (r, w')
    | (Return r, w') => (r, w')
    | (Throw, w') => (on_error, w')
    end.

(** The reply of a handler whose payload is of type [D]: one of its
    failure responses, or its one success response with the HTTP
    status and the payload. *)
Inductive Reply (D : Type) :=
| Failed (r : Response)
| Succeeded (st : Z) (d : D).
Arguments Failed {D} r.
Arguments Succeeded {D} st d.

Definition reply_status {D} (r : Reply D) : Z :=
  match r with
  | Failed r => status r
  | Succeeded st _ => st
  end.

(** [try { body; return success } catch (error) { return on_error }],
    where every early [return] of the body is a failure response. *)
Definition try_reply {D} (st : Z) (body : Handler D) (on_error : Response)
  : World -> Reply D * World :=
  fun w =>
    match body w with
    | (Value d, w') => (Succeeded st d, w')
    | (Return r, w') => (Failed r, w')
    | (Throw, w') => (Failed on_error, w')
    end.

Definition throw {A} : Handler A := fun w => (Throw, w).

(* ===================================================================== *)
(** ** The storage layer as the handlers call it *)
(* ===================================================================== *)

Module Supabase.

(** [{data, error}]: a row, or an error with its code. *)
Inductive Result (A : Type) :=
| Data (a : A)
| Error (code : string).
Arguments Data {A} a.
Arguments Error {A} code.

(** [.single()]: exactly one row, otherwise [PGRST116]. *)
Definition single {A} (rows : list A) : Result A :=
  match rows with
  | [r] => Data r
  | _ => Error "PGRST116"
  end.

Definition log (c : DbCall) : Handler unit :=
  fun w => (Value tt, {| db := db w; kv := kv w;
                         db_calls := db_calls w ++ [c] |}).

(** The rows of [polls] with the given id, each joined with its room. *)
Definition poll_rows (d : Database) (id : string) : list PollWithRoom :=
  p ← filter (fun p => uuid_eqb (poll_id p) id = true) (polls d);
  r ← filter (fun r => uuid_eqb (room_id r) (poll_room_id p) = true) (rooms d);
  [(p, r)].

(** [from("polls").select("*, rooms!inner(...)").eq("id", id).single()] *)
Definition select_poll_with_room (id : string) : Handler (Result PollWithRoom) :=
  (log (SelectPollWithRoom id) ;;;
   fun w => (Value (single (poll_rows (db w) id)), w))%handler.

Definition vote_matches (poll_id session_id : string) (v : Vote) : bool :=
  uuid_eqb (vote_poll_id v) poll_id && String.eqb (vote_session_id v) session_id.

(** [from("votes").select("id").eq("poll_id", id).eq("session_id", s).single()] *)
Definition select_vote_id (poll_id session_id : string) : Handler (Result string) :=
  (log (SelectVoteId poll_id session_id) ;;;
   fun w =>
     (Value (single (vote_id <$>
               filter (fun v => vote_matches poll_id session_id v = true)
                      (votes (db w)))), w))%handler.

(** The constraints of [votes]: the primary key, the foreign key to
    [polls] and [UNIQUE(poll_id, session_id)]. *)
Definition vote_insertable (d : Database) (v : Vote) : Result Vote :=
  if bool_decide (Exists (fun p => uuid_eqb (poll_id p) (vote_poll_id v) = true)
                         (polls d))
  then
    if bool_decide (Exists (fun v' =>
              vote_matches (vote_poll_id v) (vote_session_id v) v' = true
              ∨ uuid_eqb (vote_id v') (vote_id v) = true) (votes d))
    then Error "23505"
    else Data v
  else Error "23503".

(** [from("votes").insert({poll_id, session_id, choice}).select().single()] *)
Definition insert_vote (e : Env) (poll_id session_id choice : string)
  : Handler (Result Vote) :=
  (log (InsertVote poll_id session_id choice) ;;;
   fun w =>
     let v := {| vote_id := generated_id e;
                 vote_poll_id := Js.toLowerCase poll_id;
                 vote_choice := choice;
                 vote_session_id := session_id;
                 vote_created_at := now e |} in
     match vote_insertable (db w) v with
     | Data v =>
         (Value (Data v),
          {| db := {| rooms := rooms (db w); polls := polls (db w);
                      votes := votes (db w) ++ [v] |};
             kv := kv w; db_calls := db_calls w |})
     | Error c => (Value (Error c), w)
     end)%handler.

(** [from("votes").select("choice, created_at").eq("poll_id", id)] *)
Definition select_votes (poll_id : string) : Handler (Result (list Vote)) :=
  (log (SelectVotes poll_id) ;;;
   fun w =>
     (Value (Data (filter (fun v => uuid_eqb (vote_poll_id v) poll_id = true)
                          (votes (db w)))), w))%handler.

(** [from("rooms").select("*").eq("code", code).single()] *)
Definition select_room (code : string) : Handler (Result Room) :=
  (log (SelectRoom code) ;;;
   fun w =>
     (Value (single (filter (fun r => String.eqb (room_code r) code = true)
                            (rooms (db w)))), w))%handler.

(** The calls below are those of the handlers that create and delete
    rooms and polls and that list the polls of a room.  They act on the
    tables; [db_calls] keeps the calls listed in [DbCall]. *)

(** [from("rooms").select("id, code").eq("id", id).single()], for an
    [id] that is the text of a UUID in the 8-4-4-4-12 form. *)
Definition select_room_by_id (id : string) : Handler (Result Room) :=
  fun w =>
    (Value (single (filter (fun r => uuid_eqb (room_id r) id = true)
                           (rooms (db w)))), w).

(** The constraints of [rooms]: [VARCHAR(6)] and [UNIQUE] on [code],
    and the primary key. *)
Definition room_insertable (d : Database) (r : Room) : Result Room :=
  if (6 <? String.length (room_code r))%nat then Error "22001"
  else if bool_decide (Exists (fun r' =>
                 uuid_eqb (room_id r') (room_id r) = true
                 ∨ room_code r' = room_code r) (rooms d))
  then Error "23505"
  else Data r.

(** [from("rooms").insert({code, name, expires_at}).select().single()] *)
Definition insert_room (e : Env) (code : string) (name : option string)
    (expires_at : Z) : Handler (Result Room) :=
  fun w =>
    let r := {| room_id := generated_id e;
                room_code := code;
                room_name := name;
                room_created_at := now e;
                room_expires_at := Some expires_at |} in
    match room_insertable (db w) r with
    | Data r =>
        (Value (Data r),
         {| db := {| rooms := rooms (db w) ++ [r]; polls := polls (db w);
                     votes := votes (db w) |};
            kv := kv w; db_calls := db_calls w |})
    | Error c => (Value (Error c), w)
    end.

(** The constraints of [polls]: [VARCHAR(20)] on [poll_type], the
    primary key and the foreign key to [rooms]. *)
Definition poll_insertable (d : Database) (p : Poll) : Result Poll :=
  if (20 <? String.length (poll_type p))%nat then Error "22001"
  else if bool_decide (Exists (fun p' => uuid_eqb (poll_id p') (poll_id p) = true)
                              (polls d))
  then Error "23505"
  else if bool_decide (Exists (fun r => uuid_eqb (room_id r) (poll_room_id p) = true)
                              (rooms d))
  then Data p
  else Error "23503".

(** [from("polls").insert({room_id, question, poll_type, options,
    is_active: true}).select().single()] *)
Definition insert_poll (e : Env) (room_id question poll_type : string)
    (options : gmap string OptionValue) : Handler (Result Poll) :=
  fun w =>
    let p := {| poll_id := generated_id e;
                poll_room_id := Js.toLowerCase room_id;
                poll_question := question;
                poll_options := options;
                poll_type := poll_type;
                poll_created_at := now e;
                poll_is_active := true |} in
    match poll_insertable (db w) p with
    | Data p =>
        (Value (Data p),
         {| db := {| rooms := rooms (db w); polls := polls (db w) ++ [p];
                     votes := votes (db w) |};
            kv := kv w; db_calls := db_calls w |})
    | Error c => (Value (Error c), w)
    end.

(** The polls that [ON DELETE CASCADE] removes with the room [id]. *)
Definition poll_of_room (id : string) (p : Poll) : bool :=
  uuid_eqb (poll_room_id p) id.

(** The votes that [ON DELETE CASCADE] removes with those polls. *)
Definition vote_of_room (d : Database) (id : string) (v : Vote) : bool :=
  bool_decide (Exists (fun p => poll_of_room id p = true
                                ∧ uuid_eqb (poll_id p) (vote_poll_id v) = true)
                      (polls d)).

(** [from("rooms").delete().eq("id", id)] *)
Definition delete_room (id : string) : Handler (Result unit) :=
  fun w =>
    (Value (Data tt),
     {| db := {| rooms := filter (fun r => uuid_eqb (room_id r) id = false)
                                 (rooms (db w));
                 polls := filter (fun p => poll_of_room id p = false)
                                 (polls (db w));
                 votes := filter (fun v => vote_of_room (db w) id v = false)
                                 (votes (db w)) |};
        kv := kv w; db_calls := db_calls w |}).

(** [ORDER BY created_at DESC]; rows of equal time come in the order
    the sort leaves them in. *)
Definition newest_first (p q : Poll) : Prop :=
  poll_created_at q <= poll_created_at p.

#[global] Instance newest_first_dec : RelDecision newest_first :=
  fun p q => decide (poll_created_at q <= poll_created_at p).

(** [from("polls").select("*").eq("room_id", id).eq("is_active", true)
    .order("created_at", { ascending: false })] *)
Definition select_active_polls (room_id : string) : Handler (Result (list Poll)) :=
  fun w =>
    (Value (Data (merge_sort newest_first
                    (filter (fun p => uuid_eqb (poll_room_id p) room_id = true
                                      ∧ poll_is_active p = true)
                            (polls (db w))))), w).

End Supabase.

(* ===================================================================== *)
(** ** [src/lib/kv.ts]: [SessionManager] *)
(* ===================================================================== *)

Module SessionManager.

Definition SESSION_PREFIX : string := "session:".
Definition SESSION_TTL : Z := 24 * 60 * 60.

(** [createSession(sessionId, {roomCode, role})]: nothing is written
    when [getKvClientSafe()] is [null]; otherwise the entry is written
    with [setex], whose rejection is not caught here. *)
Definition createSession (e : Env) (sessionId : string)
    (room_code : string) (r : Role) : Handler unit :=
  fun w =>
    match kv_status (kv w) with
    | KvUnconfigured => (Value tt, w)
    | KvUnreachable => (Throw, w)
    | KvAvailable =>
        let sessionData :=
          {| session_data_id := sessionId; createdAt := now e;
             lastActivity := now e; roomCode := Some room_code;
             role := Some r |} in
        (Value tt,
         {| db := db w;
            kv := {| kv_status := KvAvailable;
                     kv_entries :=
                       <[SESSION_PREFIX +:+ sessionId := (SESSION_TTL, sessionData)]>
                         (kv_entries (kv w)) |};
            db_calls := db_calls w |})
    end.

(** [getSession(sessionId)]: [null] without a client and for an
    absent key; a rejection of [client.get] is caught and gives [null].
    A stored entry was written by [setex] as a session object, which
    holds [id], [createdAt] and [lastActivity]. *)
Definition getSession (sessionId : string) : Handler (option SessionData) :=
  fun w =>
    match kv_status (kv w) with
    | KvUnconfigured => (Value None, w)
    | KvUnreachable => (Value None, w)
    | KvAvailable =>
        (Value (snd <$> kv_entries (kv w) !! (SESSION_PREFIX +:+ sessionId)), w)
    end.

(** [updateSessionActivity(sessionId)] *)
Definition updateSessionActivity (e : Env) (sessionId : string) : Handler unit :=
  (session <- getSession sessionId ;;
   match session with
   | None => pure tt
   | Some session =>
       fun w =>
         match kv_status (kv w) with
         | KvUnconfigured => (Value tt, w)
         | KvUnreachable => (Throw, w)
         | KvAvailable =>
             let session :=
               {| session_data_id := session_data_id session;
                  createdAt := createdAt session;
                  lastActivity := now e;
                  roomCode := roomCode session;
                  role := role session |} in
             (Value tt,
              {| db := db w;
                 kv := {| kv_status := KvAvailable;
                          kv_entries :=
                            <[SESSION_PREFIX +:+ sessionId := (SESSION_TTL, session)]>
                              (kv_entries (kv w)) |};
                 db_calls := db_calls w |})
         end
   end)%handler.

(** [deleteSession(sessionId)] *)
Definition deleteSession (sessionId : string) : Handler unit :=
  fun w =>
    match kv_status (kv w) with
    | KvUnconfigured => (Value tt, w)
    | KvUnreachable => (Throw, w)
    | KvAvailable =>
        (Value tt,
         {| db := db w;
            kv := {| kv_status := KvAvailable;
                     kv_entries :=
                       delete (SESSION_PREFIX +:+ sessionId) (kv_entries (kv w)) |};
            db_calls := db_calls w |})
    end.

(** [isSessionValid(sessionId)] *)
Definition isSessionValid (sessionId : string) : Handler bool :=
  (session <- getSession sessionId ;;
   pure (match session with Some _ => true | None => false end))%handler.

End SessionManager.

(* ===================================================================== *)
(** ** Reading the [options] column *)
(* ===================================================================== *)

Module Options.

(** [Object.keys(o)].  The keys come in the enumeration order of the
    finite map; the handlers build from them arrays and maps whose
    content does not depend on that order. *)
Definition keys {A} (o : gmap string A) : list string := (map_to_list o).*1.

(** [Number(options.k)]: [undefined] converts to NaN ([None]). *)
Definition Number (v : option OptionValue) : option Z :=
  match v with
  | None => None
  | Some (ONum n) => Some n
  | Some (OStr s) => Js.StringToNumber s
  end.

(** [String(v)] *)
Definition String_ (v : option OptionValue) : string :=
  match v with
  | None => "undefined"
  | Some (ONum n) => Js.toString n
  | Some (OStr s) => s
  end.

(** [String(options.k || fallback)]: [undefined], [""] and [0] are
    falsy. *)
Definition String_or (v : option OptionValue) (fallback : string) : string :=
  match v with
  | None => fallback
  | Some (ONum n) => if n =? 0 then fallback else Js.toString n
  | Some (OStr s) => if String.eqb s "" then fallback else s
  end.

End Options.

(** [/^[0-9a-f]{8}-[0-9a-f]{4}-[0-9a-f]{4}-[0-9a-f]{4}-[0-9a-f]{12}$/i] *)
Module UuidRegex.

(** Consume exactly [n] hexadecimal digits. *)
Fixpoint hex (n : nat) (s : string) : option string :=
  match n, s with
  | O, _ => Some s
  | S n', String c r => if Js.is_hex c then hex n' r else None
  | S _, EmptyString => None
  end.

(** Groups of hexadecimal digits of the given lengths, separated by
    hyphens, up to the end of the string. *)
Fixpoint groups (lengths : list nat) (s : string) : bool :=
  match lengths with
  | [] => false
  | [n] =>
      match hex n s with
      | Some EmptyString => true
      | _ => false
      end
  | n :: rest =>
      match hex n s with
      | Some (String "-" r) => groups rest r
      | _ => false
      end
  end.

Definition test (id : string) : bool := groups [8; 4; 4; 4; 12]%nat id.

End UuidRegex.

(* ===================================================================== *)
(** ** [src/app/api/polls/[id]/vote/route.ts] *)
(* ===================================================================== *)

Module VoteRoute.

(** [body] is [None] when [request.json()] rejects or the parsed body
    cannot be destructured; otherwise it holds [body.choice]. *)
Record Request := {
  params_id : string;
  body : option Js.Value;
  x_session_id : option string;
}.

Definition request_json (request : Request) : Handler Js.Value :=
  fun w =>
    match body request with
    | Some choice => (Value choice, w)
    | None => (Throw, w)
    end.

Definition as_string (v : Js.Value) : string :=
  match v with Js.Str s => s | _ => "" end.

(** The [switch (poll.poll_type)] that fills [validChoices]. *)
Definition validChoices (poll : Poll) : list string :=
  let options := poll_options poll in
  if String.eqb (poll_type poll) "yes_no" then ["yes"; "no"]
  else if String.eqb (poll_type poll) "rating" then
    let min := Js.or_number (Options.Number (options !! "min")) 1 in
    let max := Js.or_number (Options.Number (options !! "max")) 5 in
    Js.toString <$> Js.loop_range min max
  else if String.eqb (poll_type poll) "multiple_choice" then Options.keys options
  else Options.keys options.

Definition invalid_id : Response :=
  failure 400 "Invalid poll ID" "Poll ID must be a valid UUID".
Definition choice_required : Response :=
  failure 400 "Invalid choice" "Choice is required and must be a string".
Definition poll_not_found : Response :=
  failure 404 "Poll not found" "No poll exists with this ID".
Definition poll_lookup_failed : Response :=
  failure 500 "Database error" "Failed to look up poll in database".
Definition poll_inactive : Response :=
  failure 410 "Poll inactive" "This poll is no longer accepting votes".
Definition room_expired : Response :=
  failure 410 "Room expired" "The room containing this poll has expired".
Definition invalid_choice (validChoices : list string) : Response :=
  failure 400 "Invalid choice"
    ("Choice must be one of: " +:+ Js.join ", " validChoices).
Definition vote_check_failed : Response :=
  failure 500 "Database error" "Failed to check existing vote".
Definition already_voted : Response :=
  failure 409 "Already voted" "You have already voted on this poll".
Definition vote_insert_failed : Response :=
  failure 500 "Database error" "Failed to create vote in database".
Definition internal_error : Response :=
  failure 500 "Internal server error"
    "An unexpected error occurred while processing the vote".

(** The part of [POST] that follows a successful poll lookup. *)
Definition vote_on (e : Env) (id sessionId choice : string)
    (poll : Poll) (room : Room) : Handler Response :=
  ((* Check if poll is active *)
   return_if (negb (poll_is_active poll)) poll_inactive ;;;
   (* Check if room has expired *)
   match room_expires_at room with
   | None => respond room_expired
   | Some roomExpiresAt => return_if (roomExpiresAt <? now e) room_expired
   end ;;;
   (* Validate choice against poll options *)
   return_if (negb (Js.includes (validChoices poll) choice))
     (invalid_choice (validChoices poll)) ;;;
   (* Check if user has already voted (deduplication) *)
   existing <- Supabase.select_vote_id id sessionId ;;
   match existing with
   | Supabase.Error c => return_if (negb (String.eqb c "PGRST116")) vote_check_failed
   | Supabase.Data _ => respond already_voted
   end ;;;
   (* Create vote *)
   inserted <- Supabase.insert_vote e id sessionId choice ;;
   match inserted with
   | Supabase.Error _ => respond vote_insert_failed
   | Supabase.Data vote =>
       (* Update session with room information *)
       SessionManager.createSession e sessionId (room_code room) participant ;;;
       pure (ok 201 (VoteData (vote_id vote) (vote_poll_id vote)
                       (vote_choice vote) (vote_created_at vote)))
   end)%handler.

Definition POST (e : Env) (request : Request) : World -> Response * World :=
  try_catch
    (let id := params_id request in
     (* Parse request body *)
     choice <- request_json request ;;
     (* Validate poll ID format (UUID) *)
     return_if (negb (UuidRegex.test id)) invalid_id ;;;
     (* Validate choice *)
     return_if (negb (Js.truthy choice) || negb (Js.is_string choice))
       choice_required ;;;
     (* Get session ID *)
     let sessionId := Js.or_string (x_session_id request) (randomUUID e) in
     (* Look up poll and validate it exists and is active *)
     looked_up <- Supabase.select_poll_with_room id ;;
     match looked_up with
     | Supabase.Error c =>
         if String.eqb c "PGRST116" then respond poll_not_found
         else respond poll_lookup_failed
     | Supabase.Data (poll, room) =>
         vote_on e id sessionId (as_string choice) poll room
     end)%handler
    internal_error.

End VoteRoute.

(* ===================================================================== *)
(** ** [src/app/api/polls/[id]/results/route.ts] *)
(* ===================================================================== *)

Module ResultsRoute.

Definition Counts : Type := gmap string nat * gmap string Z.

(** [voteCounts[key] = 0; votePercentages[key] = 0;] *)
Definition zero (acc : Counts) (key : string) : Counts :=
  (<[key := 0%nat]> acc.1, <[key := 0]> acc.2).

(** The first [switch (poll.poll_type)]: initialise the vote counts
    for all options. *)
Definition initialize (poll : Poll) : Counts :=
  let options := poll_options poll in
  if String.eqb (poll_type poll) "yes_no" then zero (zero (∅, ∅) "yes") "no"
  else if String.eqb (poll_type poll) "rating" then
    let min := Js.or_number (Options.Number (options !! "min")) 1 in
    let max := Js.or_number (Options.Number (options !! "max")) 5 in
    foldl (fun acc i => zero acc (Js.toString i)) (∅, ∅) (Js.loop_range min max)
  else if String.eqb (poll_type poll) "multiple_choice" then
    foldl zero (∅, ∅) (Options.keys options)
  else foldl zero (∅, ∅) (Options.keys options).

(** [if (voteCounts.hasOwnProperty(vote.choice)) voteCounts[vote.choice]++] *)
Definition countVote (voteCounts : gmap string nat) (vote : Vote)
  : gmap string nat :=
  match voteCounts !! vote_choice vote with
  | Some n => <[vote_choice vote := S n]> voteCounts
  | None => voteCounts
  end.

(** [Math.round((count / totalVotes) * 100)] *)
Definition percent (count totalVotes : nat) : Z :=
  Js.Math_round
    (Js.fmul (Js.fdiv (Js.of_nat count) (Js.of_nat totalVotes)) (Js.of_nat 100)).

(** [if (totalVotes > 0) Object.keys(voteCounts).forEach(...)] *)
Definition calculatePercentages (totalVotes : nat)
    (voteCounts : gmap string nat) (votePercentages : gmap string Z)
  : gmap string Z :=
  if (0 <? totalVotes)%nat then
    foldl (fun acc option =>
             <[option := percent (default 0%nat (voteCounts !! option)) totalVotes]> acc)
          votePercentages (Options.keys voteCounts)
  else votePercentages.

(** [{label, count: voteCounts[key] || 0, percentage: votePercentages[key] || 0}] *)
Definition entry (lbl : string) (voteCounts : gmap string nat)
    (votePercentages : gmap string Z) (key : string) : ResultEntry :=
  {| label := lbl;
     count := default 0%nat (voteCounts !! key);
     percentage := default 0 (votePercentages !! key) |}.

(** The second [switch (poll.poll_type)]: format the results. *)
Definition formatResults (poll : Poll) (voteCounts : gmap string nat)
    (votePercentages : gmap string Z) : gmap string ResultEntry :=
  let options := poll_options poll in
  let for_option acc option :=
    <[option := entry (Options.String_ (options !! option))
                  voteCounts votePercentages option]> acc in
  if String.eqb (poll_type poll) "yes_no" then
    <["no" := entry (Options.String_or (options !! "no") "No")
                voteCounts votePercentages "no"]>
      (<["yes" := entry (Options.String_or (options !! "yes") "Yes")
                    voteCounts votePercentages "yes"]> ∅)
  else if String.eqb (poll_type poll) "rating" then
    let min := Js.or_number (Options.Number (options !! "min")) 1 in
    let max := Js.or_number (Options.Number (options !! "max")) 5 in
    foldl (fun acc i =>
             let key := Js.toString i in
             <[key := entry (Js.toString i) voteCounts votePercentages key]> acc)
          ∅ (Js.loop_range min max)
  else if String.eqb (poll_type poll) "multiple_choice" then
    foldl for_option ∅ (Options.keys options)
  else foldl for_option ∅ (Options.keys options).

(** The calculation between the fetch of the votes and the response. *)
Definition calculate (poll : Poll) (votes : list Vote)
  : nat * gmap string ResultEntry :=
  let totalVotes := length votes in
  let '(voteCounts0, votePercentages0) := initialize poll in
  let voteCounts := foldl countVote voteCounts0 votes in
  let votePercentages :=
    calculatePercentages totalVotes voteCounts votePercentages0 in
  (totalVotes, formatResults poll voteCounts votePercentages).

Definition invalid_id : Response :=
  failure 400 "Invalid poll ID" "Poll ID must be a valid UUID".
Definition poll_not_found : Response :=
  failure 404 "Poll not found" "No poll exists with this ID".
Definition poll_lookup_failed : Response :=
  failure 500 "Database error" "Failed to look up poll in database".
Definition room_expired : Response :=
  failure 410 "Room expired" "The room containing this poll has expired".
Definition votes_failed : Response :=
  failure 500 "Database error" "Failed to get poll results from database".
Definition internal_error : Response :=
  failure 500 "Internal server error"
    "An unexpected error occurred while getting poll results".

Definition GET (e : Env) (id : string) : World -> Response * World :=
  try_catch
    ((* Validate poll ID format (UUID) *)
     return_if (negb (UuidRegex.test id)) invalid_id ;;;
     (* Look up poll and validate it exists *)
     looked_up <- Supabase.select_poll_with_room id ;;
     match looked_up with
     | Supabase.Error c =>
         if String.eqb c "PGRST116" then respond poll_not_found
         else respond poll_lookup_failed
     | Supabase.Data (poll, room) =>
         (* Check if room has expired *)
         match room_expires_at room with
         | None => respond room_expired
         | Some roomExpiresAt => return_if (roomExpiresAt <? now e) room_expired
         end ;;;
         (* Get all votes for this poll *)
         fetched <- Supabase.select_votes id ;;
         match fetched with
         | Supabase.Error _ => respond votes_failed
         | Supabase.Data votes =>
             let '(totalVotes, formattedResults) := calculate poll votes in
             pure (ok 200 (ResultsData id (poll_question poll) (poll_type poll)
                             totalVotes formattedResults (now e)
                             (room_id room) (room_code room) (room_name room)))
         end
     end)%handler
    internal_error.

End ResultsRoute.

(* ===================================================================== *)
(** ** [src/app/api/rooms/[code]/route.ts] *)
(* ===================================================================== *)

Module RoomRoute.

Definition invalid_code : Response :=
  failure 400 "Invalid room code"
    "Room code must be exactly 6 alphanumeric characters".
Definition room_not_found : Response :=
  failure 404 "Room not found" "No room exists with this code".
Definition room_lookup_failed : Response :=
  failure 500 "Database error" "Failed to look up room in database".
Definition room_expired : Response :=
  failure 410 "Room expired"
    "This room has expired and is no longer accessible".
Definition internal_error : Response :=
  failure 500 "Internal server error"
    "An unexpected error occurred while looking up the room".

Definition GET (e : Env) (code : string) (x_session_id : option string)
  : World -> Response * World :=
  try_catch
    ((* Validate room code format *)
     return_if (negb (Utils.validateRoomCode code)) invalid_code ;;;
     let normalizedCode := Utils.normalizeRoomCode code in
     (* Look up room in database *)
     looked_up <- Supabase.select_room normalizedCode ;;
     match looked_up with
     | Supabase.Error c =>
         if String.eqb c "PGRST116" then respond room_not_found
         else respond room_lookup_failed
     | Supabase.Data room =>
         (* Check if room has expired *)
         return_if (Utils.isRoomExpired (now e) (room_expires_at room))
           room_expired ;;;
         (* Create or update session for room visitor *)
         let sessionId := Js.or_string x_session_id (randomUUID e) in
         SessionManager.createSession e sessionId normalizedCode participant ;;;
         pure (ok 200 (RoomData (room_id room) (room_code room) (room_name room)
                         (room_created_at room) (room_expires_at room) false))
     end)%handler
    internal_error.

Definition delete_failed : Response :=
  failure 500 "Database error" "Failed to delete room from database".
Definition delete_internal_error : Response :=
  failure 500 "Internal server error"
    "An unexpected error occurred while deleting the room".

(** The payload of the success response is its [message]. *)
Definition DELETE (code : string) : World -> Reply string * World :=
  try_reply 200
    ((* Validate room code format *)
     return_if (negb (Utils.validateRoomCode code)) invalid_code ;;;
     let normalizedCode := Utils.normalizeRoomCode code in
     (* Check if room exists *)
     looked_up <- Supabase.select_room normalizedCode ;;
     match looked_up with
     | Supabase.Error c =>
         if String.eqb c "PGRST116" then respond room_not_found
         else respond room_lookup_failed
     | Supabase.Data room =>
         (* Delete room and all associated data *)
         deleted <- Supabase.delete_room (room_id room) ;;
         match deleted with
         | Supabase.Error _ => respond delete_failed
         | Supabase.Data _ => pure "Room deleted successfully"
         end
     end)%handler
    delete_internal_error.

End RoomRoute.

(* ===================================================================== *)
(** ** [src/app/api/polls/[id]/route.ts] *)
(* ===================================================================== *)

Module PollRoute.

(** [room: {id, code, name, expires_at}] *)
Record RoomRef := {
  ref_id : string;
  ref_code : string;
  ref_name : option string;
  ref_expires_at : option Z;
}.

Definition invalid_id : Response :=
  failure 400 "Invalid poll ID" "Poll ID must be a valid UUID".
Definition poll_not_found : Response :=
  failure 404 "Poll not found" "No poll exists with this ID".
Definition poll_lookup_failed : Response :=
  failure 500 "Database error" "Failed to look up poll in database".
Definition room_expired : Response :=
  failure 410 "Room expired" "The room containing this poll has expired".
Definition internal_error : Response :=
  failure 500 "Internal server error"
    "An unexpected error occurred while looking up the poll".

(** The payload holds the seven columns of the poll and its room. *)
Definition GET (e : Env) (id : string) (x_session_id : option string)
  : World -> Reply (Poll * RoomRef) * World :=
  try_reply 200
    ((* Validate poll ID format (UUID) *)
     return_if (negb (UuidRegex.test id)) invalid_id ;;;
     (* Look up poll in database *)
     looked_up <- Supabase.select_poll_with_room id ;;
     match looked_up with
     | Supabase.Error c =>
         if String.eqb c "PGRST116" then respond poll_not_found
         else respond poll_lookup_failed
     | Supabase.Data (poll, room) =>
         (* Check if room has expired *)
         match room_expires_at room with
         | None => respond room_expired
         | Some roomExpiresAt => return_if (roomExpiresAt <? now e) room_expired
         end ;;;
         (* Create or update session for poll viewer *)
         let sessionId := Js.or_string x_session_id (randomUUID e) in
         SessionManager.createSession e sessionId (room_code room) participant ;;;
         pure (poll, {| ref_id := room_id room; ref_code := room_code room;
                        ref_name := room_name room;
                        ref_expires_at := room_expires_at room |})
     end)%handler
    internal_error.

End PollRoute.

(* ===================================================================== *)
(** ** The polls of a room ([GET], second handler of
       [src/app/api/polls/create/route.ts]) *)
(* ===================================================================== *)

Module RoomPollsRoute.

Definition room_not_found : Response :=
  failure 404 "Room not found"
    "The specified room does not exist or has expired".
Definition room_expired : Response :=
  failure 410 "Room expired"
    "This room has expired and is no longer accessible".
Definition polls_failed : Response :=
  failure 500 "Database error" "Failed to fetch polls from database".
Definition internal_error : Response :=
  failure 500 "Internal server error"
    "An unexpected error occurred while fetching polls".

Definition GET (e : Env) (code : string) : World -> Reply (list Poll) * World :=
  try_reply 200
    ((* First, verify the room exists *)
     looked_up <- Supabase.select_room (Js.toUpperCase code) ;;
     match looked_up with
     | Supabase.Error _ => respond room_not_found
     | Supabase.Data room =>
         (* Check if room has expired *)
         match room_expires_at room with
         | None => respond room_expired
         | Some expiresAt => return_if (expiresAt <? now e) room_expired
         end ;;;
         (* Fetch polls for this room *)
         fetched <- Supabase.select_active_polls (room_id room) ;;
         match fetched with
         | Supabase.Error _ => respond polls_failed
         | Supabase.Data polls => pure polls
         end
     end)%handler
    internal_error.

End RoomPollsRoute.

(* ===================================================================== *)
(** ** [src/app/api/polls/create/route.ts] *)
(* ===================================================================== *)

Module CreatePollRoute.

(** The parsed body.  [options] is [None] for [null] and for a missing
    field, otherwise an object whose values are strings and numbers, as
    [PollOptions] types it. *)
Record Body := {
  roomId : Js.Value;
  question : Js.Value;
  pollType : Js.Value;
  options : option (gmap string OptionValue);
}.

(** [body] is [None] when [request.json()] rejects or the parsed body
    cannot be destructured. *)
Record Request := {
  body : option Body;
  x_session_id : option string;
}.

Definition request_json (request : Request) : Handler Body :=
  match body request with
  | Some b => pure b
  | None => throw
  end.

(** [options?.key] *)
Definition get (options : option (gmap string OptionValue)) (key : string)
  : option OptionValue :=
  match options with
  | Some o => o !! key
  | None => None
  end.

(** [!v]: [undefined], [0] and the empty string are falsy. *)
Definition falsy (v : option OptionValue) : bool :=
  match v with
  | None => true
  | Some (ONum n) => n =? 0
  | Some (OStr s) => String.eqb s ""
  end.

(** [v || d] *)
Definition or_default (v : option OptionValue) (d : string) : OptionValue :=
  match v with
  | Some x => if falsy v then OStr d else x
  | None => OStr d
  end.

(** [a >= b]: two strings are compared as strings, otherwise both
    sides are converted to numbers and NaN compares false. *)
Definition ge (a b : OptionValue) : bool :=
  match a, b with
  | OStr s, OStr t => Js.string_ge s t
  | _, _ =>
      match Options.Number (Some a), Options.Number (Some b) with
      | Some x, Some y => y <=? x
      | _, _ => false
      end
  end.

Definition validPollTypes : list string := ["yes_no"; "rating"; "multiple_choice"].

(** [validPollTypes.includes(pollType)] *)
Definition is_valid_type (pollType : Js.Value) : bool :=
  match pollType with
  | Js.Str s => Js.includes validPollTypes s
  | _ => false
  end.

Definition as_string (v : Js.Value) : string :=
  match v with Js.Str s => s | _ => "" end.

Definition missing_fields : Response :=
  failure 400 "Invalid input" "roomId, question, and pollType are required".
Definition invalid_type : Response :=
  failure 400 "Invalid poll type"
    "pollType must be one of: yes_no, rating, multiple_choice".
Definition rating_needs_bounds : Response :=
  failure 400 "Invalid options" "rating polls require min and max values".
Definition min_not_less : Response :=
  failure 400 "Invalid options" "min value must be less than max value".
Definition needs_two_options : Response :=
  failure 400 "Invalid options"
    "multiple_choice polls require at least 2 options".
Definition unknown_type : Response :=
  failure 400 "Invalid poll type" "Unknown poll type".
Definition room_not_found : Response :=
  failure 404 "Room not found" "The specified room does not exist".
Definition insert_failed : Response :=
  failure 500 "Database error" "Failed to create poll in database".
Definition internal_error : Response :=
  failure 500 "Internal server error"
    "An unexpected error occurred while creating the poll".

(** The [switch (pollType)] that validates the options. *)
Definition validateOptions (pollType : string)
    (options : option (gmap string OptionValue))
  : Handler (gmap string OptionValue) :=
  if String.eqb pollType "yes_no" then
    pure (<["no" := or_default (get options "no") "No"]>
            (<["yes" := or_default (get options "yes") "Yes"]> ∅))
  else if String.eqb pollType "rating" then
    if falsy (get options "min") || falsy (get options "max")
    then respond rating_needs_bounds
    else
      match get options "min", get options "max" with
      | Some min, Some max =>
          if ge min max then respond min_not_less
          else pure (<["max" := max]> (<["min" := min]> ∅))
      | _, _ => respond rating_needs_bounds
      end
  else if String.eqb pollType "multiple_choice" then
    match options with
    | None => respond needs_two_options
    | Some o =>
        if (length (Options.keys o) <? 2)%nat then respond needs_two_options
        else pure o
    end
  else respond unknown_type.

(** [.eq("id", roomId)]: a [roomId] that is not a string is not the
    text of a UUID, and the store rejects the filter. *)
Definition select_room (roomId : Js.Value) : Handler (Supabase.Result Room) :=
  match roomId with
  | Js.Str id => Supabase.select_room_by_id id
  | _ => pure (Supabase.Error "22P02")
  end.

(** [question.trim()]: only a string has the method. *)
Definition trim_question (question : Js.Value) : Handler string :=
  match question with
  | Js.Str s => pure (Js.trim s)
  | _ => throw
  end.

Definition POST (e : Env) (request : Request) : World -> Reply Poll * World :=
  try_reply 201
    ((* Parse request body *)
     body <- request_json request ;;
     (* Validate required fields *)
     return_if (negb (Js.truthy (roomId body)) || negb (Js.truthy (question body))
                || negb (Js.truthy (pollType body)))
       missing_fields ;;;
     (* Validate poll type *)
     return_if (negb (is_valid_type (pollType body))) invalid_type ;;;
     (* Validate options based on poll type *)
     validatedOptions <- validateOptions (as_string (pollType body)) (options body) ;;
     (* Verify room exists *)
     looked_up <- select_room (roomId body) ;;
     match looked_up with
     | Supabase.Error _ => respond room_not_found
     | Supabase.Data room =>
         (* Create poll *)
         trimmed <- trim_question (question body) ;;
         inserted <- Supabase.insert_poll e (as_string (roomId body)) trimmed
                       (as_string (pollType body)) validatedOptions ;;
         match inserted with
         | Supabase.Error _ => respond insert_failed
         | Supabase.Data poll =>
             (* Create session for poll creator *)
             let sessionId := Js.or_string (x_session_id request) (randomUUID e) in
             SessionManager.createSession e sessionId (room_code room) creator ;;;
             pure poll
         end
     end)%handler
    internal_error.

End CreatePollRoute.

(* ===================================================================== *)
(** ** [src/app/api/rooms/create/route.ts] *)
(* ===================================================================== *)

Module CreateRoomRoute.

(** [body] is [None] when [request.json()] rejects or the parsed body
    cannot be destructured; otherwise it holds [body.name]. *)
Record Request := {
  body : option Js.Value;
  x_session_id : option string;
}.

Definition request_json (request : Request) : Handler Js.Value :=
  match body request with
  | Some name => pure name
  | None => throw
  end.

Definition maxAttempts : nat := 10.

Definition invalid_name : Response :=
  failure 400 "Invalid input" "Room name must be a string".
Definition no_unique_code : Response :=
  failure 500 "Room creation failed"
    "Unable to generate unique room code after multiple attempts".
Definition insert_failed : Response :=
  failure 500 "Database error" "Failed to create room in database".
Definition internal_error : Response :=
  failure 500 "Internal server error"
    "An unexpected error occurred while creating the room".

(** [do { ... } while (attempts < maxAttempts)], entered with
    [attempts] codes generated so far; every code takes six values of
    [Math.random()].  The loop runs its body at most [maxAttempts]
    times, which [fuel] counts down. *)
Fixpoint generate_unique_code (random : nat -> Js.f64) (fuel attempts : nat)
  : Handler string :=
  let roomCode := Utils.generateRoomCode random (6 * attempts) in
  let attempts := S attempts in
  ((* Check if room code already exists *)
   existing <- Supabase.select_room roomCode ;;
   match existing with
   | Supabase.Error _ => pure roomCode
   | Supabase.Data _ =>
       return_if (maxAttempts <=? attempts)%nat no_unique_code ;;;
       match fuel with
       | S fuel' =>
           if (attempts <? maxAttempts)%nat
           then generate_unique_code random fuel' attempts
           else pure roomCode
       | O => pure roomCode
       end
   end)%handler.

(** [name || null] *)
Definition name_or_null (name : Js.Value) : option string :=
  match name with
  | Js.Str s => if String.eqb s "" then None else Some s
  | _ => None
  end.

Definition POST (e : Env) (random : nat -> Js.f64) (request : Request)
  : World -> Reply Room * World :=
  try_reply 201
    ((* Parse request body *)
     name <- request_json request ;;
     (* Validate input *)
     return_if (Js.truthy name && negb (Js.is_string name)) invalid_name ;;;
     (* Generate unique room code with collision detection *)
     roomCode <- generate_unique_code random maxAttempts 0 ;;
     (* Create room with 24-hour expiration *)
     let expiresAt := Utils.getRoomExpirationTime (now e) in
     inserted <- Supabase.insert_room e roomCode (name_or_null name) expiresAt ;;
     match inserted with
     | Supabase.Error _ => respond insert_failed
     | Supabase.Data room =>
         (* Create session for room creator *)
         let sessionId := Js.or_string (x_session_id request) (randomUUID e) in
         SessionManager.createSession e sessionId roomCode creator ;;;
         pure room
     end)%handler
    internal_error.

End CreateRoomRoute.

(* ===================================================================== *)
(** ** [src/lib/kv.ts]: [RateLimiter] *)
(* ===================================================================== *)

Module RateLimiter.

(** The counters of the store: a key holds its count and, when it has
    a time to live, the time (in milliseconds) at which it runs out.
    The store calls of one request are made at the time [Date.now()]
    of that request. *)
Record Store := {
  store_status : KvStatus;
  counters : gmap string (Z * option Z);
}.

Record Limit := {
  allowed : bool;
  remaining : Z;
  resetTime : Z;
}.

Definition RATE_LIMIT_PREFIX : string := "rate_limit:".
Definition DEFAULT_WINDOW : Z := 60.
Definition DEFAULT_MAX_REQUESTS : Z := 60.

(** [client.get(key)] at the time [t]: a key whose time to live has run
    out is gone. *)
Definition get (t : Z) (key : string) (c : gmap string (Z * option Z))
  : option (Z * option Z) :=
  match c !! key with
  | Some (n, Some expires) => if expires <=? t then None else Some (n, Some expires)
  | other => other
  end.

(** [client.incr(key)]: a key that is gone starts at 1, without a time
    to live. *)
Definition incr (t : Z) (key : string) (c : gmap string (Z * option Z))
  : gmap string (Z * option Z) :=
  match get t key c with
  | Some (n, expires) => <[key := (n + 1, expires)]> c
  | None => <[key := (1, None)]> c
  end.

(** [client.expire(key, seconds)] *)
Definition expire (t : Z) (key : string) (seconds : Z)
    (c : gmap string (Z * option Z)) : gmap string (Z * option Z) :=
  match get t key c with
  | Some (n, _) => <[key := (n, Some (t + seconds * 1000))]> c
  | None => c
  end.

(** [current ? parseInt(current as string) : 0] *)
Definition count_of (current : option (Z * option Z)) : Z :=
  match current with
  | Some (n, _) => n
  | None => 0
  end.

(** [checkRateLimit(identifier, maxRequests, windowSeconds)] at the
    time [date_now]. *)
Definition checkRateLimit (date_now : Z) (identifier : string)
    (maxRequests windowSeconds : Z) (s : Store) : Limit * Store :=
  let key := RATE_LIMIT_PREFIX +:+ identifier in
  let now := date_now / 1000 in
  match store_status s with
  | KvUnconfigured =>
      ({| allowed := true; remaining := maxRequests;
          resetTime := now + windowSeconds |}, s)
  | KvUnreachable =>
      (* Fail open - allow request if rate limiting fails *)
      ({| allowed := true; remaining := maxRequests;
          resetTime := now + windowSeconds |}, s)
  | KvAvailable =>
      (* Get current count *)
      let count := count_of (get date_now key (counters s)) in
      if maxRequests <=? count then
        ({| allowed := false; remaining := 0;
            resetTime := now + windowSeconds |}, s)
      else
        (* Increment counter *)
        ({| allowed := true; remaining := maxRequests - count - 1;
            resetTime := now + windowSeconds |},
         {| store_status := KvAvailable;
            counters := expire date_now key windowSeconds
                          (incr date_now key (counters s)) |})
  end.

End RateLimiter.

(* ===================================================================== *)
(** ** Vocabulary of the statements *)
(* ===================================================================== *)

(** The world after further storage calls. *)
Definition logged (w : World) (calls : list DbCall) : World :=
  {| db := db w; kv := kv w; db_calls := db_calls w ++ calls |}.

(** The lookup of [id] finds exactly the poll [p], owned by the room [r]. *)
Definition resolves (w : World) (id : string) (p : Poll) (r : Room) : Prop :=
  Supabase.poll_rows (db w) id = [(p, r)].

(** The room has an expiration and the clock has not passed it. *)
Definition room_open (e : Env) (r : Room) : bool :=
  match room_expires_at r with
  | Some t => now e <=? t
  | None => false
  end.

(** The session a vote request is attributed to. *)
Definition session_of (e : Env) (request : VoteRoute.Request) : string :=
  Js.or_string (VoteRoute.x_session_id request) (randomUUID e).

(** The row that a successful insert adds to the ledger. *)
Definition inserted_vote (e : Env) (id sessionId choice : string) : Vote :=
  {| vote_id := generated_id e;
     vote_poll_id := Js.toLowerCase id;
     vote_choice := choice;
     vote_session_id := sessionId;
     vote_created_at := now e |}.

Definition with_vote (d : Database) (v : Vote) : Database :=
  {| rooms := rooms d; polls := polls d; votes := votes d ++ [v] |}.


(** The 201 response for a created vote. *)
Definition vote_created (v : Vote) : Response :=
  ok 201 (VoteData (vote_id v) (vote_poll_id v) (vote_choice v) (vote_created_at v)).

(** [UNIQUE(poll_id, session_id)]: no pair has two rows. *)
Definition ledger_unique (d : Database) : Prop :=
  forall poll_id session_id,
    (length (filter (fun v => Supabase.vote_matches poll_id session_id v = true)
                    (votes d)) <= 1)%nat.

(** The rows that the results handler fetches for [id]. *)
Definition fetched_votes (w : World) (id : string) : list Vote :=
  filter (fun v => uuid_eqb (vote_poll_id v) id = true) (votes (db w)).

(** The number of votes whose choice is exactly [k]. *)
Definition count_choice (k : string) (votes : list Vote) : nat :=
  length (filter (fun v => vote_choice v = k) votes).


(** The label shown for the choice [k]. *)
Definition label_of (poll : Poll) (k : string) : string :=
  if String.eqb (poll_type poll) "yes_no" then
    if String.eqb k "yes"
    then Options.String_or (poll_options poll !! "yes") "Yes"
    else Options.String_or (poll_options poll !! "no") "No"
  else if String.eqb (poll_type poll) "rating" then k
  else Options.String_ (poll_options poll !! k).

(** The entry expected for the choice [k] given the fetched votes. *)
Definition expected_entry (poll : Poll) (votes : list Vote) (k : string)
  : ResultEntry :=
  {| label := label_of poll k;
     count := count_choice k votes;
     percentage :=
       if (length votes =? 0)%nat then 0
       else ResultsRoute.percent (count_choice k votes) (length votes) |}.




(** The result set of a response, when it carries one. *)
Definition results_of (response : Response)
  : option (nat * gmap string ResultEntry) :=
  match data response with
  | Some (ResultsData _ _ _ total results _ _ _ _) => Some (total, results)
  | _ => None
  end.

Fixpoint string_chars (s : string) : list ascii :=
  match s with
  | EmptyString => []
  | String c r => c :: string_chars r
  end.

(* ===================================================================== *)
(** ** Concrete rooms, polls and requests *)
(* ===================================================================== *)

Module Example.

Definition poll_uuid : string := "11111111-2222-3333-4444-555555555555".
Definition room_uuid : string := "aaaaaaaa-bbbb-cccc-dddd-eeeeeeeeeeee".

(** A room that expires at [expires]. *)
Definition room (expires : option Z) : Room :=
  {| room_id := room_uuid; room_code := "ABC123";
     room_name := Some "Sample Training Room";
     room_created_at := 0; room_expires_at := expires |}.

Definition poll (type : string) (options : gmap string OptionValue)
    (active : bool) : Poll :=
  {| poll_id := poll_uuid; poll_room_id := room_uuid;
     poll_question := "Ready?"; poll_options := options;
     poll_type := type; poll_created_at := 0; poll_is_active := active |}.

Definition yes_no (active : bool) : Poll :=
  poll "yes_no" (<["yes" := OStr "Yes"]> (<["no" := OStr "No"]> ∅)) active.


Fixpoint zeros (n : nat) : string :=
  match n with
  | O => ""
  | S n' => String "0" (zeros n')
  end.

(** The [n]-th vote of the ledger, cast by the [n]-th session. *)
Definition ballot (choice : string) (n : nat) : Vote :=
  let digits := pretty n in
  {| vote_id := "00000000-0000-0000-0000-"
                +:+ zeros (12 - String.length digits) +:+ digits;
     vote_poll_id := poll_uuid;
     vote_choice := choice;
     vote_session_id := "session-" +:+ digits;
     vote_created_at := Z.of_nat n |}.

Definition ballots (choice : string) (first n : nat) : list Vote :=
  ballot choice <$> seq first n.

Definition world (p : Poll) (r : Room) (ledger : list Vote) (s : KvStatus)
  : World :=
  {| db := {| rooms := [r]; polls := [p]; votes := ledger |};
     kv := {| kv_status := s; kv_entries := ∅ |};
     db_calls := [] |}.

(** The clock reads 1000; the room below expires at 86400000. *)
Definition env : Env :=
  {| now := 1000;
     randomUUID := "99999999-8888-7777-6666-555555555555";
     generated_id := "00000000-0000-0000-0000-00000000ffff" |}.

(** A later request: the clock reads 2000 and fresh identifiers are
    generated. *)
Definition later : Env :=
  {| now := 2000;
     randomUUID := "99999999-8888-7777-6666-444444444444";
     generated_id := "00000000-0000-0000-0000-00000000fffe" |}.

Definition open_room : Room := room (Some 86400000).
Definition expired_room : Room := room (Some 500).

Definition vote (id choice session : string) : VoteRoute.Request :=
  {| VoteRoute.params_id := id;
     VoteRoute.body := Some (Js.Str choice);
     VoteRoute.x_session_id := Some session |}.

(** Session 1 has voted "yes" on the binary poll. *)
Definition voted : World :=
  world (yes_no true) open_room (ballots "yes" 1 1) KvAvailable.

(** 200 "yes" votes and one vote with a choice outside the legal set. *)
Definition with_legacy_vote : World :=
  world (yes_no true) open_room
    (ballots "yes" 1 200 ++ ballots "maybe" 201 1) KvAvailable.

End Example.

(* ===================================================================== *)
(** ** Running a handler *)
(* ===================================================================== *)

Ltac run_handler :=
  unfold try_catch, bind, return_if, respond, pure,
    Supabase.select_poll_with_room, Supabase.select_votes,
    Supabase.select_vote_id, Supabase.insert_vote, Supabase.select_room,
    Supabase.log, VoteRoute.request_json;
  cbn [db kv db_calls fst snd].

Ltac run_vote_on := unfold VoteRoute.vote_on; run_handler.

Ltac run_reply :=
  unfold Supabase.select_poll_with_room, Supabase.select_room,
    Supabase.select_room_by_id, Supabase.insert_poll, Supabase.insert_room,
    Supabase.delete_room, Supabase.select_active_polls, Supabase.log;
  unfold try_reply, bind, return_if, respond, pure, throw;
  cbn [db kv db_calls fst snd].

(* ===================================================================== *)
(** ** Vocabulary of the statements on rooms, polls and sessions *)
(* ===================================================================== *)

(** The class [[A-Za-z0-9]]. *)
Definition is_alnum (c : ascii) : bool :=
  Js.is_upper c || Js.is_lower c || Js.is_digit c.

(** Neither end of the string is white space. *)
Definition trimmed (s : string) : Prop := Js.trim s = s.

Definition no_leading_space (s : string) : Prop :=
  match s with
  | String c _ => Js.is_space c = false
  | EmptyString => True
  end.

(** The session that [createSession] stores. *)
Definition new_session (e : Env) (sessionId room_code : string) (r : Role)
  : SessionData :=
  {| session_data_id := sessionId; createdAt := now e; lastActivity := now e;
     roomCode := Some room_code; role := Some r |}.

(** The session with its last activity set to the clock. *)
Definition touched (e : Env) (s : SessionData) : SessionData :=
  {| session_data_id := session_data_id s; createdAt := createdAt s;
     lastActivity := now e; roomCode := roomCode s; role := role s |}.

(** The session that the store holds under an identifier. *)
Definition stored_session (w : World) (sessionId : string) : option SessionData :=
  snd <$> kv_entries (kv w) !! (SessionManager.SESSION_PREFIX +:+ sessionId).

(** The world after [createSession] has stored a session. *)
Definition with_session (e : Env) (w : World) (sessionId room_code : string)
    (r : Role) : World :=
  {| db := db w;
     kv := {| kv_status := KvAvailable;
              kv_entries :=
                <[SessionManager.SESSION_PREFIX +:+ sessionId
                  := (SessionManager.SESSION_TTL,
                      new_session e sessionId room_code r)]>
                  (kv_entries (kv w)) |};
     db_calls := db_calls w |}.

(** Consecutive calls of [checkRateLimit] at the given times. *)
Fixpoint check_each (times : list Z) (identifier : string)
    (maxRequests windowSeconds : Z) (s : RateLimiter.Store)
  : list RateLimiter.Limit * RateLimiter.Store :=
  match times with
  | [] => ([], s)
  | t :: times' =>
      let '(l, s1) :=
        RateLimiter.checkRateLimit t identifier maxRequests windowSeconds s in
      let '(ls, s2) := check_each times' identifier maxRequests windowSeconds s1 in
      (l :: ls, s2)
  end.

(** What [client.get] finds for [identifier] at the time [t]. *)
Definition counter_at (s : RateLimiter.Store) (t : Z) (identifier : string)
  : option (Z * option Z) :=
  RateLimiter.get t (RateLimiter.RATE_LIMIT_PREFIX +:+ identifier)
    (RateLimiter.counters s).

(** The counter of [id] is gone at every time of [times] and the count
    is [0], or it holds [c] and lives beyond every time of [times]. *)
Definition counter_state (s : RateLimiter.Store) (id : string) (times : list Z)
    (c : Z) : Prop :=
  (c = 0 /\ forall t, t ∈ times -> counter_at s t id = None)
  \/ (exists expires,
        RateLimiter.counters s !! (RateLimiter.RATE_LIMIT_PREFIX +:+ id)
        = Some (c, Some expires)
        /\ forall t, t ∈ times -> t < expires).

(** The world after the vote requests of the list, made in order. *)
Fixpoint post_all (requests : list (Env * VoteRoute.Request)) (w : World) : World :=
  match requests with
  | [] => w
  | (e, request) :: rest => post_all rest (VoteRoute.POST e request w).2
  end.


(** The foreign keys of the schema: every poll has its room and every
    vote its poll. *)
Definition references_hold (d : Database) : Prop :=
  (forall p, p ∈ polls d ->
     exists r, r ∈ rooms d /\ uuid_eqb (room_id r) (poll_room_id p) = true)
  /\ (forall v, v ∈ votes d ->
        exists p, p ∈ polls d /\ uuid_eqb (poll_id p) (vote_poll_id v) = true).

(** [UNIQUE] on [rooms.code]: no code has two rooms. *)
Definition codes_unique (d : Database) : Prop :=
  forall code,
    (length (filter (fun r => room_code r = code) (rooms d)) <= 1)%nat.

Definition constraints_hold (d : Database) : Prop :=
  references_hold d /\ ledger_unique d /\ codes_unique d.

Definition with_room (d : Database) (r : Room) : Database :=
  {| rooms := rooms d ++ [r]; polls := polls d; votes := votes d |}.

Definition with_poll (d : Database) (p : Poll) : Database :=
  {| rooms := rooms d; polls := polls d ++ [p]; votes := votes d |}.

(** The database without the room [id], its polls and their votes. *)
Definition without_room (d : Database) (id : string) : Database :=
  {| rooms := filter (fun r => uuid_eqb (room_id r) id = false) (rooms d);
     polls := filter (fun p => Supabase.poll_of_room id p = false) (polls d);
     votes := filter (fun v => Supabase.vote_of_room d id v = false) (votes d) |}.

(** The room as the response for a poll shows it. *)
Definition room_ref (r : Room) : PollRoute.RoomRef :=
  {| PollRoute.ref_id := room_id r; PollRoute.ref_code := room_code r;
     PollRoute.ref_name := room_name r;
     PollRoute.ref_expires_at := room_expires_at r |}.

(** The row that a successful insert adds to [polls]. *)
Definition inserted_poll (e : Env) (roomId question pollType : string)
    (options : gmap string OptionValue) : Poll :=
  {| poll_id := generated_id e;
     poll_room_id := Js.toLowerCase roomId;
     poll_question := question;
     poll_options := options;
     poll_type := pollType;
     poll_created_at := now e;
     poll_is_active := true |}.


(** The [k]-th code that the creation of a room tries. *)
Definition candidate (random : nat -> Js.f64) (k : nat) : string :=
  Utils.generateRoomCode random (6 * k).

(** The lookups of the candidates [first], ..., [first + n - 1]. *)
Definition candidate_lookups (random : nat -> Js.f64) (first n : nat)
  : list DbCall :=
  (fun k => SelectRoom (candidate random k)) <$> seq first n.

(** The collision check finds a room with the code. *)
Definition code_taken (d : Database) (code : string) : Prop :=
  exists r,
    filter (fun r => String.eqb (room_code r) code = true) (rooms d) = [r].

Module Scenario.

(** A request to create a rating poll from 1 to 5 in the sample room. *)
Definition rating_poll : CreatePollRoute.Request :=
  {| CreatePollRoute.body :=
       Some {| CreatePollRoute.roomId := Js.Str Example.room_uuid;
               CreatePollRoute.question := Js.Str " How was the session? ";
               CreatePollRoute.pollType := Js.Str "rating";
               CreatePollRoute.options :=
                 Some (<["max" := ONum 5]> (<["min" := ONum 1]> ∅)) |};
     CreatePollRoute.x_session_id := Some "host" |}.

(** The poll that this request creates. *)
Definition created_rating_poll : Poll :=
  {| poll_id := "00000000-0000-0000-0000-00000000ffff";
     poll_room_id := Example.room_uuid;
     poll_question := "How was the session?";
     poll_options := <["max" := ONum 5]> (<["min" := ONum 1]> ∅);
     poll_type := "rating";
     poll_created_at := 1000;
     poll_is_active := true |}.

Definition zeros : nat -> Js.f64 := fun _ => (0, 0).

(** A request to create a room named "Workshop". *)
Definition workshop : CreateRoomRoute.Request :=
  {| CreateRoomRoute.body := Some (Js.Str "Workshop");
     CreateRoomRoute.x_session_id := Some "host" |}.


(** A database whose only room has the code "AAAAAA". *)
Definition crowded : World :=
  {| db := {| rooms := [ {| room_id := Example.room_uuid; room_code := "AAAAAA";
                           room_name := None; room_created_at := 0;
                           room_expires_at := Some 86400000 |} ];
              polls := []; votes := [] |};
     kv := {| kv_status := KvAvailable; kv_entries := ∅ |};
     db_calls := [] |}.


End Scenario.

(* ===================================================================== *)
(** ** Lists, maps and strings *)
(* ===================================================================== *)

Lemma foldl_insert_lookup {V} (f : string -> V) (ks : list string)
    (m : gmap string V) (j : string) :
  foldl (fun acc k => <[k := f k]> acc) m ks !! j
  = if decide (j ∈ ks) then Some (f j) else m !! j.
Proof.
  revert m. induction ks as [|k ks IH]; intros m; cbn [foldl].
  - case_decide as H; [by apply elem_of_nil in H | done].
  - rewrite IH. destruct (decide (j ∈ ks)) as [Hin|Hnin].
    + rewrite decide_True; [done | by apply list_elem_of_further].
    + destruct (decide (j = k)) as [->|Hne].
      * rewrite lookup_insert_eq, decide_True; [done | by apply list_elem_of_here].
      * rewrite lookup_insert_ne, decide_False; [done | | done].
        intros [?|?]%elem_of_cons; done.
Qed.

Lemma foldl_fmap {A B C} (f : A -> B -> A) (g : C -> B) (a : A) (l : list C) :
  foldl f a (g <$> l) = foldl (fun acc x => f acc (g x)) a l.
Proof. revert a. induction l as [|x l IH]; intros a; cbn; [done|]. by rewrite IH. Qed.

Lemma filter_none {A} (P : A -> Prop) `{!forall x, Decision (P x)} (l : list A) :
  (forall x, x ∈ l -> ~ P x) -> filter P l = [].
Proof.
  intros Hall. destruct (filter P l) as [|a l'] eqn:E; [done|].
  assert (a ∈ filter P l) as [Ha Hin]%list_elem_of_filter
    by (rewrite E; apply list_elem_of_here).
  by destruct (Hall a Hin).
Qed.


Lemma elem_of_keys {A} (o : gmap string A) (k : string) :
  k ∈ Options.keys o <-> is_Some (o !! k).
Proof.
  unfold Options.keys. rewrite list_elem_of_fmap. split.
  - intros [[k' x] [-> Hin]]. apply elem_of_map_to_list in Hin. by exists x.
  - intros [x Hx]. exists (k, x). split; [done|]. by apply elem_of_map_to_list.
Qed.


Lemma includes_true (l : list string) (s : string) :
  Js.includes l s = true <-> s ∈ l.
Proof. unfold Js.includes. apply bool_decide_eq_true. Qed.


Lemma lower_char_idemp (c : ascii) :
  Js.lower_char (Js.lower_char c) = Js.lower_char c.
Proof. destruct c as [[] [] [] [] [] [] [] []]; reflexivity. Qed.

Lemma toLowerCase_idemp (s : string) :
  Js.toLowerCase (Js.toLowerCase s) = Js.toLowerCase s.
Proof.
  unfold Js.toLowerCase. induction s as [|c s IH]; cbn; [done|].
  by rewrite lower_char_idemp, IH.
Qed.

Lemma upper_alnum_fixed (c : ascii) :
  Js.is_upper_alnum c = true -> Js.upper_char c = c /\ Js.is_space c = false.
Proof.
  destruct c as [[] [] [] [] [] [] [] []]; cbn; intros H;
    try discriminate H; done.
Qed.

Lemma lower_not_upper_alnum (c : ascii) :
  Js.is_lower c = true -> Js.is_upper_alnum c = false.
Proof.
  destruct c as [[] [] [] [] [] [] [] []]; cbn; intros H;
    try discriminate H; done.
Qed.

Lemma toUpperCase_fixed (s : string) :
  Js.forall_string Js.is_upper_alnum s = true -> Js.toUpperCase s = s.
Proof.
  unfold Js.toUpperCase. induction s as [|c s IH]; cbn; [done|].
  intros [Hc Hs]%andb_true_iff. rewrite IH by done.
  by rewrite (proj1 (upper_alnum_fixed c Hc)).
Qed.

Lemma trim_start_fixed (s : string) :
  Js.forall_string Js.is_upper_alnum s = true -> Js.trim_start s = s.
Proof.
  destruct s as [|c s]; cbn; [done|]. intros [Hc _]%andb_true_iff.
  by rewrite (proj2 (upper_alnum_fixed c Hc)).
Qed.

Lemma trim_end_fixed (s : string) :
  Js.forall_string Js.is_upper_alnum s = true -> Js.trim_end s = s.
Proof.
  induction s as [|c s IH]; cbn; [done|]. intros [Hc Hs]%andb_true_iff.
  rewrite IH by done. rewrite (proj2 (upper_alnum_fixed c Hc)).
  destruct s; done.
Qed.

Lemma forall_string_elem (p : ascii -> bool) (s : string) (c : ascii) :
  Js.forall_string p s = true -> c ∈ string_chars s -> p c = true.
Proof.
  induction s as [|a s IH]; cbn.
  - intros _ H. by apply elem_of_nil in H.
  - intros [Ha Hs]%andb_true_iff [->|Hin]%elem_of_cons; auto.
Qed.

(* ===================================================================== *)
(** ** Room codes *)
(* ===================================================================== *)

Lemma normalize_valid_code (code : string) :
  Utils.validateRoomCode code = true -> Utils.normalizeRoomCode code = code.
Proof.
  unfold Utils.validateRoomCode, Utils.upper_alnum_regex_test,
    Utils.normalizeRoomCode, Js.trim.
  intros [_ [_ H]%andb_true_iff]%andb_true_iff.
  rewrite toUpperCase_fixed by done. rewrite trim_start_fixed by done.
  by apply trim_end_fixed.
Qed.

Lemma lowercase_code_invalid (code : string) (c : ascii) :
  c ∈ string_chars code -> Js.is_lower c = true ->
  Utils.validateRoomCode code = false.
Proof.
  intros Hin Hl. destruct (Utils.validateRoomCode code) eqn:E; [|done].
  unfold Utils.validateRoomCode, Utils.upper_alnum_regex_test in E.
  apply andb_true_iff in E as [_ [_ H]%andb_true_iff].
  pose proof (forall_string_elem _ _ _ H Hin) as Hc.
  rewrite (lower_not_upper_alnum c Hl) in Hc. done.
Qed.

Lemma GET_room_invalid e code sid w :
  Utils.validateRoomCode code = false ->
  RoomRoute.GET e code sid w = (RoomRoute.invalid_code, w).
Proof. intros H. unfold RoomRoute.GET. run_handler. rewrite H. done. Qed.

Lemma GET_room_valid_lookup e code sid w :
  Utils.validateRoomCode code = true ->
  db_calls (RoomRoute.GET e code sid w).2 = (db_calls w ++ [SelectRoom code])%list.
Proof.
  intros H. unfold RoomRoute.GET. run_handler. rewrite H. cbn.
  rewrite (normalize_valid_code code H).
  destruct (Supabase.single _) as [room|c]; cbn.
  2: { destruct (String.eqb c _); done. }
  destruct (Utils.isRoomExpired _ _); cbn; [done|].
  unfold SessionManager.createSession. cbn.
  destruct (kv_status (kv w)); done.
Qed.

(* ===================================================================== *)
(** ** Identifiers and the ledger *)
(* ===================================================================== *)

Lemma uuid_eqb_lower_r (a b : string) :
  uuid_eqb a (Js.toLowerCase b) = uuid_eqb a b.
Proof. unfold uuid_eqb. by rewrite toLowerCase_idemp. Qed.

Lemma uuid_eqb_eq (a b : string) :
  uuid_eqb a b = true <-> Js.toLowerCase a = Js.toLowerCase b.
Proof. unfold uuid_eqb. apply String.eqb_eq. Qed.

Lemma vote_matches_lower pid sid v :
  Supabase.vote_matches (Js.toLowerCase pid) sid v = Supabase.vote_matches pid sid v.
Proof. unfold Supabase.vote_matches. by rewrite uuid_eqb_lower_r. Qed.

Lemma vote_matches_spec pid sid v :
  Supabase.vote_matches pid sid v = true
  <-> Js.toLowerCase (vote_poll_id v) = Js.toLowerCase pid /\ vote_session_id v = sid.
Proof.
  unfold Supabase.vote_matches.
  rewrite andb_true_iff, uuid_eqb_eq, String.eqb_eq. done.
Qed.

Lemma insertable_no_match d v :
  Supabase.vote_insertable d v = Supabase.Data v ->
  forall v', v' ∈ votes d ->
    Supabase.vote_matches (vote_poll_id v) (vote_session_id v) v' = false.
Proof.
  unfold Supabase.vote_insertable. intros H v' Hin.
  case_bool_decide as Hfk; [|done].
  case_bool_decide as Hex; [done|].
  destruct (Supabase.vote_matches _ _ v') eqn:E; [|done].
  exfalso. apply Hex, Exists_exists. exists v'. split; [done | by left].
Qed.

Lemma with_vote_unique d v :
  ledger_unique d ->
  Supabase.vote_insertable d v = Supabase.Data v ->
  ledger_unique (with_vote d v).
Proof.
  intros Hu Hins pid sid. cbn. rewrite filter_app, length_app.
  rewrite filter_cons, filter_nil.
  case_decide as Hm; cbn [length]; [|specialize (Hu pid sid); lia].
  assert (filter (fun v0 => Supabase.vote_matches pid sid v0 = true) (votes d) = [])
    as ->; [|cbn; lia].
  apply filter_none. intros v' Hin Hm'.
  pose proof (insertable_no_match d v Hins v' Hin) as Hno.
  apply vote_matches_spec in Hm as [Hp Hs], Hm' as [Hp' Hs'].
  assert (Supabase.vote_matches (vote_poll_id v) (vote_session_id v) v' = true);
    [|congruence].
  apply vote_matches_spec. split; congruence.
Qed.

Lemma single_matches_unique d pid sid v :
  ledger_unique d -> v ∈ votes d -> Supabase.vote_matches pid sid v = true ->
  filter (fun v0 => Supabase.vote_matches pid sid v0 = true) (votes d) = [v].
Proof.
  intros Hu Hin Hm. specialize (Hu pid sid).
  assert (v ∈ filter (fun v0 => Supabase.vote_matches pid sid v0 = true) (votes d))
    as Hf by (by apply list_elem_of_filter).
  destruct (filter _ (votes d)) as [|a [|b l]]; cbn in Hu.
  - by apply elem_of_nil in Hf.
  - by apply list_elem_of_singleton in Hf as ->.
  - lia.
Qed.

Lemma resolves_poll w id p r :
  resolves w id p r -> p ∈ polls (db w) /\ uuid_eqb (poll_id p) id = true.
Proof.
  unfold resolves, Supabase.poll_rows. intros Hrows.
  assert ((p, r) ∈ [(p, r)]) as Hin by apply list_elem_of_here.
  rewrite <- Hrows in Hin.
  apply list_elem_of_bind in Hin as (p' & Hin & Hp').
  apply list_elem_of_bind in Hin as (r' & Hin & _).
  apply list_elem_of_singleton in Hin. injection Hin as -> ->.
  apply list_elem_of_filter in Hp' as [Hp' Hin]. done.
Qed.

Lemma room_open_true e r :
  room_open e r = true -> exists t, room_expires_at r = Some t /\ now e <= t.
Proof.
  unfold room_open. destruct (room_expires_at r) as [t|]; [|done].
  intros H. exists t. split; [done | lia].
Qed.

(* ===================================================================== *)
(** ** The derived choice set *)
(* ===================================================================== *)





(* ===================================================================== *)
(** ** The calculation of the results *)
(* ===================================================================== *)

Lemma foldl_zero_fst (acc : ResultsRoute.Counts) ks :
  (foldl ResultsRoute.zero acc ks).1 = foldl (fun m k => <[k := 0%nat]> m) acc.1 ks.
Proof.
  revert acc. induction ks as [|k ks IH]; intros acc; cbn [foldl]; [done|].
  by rewrite IH.
Qed.

Lemma foldl_zero_snd (acc : ResultsRoute.Counts) ks :
  (foldl ResultsRoute.zero acc ks).2 = foldl (fun m k => <[k := 0]> m) acc.2 ks.
Proof.
  revert acc. induction ks as [|k ks IH]; intros acc; cbn [foldl]; [done|].
  by rewrite IH.
Qed.

Lemma foldl_zero_lookup (ks : list string) (j : string) :
  (foldl ResultsRoute.zero (∅, ∅) ks).1 !! j
    = (if decide (j ∈ ks) then Some 0%nat else None)
  /\ (foldl ResultsRoute.zero (∅, ∅) ks).2 !! j
    = (if decide (j ∈ ks) then Some 0 else None).
Proof.
  rewrite foldl_zero_fst, foldl_zero_snd.
  rewrite (foldl_insert_lookup (fun _ => 0%nat)), (foldl_insert_lookup (fun _ => 0)).
  cbn. by rewrite !lookup_empty.
Qed.

Lemma initialize_lookup (poll : Poll) (j : string) :
  (ResultsRoute.initialize poll).1 !! j
    = (if decide (j ∈ VoteRoute.validChoices poll) then Some 0%nat else None)
  /\ (ResultsRoute.initialize poll).2 !! j
    = (if decide (j ∈ VoteRoute.validChoices poll) then Some 0 else None).
Proof.
  unfold ResultsRoute.initialize, VoteRoute.validChoices.
  destruct (String.eqb (poll_type poll) "yes_no").
  { apply (foldl_zero_lookup ["yes"; "no"]). }
  destruct (String.eqb (poll_type poll) "rating").
  { rewrite <- (foldl_fmap ResultsRoute.zero Js.toString). apply foldl_zero_lookup. }
  destruct (String.eqb (poll_type poll) "multiple_choice"); apply foldl_zero_lookup.
Qed.

Lemma count_choice_cons k v vs :
  count_choice k (v :: vs) = (count_choice k [v] + count_choice k vs)%nat.
Proof.
  unfold count_choice. rewrite filter_cons. cbn.
  case_decide; cbn; done.
Qed.


Lemma countVote_lookup (m : gmap string nat) (v : Vote) (k : string) :
  ResultsRoute.countVote m v !! k
  = (fun n => (n + count_choice k [v])%nat) <$> m !! k.
Proof.
  unfold ResultsRoute.countVote, count_choice. cbn.
  destruct (decide (vote_choice v = k)) as [<-|Hne].
  - destruct (m !! vote_choice v) as [n|] eqn:E.
    + rewrite lookup_insert_eq. cbn. f_equal. lia.
    + by rewrite E.
  - destruct (m !! vote_choice v) as [n|] eqn:E.
    + rewrite lookup_insert_ne by done.
      destruct (m !! k); cbn; [f_equal; lia | done].
    + destruct (m !! k); cbn; [f_equal; lia | done].
Qed.

Lemma foldl_countVote_lookup (votes : list Vote) (m : gmap string nat) (k : string) :
  foldl ResultsRoute.countVote m votes !! k
  = (fun n => (n + count_choice k votes)%nat) <$> m !! k.
Proof.
  revert m. induction votes as [|v vs IH]; intros m; cbn [foldl].
  - unfold count_choice. rewrite filter_nil.
    destruct (m !! k); cbn; [f_equal; lia | done].
  - rewrite IH, countVote_lookup, (count_choice_cons k v vs).
    destruct (m !! k) as [n|]; [|done].
    cbn [fmap option_fmap option_map]. f_equal. lia.
Qed.

Lemma calculatePercentages_lookup total (vc : gmap string nat)
    (vp : gmap string Z) k :
  ResultsRoute.calculatePercentages total vc vp !! k
  = if (0 <? total)%nat
    then match vc !! k with
         | Some c => Some (ResultsRoute.percent c total)
         | None => vp !! k
         end
    else vp !! k.
Proof.
  unfold ResultsRoute.calculatePercentages.
  destruct (0 <? total)%nat; [|done].
  rewrite (foldl_insert_lookup
             (fun option => ResultsRoute.percent (default 0%nat (vc !! option)) total)).
  case_decide as Hk.
  - apply elem_of_keys in Hk as [c ->]. done.
  - destruct (vc !! k) as [c|] eqn:E; [|done].
    exfalso. apply Hk, elem_of_keys. by exists c.
Qed.

Lemma formatResults_lookup poll (vc : gmap string nat) (vp : gmap string Z) k :
  ResultsRoute.formatResults poll vc vp !! k
  = if decide (k ∈ VoteRoute.validChoices poll)
    then Some (ResultsRoute.entry (label_of poll k) vc vp k)
    else None.
Proof.
  unfold ResultsRoute.formatResults, VoteRoute.validChoices, label_of.
  destruct (String.eqb (poll_type poll) "yes_no").
  { destruct (decide (k = "no")) as [->|Hno].
    - rewrite lookup_insert_eq, decide_True; [done|].
      apply list_elem_of_further, list_elem_of_here.
    - rewrite lookup_insert_ne by done.
      destruct (decide (k = "yes")) as [->|Hyes].
      + rewrite lookup_insert_eq, decide_True; [done|]. apply list_elem_of_here.
      + rewrite lookup_insert_ne, lookup_empty, decide_False; [done| |done].
        intros [?|[?|?%elem_of_nil]%elem_of_cons]%elem_of_cons; done. }
  destruct (String.eqb (poll_type poll) "rating").
  { rewrite <- (foldl_fmap
                 (fun acc key => <[key := ResultsRoute.entry key vc vp key]> acc)
                 Js.toString).
    rewrite (foldl_insert_lookup (fun key => ResultsRoute.entry key vc vp key)).
    by rewrite lookup_empty. }
  assert (foldl (fun acc option =>
            <[option := ResultsRoute.entry
                          (Options.String_ (poll_options poll !! option))
                          vc vp option]> acc)
            (∅ : gmap string ResultEntry) (Options.keys (poll_options poll)) !! k
          = if decide (k ∈ Options.keys (poll_options poll))
            then Some (ResultsRoute.entry
                         (Options.String_ (poll_options poll !! k)) vc vp k)
            else None) as H.
  { rewrite (foldl_insert_lookup (fun option => ResultsRoute.entry
              (Options.String_ (poll_options poll !! option)) vc vp option)).
    by rewrite lookup_empty. }
  destruct (String.eqb (poll_type poll) "multiple_choice"); exact H.
Qed.

Lemma percent_zero (total : nat) : ResultsRoute.percent 0 total = 0.
Proof. reflexivity. Qed.

Lemma calculate_spec poll votes :
  (ResultsRoute.calculate poll votes).1 = length votes
  /\ forall k, (ResultsRoute.calculate poll votes).2 !! k
         = if decide (k ∈ VoteRoute.validChoices poll)
           then Some (expected_entry poll votes k) else None.
Proof.
  unfold ResultsRoute.calculate.
  pose proof (initialize_lookup poll) as Hinit.
  destruct (ResultsRoute.initialize poll) as [vc0 vp0]. cbn [fst snd] in *.
  split; [done|]. intros k. rewrite formatResults_lookup.
  case_decide as Hk; [|done]. f_equal.
  destruct (Hinit k) as [Hc Hp].
  rewrite decide_True in Hc by done. rewrite decide_True in Hp by done.
  unfold ResultsRoute.entry, expected_entry. f_equal.
  - rewrite foldl_countVote_lookup, Hc. done.
  - rewrite calculatePercentages_lookup, foldl_countVote_lookup, Hc, Hp.
    cbn [fmap option_fmap option_map].
    destruct (length votes) as [|n] eqn:E; cbn; done.
Qed.









(* ===================================================================== *)
(** ** The percentages are nearest integers *)
(* ===================================================================== *)

Section Binary64.

Local Open Scope Z_scope.

Lemma div_lt_inv a b q : 0 < b -> a / b < q -> a < b * q.
Proof.
  intros Hb H. pose proof (Z.div_mod a b ltac:(lia)) as Hdm.
  pose proof (Z.mod_pos_bound a b Hb) as Hr. nia.
Qed.

Lemma div_ge_inv a b q : 0 < b -> q <= a / b -> b * q <= a.
Proof.
  intros Hb H. pose proof (Z.div_mod a b ltac:(lia)) as Hdm.
  pose proof (Z.mod_pos_bound a b Hb) as Hr. nia.
Qed.

Lemma mul_lt_r a b p : 0 < p -> a < b -> a * p < b * p.
Proof. intros. apply Z.mul_lt_mono_pos_r; assumption. Qed.

Lemma mul_le_r a b p : 0 < p -> a <= b -> a * p <= b * p.
Proof. intros. apply Z.mul_le_mono_nonneg_r; lia. Qed.

Lemma abs_mul_le x p y : 0 < p -> Z.abs (x * p) <= y * p -> Z.abs x <= y.
Proof.
  intros Hp H. rewrite Z.abs_mul, (Z.abs_eq p) in H by lia.
  apply Z.mul_le_mono_pos_r in H; assumption.
Qed.

Lemma pow2_ge_2 k : 1 <= k -> 2 <= 2 ^ k.
Proof.
  intros Hk. change 2 with (2 ^ 1) at 1. apply Z.pow_le_mono_r; lia.
Qed.

Lemma pow2_le_inv a b : 0 <= a -> 0 <= b -> 2 ^ a <= 2 ^ b -> a <= b.
Proof. intros Ha Hb H. apply (Z.pow_le_mono_r_iff 2); lia. Qed.

(** Rounding to nearest moves a quotient by at most half a unit. *)
Lemma rne_error n1 d1 :
  0 < d1 -> Z.abs (2 * Js.rne n1 d1 * d1 - 2 * n1) <= d1.
Proof.
  intros Hd. unfold Js.rne.
  pose proof (Z.div_mod n1 d1 ltac:(lia)) as Hdm.
  pose proof (Z.mod_pos_bound n1 d1 Hd) as Hr.
  remember (n1 / d1) as q. remember (n1 mod d1) as r. cbv zeta.
  destruct (Z.ltb_spec (2 * r) d1).
  { replace (2 * q * d1 - 2 * n1) with (- 2 * r) by (rewrite Hdm; ring). lia. }
  destruct (Z.ltb_spec d1 (2 * r)).
  { replace (2 * (q + 1) * d1 - 2 * n1) with (2 * d1 - 2 * r)
      by (rewrite Hdm; ring). lia. }
  destruct (Z.even q).
  { replace (2 * q * d1 - 2 * n1) with (- 2 * r) by (rewrite Hdm; ring). lia. }
  { replace (2 * (q + 1) * d1 - 2 * n1) with (2 * d1 - 2 * r)
      by (rewrite Hdm; ring). lia. }
Qed.

(** The normalisation: the scaled quotient lies in [2 ^ 52, 2 ^ 53). *)
Lemma scaled_range n d :
  0 < n -> 0 < d ->
  let k0 := Z.log2 n - Z.log2 d - 52 in
  let k := if fst (Js.scaled n d k0) / snd (Js.scaled n d k0) <? 2 ^ 52
           then k0 - 1 else k0 in
  0 < snd (Js.scaled n d k)
  /\ 2 ^ 52 * snd (Js.scaled n d k) <= fst (Js.scaled n d k)
     < 2 ^ 53 * snd (Js.scaled n d k).
Proof.
  intros Hn Hd.
  pose proof (Z.log2_spec n Hn) as [Hnlo Hnhi].
  pose proof (Z.log2_spec d Hd) as [Hdlo Hdhi].
  pose proof (Z.log2_nonneg n) as Ha0. pose proof (Z.log2_nonneg d) as Hb0.
  remember (Z.log2 n) as a eqn:Ea. remember (Z.log2 d) as b eqn:Eb.
  assert (2 ^ Z.succ a = 2 * 2 ^ a) as Hsa by (rewrite Z.pow_succ_r; lia).
  assert (2 ^ Z.succ b = 2 * 2 ^ b) as Hsb by (rewrite Z.pow_succ_r; lia).
  rewrite Hsa in Hnhi. rewrite Hsb in Hdhi.
  assert (0 < 2 ^ a) as HA by (apply Z.pow_pos_nonneg; lia).
  assert (0 < 2 ^ b) as HB by (apply Z.pow_pos_nonneg; lia).
  cbv zeta. remember (a - b - 52) as k0 eqn:Ek0.
  unfold Js.scaled.
  destruct (Z.leb_spec 0 k0) as [Hk0|Hk0]; cbn [fst snd].
  - assert (2 ^ a = 2 ^ 52 * (2 ^ b * 2 ^ k0)) as Hpow.
    { rewrite <- !Z.pow_add_r by lia. f_equal. lia. }
    assert (0 < 2 ^ k0) as HP by (apply Z.pow_pos_nonneg; lia).
    remember (2 ^ a) as A. remember (2 ^ b) as B. remember (2 ^ k0) as P.
    pose proof (mul_le_r B d P HP Hdlo) as H1.
    pose proof (mul_lt_r d (2 * B) P HP Hdhi) as H2.
    assert (0 < d * P) as HdP by (apply Z.mul_pos_pos; lia).
    destruct (Z.ltb_spec (n / (d * P)) (2 ^ 52)) as [Hsmall|Hbig].
    + apply div_lt_inv in Hsmall; [|lia].
      destruct (Z.leb_spec 0 (k0 - 1)) as [Hk1|Hk1]; cbn [fst snd].
      * assert (P = 2 ^ (k0 - 1) * 2) as HP1.
        { subst P. replace k0 with (Z.succ (k0 - 1)) at 1 by lia.
          rewrite Z.pow_succ_r; lia. }
        assert (0 < 2 ^ (k0 - 1)) by (apply Z.pow_pos_nonneg; lia).
        remember (2 ^ (k0 - 1)) as P'.
        rewrite HP1 in *. rewrite !Z.mul_assoc in *.
        split; [apply Z.mul_pos_pos; lia|]. lia.
      * assert (k0 = 0) as Hz by lia.
        assert (P = 1) as HP1 by (rewrite HeqP, Hz; reflexivity).
        replace (- (k0 - 1)) with 1 by lia. change (2 ^ 1) with 2.
        rewrite HP1 in *. lia.
    + apply div_ge_inv in Hbig; [|lia].
      replace (0 <=? k0) with true by lia. cbn [fst snd]. rewrite <- HeqP. lia.
  - assert (2 ^ a * 2 ^ (- k0) = 2 ^ 52 * 2 ^ b) as Hpow.
    { rewrite <- !Z.pow_add_r by lia. f_equal. lia. }
    assert (0 < 2 ^ (- k0)) as HP by (apply Z.pow_pos_nonneg; lia).
    remember (2 ^ a) as A. remember (2 ^ b) as B. remember (2 ^ (- k0)) as P.
    pose proof (mul_le_r A n P HP Hnlo) as H1.
    pose proof (mul_lt_r n (2 * A) P HP Hnhi) as H2.
    destruct (Z.ltb_spec (n * P / d) (2 ^ 52)) as [Hsmall|Hbig].
    + apply div_lt_inv in Hsmall; [|lia].
      replace (0 <=? k0 - 1) with false by lia. cbn [fst snd].
      assert (2 ^ (- (k0 - 1)) = 2 * P) as HP1.
      { subst P. replace (- (k0 - 1)) with (Z.succ (- k0)) by lia.
        rewrite Z.pow_succ_r; lia. }
      rewrite HP1. lia.
    + apply div_ge_inv in Hbig; [|lia].
      replace (0 <=? k0) with false by lia. cbn [fst snd]. rewrite <- HeqP. lia.
Qed.

(** [round53 n d e] has a 53-bit significand and is within half a unit
    in the last place of [n / d * 2 ^ e]. *)
Lemma round53_spec n d e :
  0 < n -> 0 < d ->
  exists q k,
    Js.round53 n d e = (q, k + e)
    /\ 0 < snd (Js.scaled n d k)
    /\ 2 ^ 52 * snd (Js.scaled n d k) <= fst (Js.scaled n d k)
       < 2 ^ 53 * snd (Js.scaled n d k)
    /\ Z.abs (2 * q * snd (Js.scaled n d k) - 2 * fst (Js.scaled n d k))
       <= snd (Js.scaled n d k).
Proof.
  intros Hn Hd. unfold Js.round53. replace (n =? 0) with false by lia.
  pose proof (scaled_range n d Hn Hd) as H. cbv zeta in *.
  remember (if _ <? 2 ^ 52 then _ else _) as k.
  destruct H as [Hpos Hrange].
  exists (Js.rne (fst (Js.scaled n d k)) (snd (Js.scaled n d k))), k.
  split; [reflexivity|]. split; [exact Hpos|]. split; [exact Hrange|].
  apply rne_error. exact Hpos.
Qed.

(** The integers below [2 ^ 53] are represented exactly. *)
Lemma round53_exact n :
  0 < n < 2 ^ 53 ->
  exists s, 0 <= s /\ Js.round53 n 1 0 = (n * 2 ^ s, - s + 0)
            /\ 2 ^ 52 <= n * 2 ^ s < 2 ^ 53.
Proof.
  intros [Hn Hlt].
  destruct (round53_spec n 1 0 Hn ltac:(lia)) as (q & k & Heq & Hpos & Hrange & Herr).
  unfold Js.scaled in *.
  destruct (Z.leb_spec 0 k) as [Hk|Hk]; cbn [fst snd] in *.
  - assert (k = 0) as ->.
    { destruct (Z.eq_dec k 0) as [|Hne]; [assumption|].
      pose proof (pow2_ge_2 k ltac:(lia)). lia. }
    change (2 ^ 0) with 1 in *. exists 0. split; [lia|].
    assert (q = n) as -> by lia. rewrite Heq. split; [|lia].
    f_equal. change (2 ^ 0) with 1. lia.
  - exists (- k). split; [lia|].
    assert (q = n * 2 ^ (- k)) as -> by lia.
    rewrite Heq. split; [f_equal; lia | lia].
Qed.

Lemma of_nat_100 : Js.of_nat 100 = (100 * 2 ^ 46, - 46 + 0).
Proof. vm_compute. reflexivity. Qed.

(** The two rounding errors of [(C / T) * 100] together stay below the
    distance [1 / (2 * T)] between the half-integers and the multiples of
    [1 / T]. *)
Lemma nearest_integer C T B q1 q2 P2 A :
  0 < C <= T -> T < 2 ^ 32 ->
  2 ^ 52 <= B ->
  Z.abs (2 * q1 * T - 2 * (C * B)) <= T ->
  0 < P2 <= 2 ^ 54 ->
  Z.abs (2 * q2 * P2 - 2 * (q1 * (100 * 2 ^ 46))) <= P2 ->
  0 < A -> A * P2 = B * 2 ^ 46 ->
  Z.abs (2 * T * ((2 * q2 + A) / (2 * A)) - 200 * C) <= T.
Proof.
  intros HC HT HB H1 HP2 H2 HA HAP.
  remember ((2 * q2 + A) / (2 * A)) as p eqn:Ep.
  assert (2 * A * p <= 2 * q2 + A < 2 * A * (p + 1)) as [Hlo Hhi].
  { pose proof (Z.div_mod (2 * q2 + A) (2 * A) ltac:(lia)) as Hdm.
    pose proof (Z.mod_pos_bound (2 * q2 + A) (2 * A) ltac:(lia)) as Hr.
    rewrite <- Ep in Hdm. lia. }
  assert (0 < P2 * T) as HPT by (apply Z.mul_pos_pos; lia).
  assert (Z.abs ((2 * q2 * P2 - 2 * (q1 * (100 * 2 ^ 46))) * T) <= P2 * T) as H2T.
  { rewrite Z.abs_mul, (Z.abs_eq T) by lia.
    apply Z.mul_le_mono_nonneg_r; lia. }
  replace ((2 * q2 * P2 - 2 * (q1 * (100 * 2 ^ 46))) * T)
    with (2 * q2 * P2 * T - 2 ^ 46 * 100 * (2 * q1 * T)) in H2T by ring.
  assert (P2 * T <= 2 ^ 54 * T) as HPT' by (apply Z.mul_le_mono_nonneg_r; lia).
  assert (A * P2 * T = B * 2 ^ 46 * T) as HD1 by (rewrite HAP; ring).
  assert (2 * A * p * (P2 * T) <= (2 * q2 + A) * (P2 * T)) as Hlo'
    by (apply Z.mul_le_mono_nonneg_r; lia).
  assert ((2 * q2 + A) * (P2 * T) < 2 * A * (p + 1) * (P2 * T)) as Hhi'
    by (apply Z.mul_lt_mono_pos_r; lia).
  replace (2 * A * p * (P2 * T)) with (2 * (A * P2 * T) * p) in Hlo' by ring.
  replace ((2 * q2 + A) * (P2 * T)) with (2 * q2 * P2 * T + A * P2 * T)
    in Hlo', Hhi' by ring.
  replace (2 * A * (p + 1) * (P2 * T)) with (2 * (A * P2 * T) * (p + 1))
    in Hhi' by ring.
  rewrite HD1 in Hlo', Hhi'.
  assert (B * (2 * T * p) < B * (200 * C + T + 1)) as Hup.
  { replace (B * (2 * T * p)) with (2 * (B * T * p)) by ring.
    replace (B * 2 ^ 46 * T) with (2 ^ 46 * (B * T)) in Hlo' by ring.
    replace (2 * (2 ^ 46 * (B * T)) * p) with (2 ^ 46 * (2 * (B * T * p)))
      in Hlo' by ring.
    lia. }
  assert (B * (200 * C + T - 1) < B * (2 * T * (p + 1))) as Hdown.
  { replace (B * (2 * T * (p + 1))) with (2 * (B * T * p) + 2 * (B * T)) by ring.
    replace (B * 2 ^ 46 * T) with (2 ^ 46 * (B * T)) in Hhi' by ring.
    replace (2 * (2 ^ 46 * (B * T)) * (p + 1))
      with (2 ^ 46 * (2 * (B * T * p) + 2 * (B * T))) in Hhi' by ring.
    lia. }
  apply Z.mul_lt_mono_pos_l in Hup; [|lia].
  apply Z.mul_lt_mono_pos_l in Hdown; [|lia].
  lia.
Qed.

(** [Math.round((c / t) * 100)], computed in binary64, is an integer
    nearest to the exact [100 * c / t], for every total an array can
    have. *)
Lemma percent_nearest (c t : nat) :
  (c <= t)%nat -> (0 < t)%nat -> Z.of_nat t < 2 ^ 32 ->
  Z.abs (2 * Z.of_nat t * ResultsRoute.percent c t - 200 * Z.of_nat c)
  <= Z.of_nat t.
Proof.
  intros Hct Htpos Ht.
  destruct c as [|c']; [rewrite percent_zero; lia|].
  remember (S c') as c eqn:Ec.
  remember (Z.of_nat c) as C eqn:EC. remember (Z.of_nat t) as T eqn:ET.
  assert (0 < C <= T) as HC by lia.
  unfold ResultsRoute.percent. rewrite of_nat_100. unfold Js.of_nat.
  rewrite <- EC, <- ET.
  destruct (round53_exact C ltac:(lia)) as (sc & Hsc & -> & Hnc).
  destruct (round53_exact T ltac:(lia)) as (st & Hst & -> & Hnt).
  unfold Js.fdiv, Js.fmul. cbn [fst snd].
  assert (0 < 2 ^ sc) as Hpsc by (apply Z.pow_pos_nonneg; lia).
  assert (0 < 2 ^ st) as Hpst by (apply Z.pow_pos_nonneg; lia).
  (* the quotient *)
  destruct (round53_spec (C * 2 ^ sc) (T * 2 ^ st) (- sc + 0 - (- st + 0))
              ltac:(lia) ltac:(lia))
    as (q1 & k1 & -> & Hpos1 & Hrange1 & Herr1).
  cbn [fst snd].
  assert (k1 < 0) as Hk1.
  { destruct (Z.ltb_spec k1 0) as [|Hge]; [assumption|]. exfalso.
    unfold Js.scaled in Hrange1. replace (0 <=? k1) with true in Hrange1 by lia.
    cbn [fst snd] in Hrange1.
    assert (1 <= 2 ^ k1) by (pose proof (Z.pow_pos_nonneg 2 k1); lia).
    assert (T * 2 ^ st <= T * 2 ^ st * 2 ^ k1).
    { rewrite <- (Z.mul_1_r (T * 2 ^ st)) at 1.
      apply Z.mul_le_mono_nonneg_l; lia. }
    lia. }
  unfold Js.scaled in Hpos1, Hrange1, Herr1.
  replace (0 <=? k1) with false in * by lia. cbn [fst snd] in *.
  remember (- k1) as j1 eqn:Ej1.
  assert (0 < 2 ^ j1) as Hpj1 by (apply Z.pow_pos_nonneg; lia).
  (* the exponent of the quotient *)
  assert (52 + st <= sc + j1) as HJ.
  { destruct (Z.le_gt_cases (52 + st) (sc + j1)) as [|Hlt]; [assumption|]. exfalso.
    assert (2 ^ (sc + j1) <= 2 ^ (51 + st)) as Hp by (apply Z.pow_le_mono_r; lia).
    rewrite !Z.pow_add_r in Hp by lia.
    assert (C * (2 ^ sc * 2 ^ j1) <= T * (2 ^ sc * 2 ^ j1)) as Hm1
      by (apply Z.mul_le_mono_nonneg_r; lia).
    assert (T * (2 ^ sc * 2 ^ j1) <= T * (2 ^ 51 * 2 ^ st)) as Hm2
      by (apply Z.mul_le_mono_nonneg_l; lia).
    lia. }
  remember (sc + j1 - st) as J eqn:EJ.
  assert (2 ^ sc * 2 ^ j1 = 2 ^ J * 2 ^ st) as HB.
  { rewrite <- !Z.pow_add_r by lia. f_equal. lia. }
  assert (2 ^ 52 <= 2 ^ J) as HB52 by (apply Z.pow_le_mono_r; lia).
  remember (2 ^ J) as B eqn:EB.
  assert (Z.abs (2 * q1 * T - 2 * (C * B)) <= T) as H1.
  { apply (abs_mul_le _ (2 ^ st)); [lia|].
    replace ((2 * q1 * T - 2 * (C * B)) * 2 ^ st)
      with (2 * q1 * (T * 2 ^ st) - 2 * (C * (B * 2 ^ st))) by ring.
    rewrite <- HB.
    replace (C * (2 ^ sc * 2 ^ j1)) with (C * 2 ^ sc * 2 ^ j1) by ring.
    exact Herr1. }
  assert (2 ^ 52 <= q1 <= 2 ^ 53) as Hq1.
  { remember (T * 2 ^ st) as d1. remember (C * 2 ^ sc * 2 ^ j1) as n1.
    assert (2 ^ 52 * d1 - d1 < q1 * d1 + q1 * d1) by lia.
    assert (q1 * d1 + q1 * d1 < 2 ^ 53 * d1 + d1 + 2 ^ 53 * d1) by lia.
    split.
    - destruct (Z.le_gt_cases (2 ^ 52) q1) as [|Hlt]; [assumption|]. exfalso.
      assert (q1 * d1 <= (2 ^ 52 - 1) * d1) by (apply Z.mul_le_mono_nonneg_r; lia).
      lia.
    - destruct (Z.le_gt_cases q1 (2 ^ 53)) as [|Hgt]; [assumption|]. exfalso.
      assert ((2 ^ 53 + 1) * d1 <= q1 * d1) by (apply Z.mul_le_mono_nonneg_r; lia).
      lia. }
  (* the product *)
  destruct (round53_spec (q1 * (100 * 2 ^ 46)) 1
              (k1 + (- sc + 0 - (- st + 0)) + (- 46 + 0)) ltac:(lia) ltac:(lia))
    as (q2 & k2 & -> & Hpos2 & Hrange2 & Herr2).
  assert (0 <= k2) as Hk2.
  { destruct (Z.le_gt_cases 0 k2) as [|Hlt]; [assumption|]. exfalso.
    unfold Js.scaled in Hrange2. replace (0 <=? k2) with false in Hrange2 by lia.
    cbn [fst snd] in Hrange2.
    assert (1 <= 2 ^ (- k2)) by (pose proof (Z.pow_pos_nonneg 2 (- k2)); lia).
    assert (q1 * (100 * 2 ^ 46) <= q1 * (100 * 2 ^ 46) * 2 ^ (- k2)).
    { rewrite <- (Z.mul_1_r (q1 * (100 * 2 ^ 46))) at 1.
      apply Z.mul_le_mono_nonneg_l; lia. }
    lia. }
  unfold Js.scaled in Hpos2, Hrange2, Herr2.
  replace (0 <=? k2) with true in * by lia. cbn [fst snd] in *.
  rewrite Z.mul_1_l in *.
  assert (0 < 2 ^ k2) as Hpk2 by (apply Z.pow_pos_nonneg; lia).
  assert (2 ^ k2 <= 2 ^ 54) as HP54.
  { destruct (Z.le_gt_cases (2 ^ k2) (2 ^ 54)) as [|Hgt]; [assumption|]. exfalso. lia. }
  assert (k2 <= 54) as Hk54 by (apply pow2_le_inv; lia).
  (* Math.round *)
  unfold Js.Math_round.
  remember (k2 + (k1 + (- sc + 0 - (- st + 0)) + (- 46 + 0))) as E eqn:EE.
  assert (E = - (J + 46 - k2)) as HE by lia.
  assert (52 <= J) as HJ52 by lia.
  replace (0 <=? E) with false by lia.
  replace (1 - E) with (Z.succ (- E)) by lia.
  rewrite Z.pow_succ_r by lia.
  assert (2 ^ (- E) * 2 ^ k2 = B * 2 ^ 46) as HAP.
  { rewrite EB, <- !Z.pow_add_r by lia. f_equal. lia. }
  assert (0 < 2 ^ (- E)) as HA by (apply Z.pow_pos_nonneg; lia).
  remember (2 ^ (- E)) as A eqn:EA. remember (2 ^ k2) as P2 eqn:EP2.
  apply (nearest_integer C T B q1 q2 P2 A); try assumption; try lia.
Qed.

(** Away from the ties the percentage is the exact quotient rounded half
    up. *)
Lemma percent_exact (c t : nat) :
  (c <= t)%nat -> (0 < t)%nat -> Z.of_nat t < 2 ^ 32 ->
  (200 * Z.of_nat c + Z.of_nat t) mod (2 * Z.of_nat t) <> 0 ->
  ResultsRoute.percent c t
  = (200 * Z.of_nat c + Z.of_nat t) / (2 * Z.of_nat t).
Proof.
  intros Hct Htpos Ht Htie.
  pose proof (percent_nearest c t Hct Htpos Ht) as Hnear.
  pose proof (Z.mod_pos_bound (200 * Z.of_nat c + Z.of_nat t) (2 * Z.of_nat t)
                ltac:(lia)) as Hr.
  pose proof (Z.div_mod (200 * Z.of_nat c + Z.of_nat t) (2 * Z.of_nat t)
                ltac:(lia)) as Hdm.
  apply (Z.div_unique_pos _ _ _
           (200 * Z.of_nat c + Z.of_nat t
            - 2 * Z.of_nat t * ResultsRoute.percent c t)); [|ring].
  remember (ResultsRoute.percent c t) as p.
  remember ((200 * Z.of_nat c + Z.of_nat t) / (2 * Z.of_nat t)) as m.
  remember ((200 * Z.of_nat c + Z.of_nat t) mod (2 * Z.of_nat t)) as r.
  remember (Z.of_nat t) as T. remember (Z.of_nat c) as C.
  assert (2 * T * p <> 200 * C + T - 2 * T) as Hne.
  { intros Heq.
    assert (2 * T * (m - p - 1) + r = 0) as Hz by (rewrite Z.mul_sub_distr_l; lia).
    assert (m - p - 1 = 0) by nia. lia. }
  lia.
Qed.

End Binary64.

(* ===================================================================== *)
(** ** The handlers, step by step *)
(* ===================================================================== *)

Lemma GET_results_invalid_id e id w :
  UuidRegex.test id = false ->
  ResultsRoute.GET e id w = (ResultsRoute.invalid_id, w).
Proof. intros H. unfold ResultsRoute.GET. run_handler. rewrite H. done. Qed.

Lemma GET_results_resolved e id w p r :
  UuidRegex.test id = true ->
  resolves w id p r ->
  room_open e r = true ->
  ResultsRoute.GET e id w
  = (ok 200 (ResultsData id (poll_question p) (poll_type p)
               (length (fetched_votes w id))
               (ResultsRoute.calculate p (fetched_votes w id)).2
               (now e) (room_id r) (room_code r) (room_name r)),
     logged w [SelectPollWithRoom id; SelectVotes id]).
Proof.
  intros Hid Hrows (t & Hexp & Hnow)%room_open_true.
  unfold ResultsRoute.GET. run_handler.
  rewrite Hid. cbn. rewrite Hrows. cbn. rewrite Hexp.
  replace (t <? now e) with false by lia. cbn.
  fold (fetched_votes w id).
  destruct (ResultsRoute.calculate p (fetched_votes w id)) as [total res] eqn:E.
  pose proof (proj1 (calculate_spec p (fetched_votes w id))) as Ht.
  rewrite E in Ht. cbn in Ht. subst total. cbn.
  unfold logged. rewrite <- app_assoc. done.
Qed.

(** The response of the results handler depends on the database only. *)
Lemma GET_results_response_db e id w1 w2 :
  db w1 = db w2 -> (ResultsRoute.GET e id w1).1 = (ResultsRoute.GET e id w2).1.
Proof.
  intros Hdb. unfold ResultsRoute.GET. run_handler.
  destruct (UuidRegex.test id); cbn; [|done]. rewrite Hdb.
  destruct (Supabase.single _) as [[p r]|code]; cbn.
  2: { destruct (String.eqb code _); done. }
  destruct (room_expires_at r) as [t|]; cbn; [|done].
  destruct (t <? now e); cbn; [done|].
  destruct (ResultsRoute.calculate _ _). done.
Qed.

Lemma POST_invalid_id e request choice w :
  UuidRegex.test (VoteRoute.params_id request) = false ->
  VoteRoute.body request = Some choice ->
  VoteRoute.POST e request w = (VoteRoute.invalid_id, w).
Proof.
  intros Hid Hbody. unfold VoteRoute.POST. run_handler.
  rewrite Hbody, Hid. done.
Qed.

(** A call either leaves the database as it was and does not answer 201,
    or has inserted exactly one row that the constraints admitted. *)
Lemma POST_effect e request w :
  (db (VoteRoute.POST e request w).2 = db w
   /\ status (VoteRoute.POST e request w).1 <> 201)
  \/ (exists c,
        let v := inserted_vote e (VoteRoute.params_id request)
                   (session_of e request) c in
        Supabase.vote_insertable (db w) v = Supabase.Data v
        /\ db (VoteRoute.POST e request w).2 = with_vote (db w) v).
Proof.
  unfold VoteRoute.POST, VoteRoute.vote_on. run_handler.
  destruct (VoteRoute.body request) as [choice|]; [|left; done].
  destruct (UuidRegex.test _); cbn; [|left; done].
  destruct (Js.truthy choice); cbn; [|left; done].
  destruct (Js.is_string choice); cbn; [|left; done].
  destruct (Supabase.single (Supabase.poll_rows _ _)) as [[p r]|code]; cbn.
  2: { destruct (String.eqb code _); left; done. }
  destruct (poll_is_active p); cbn; [|left; done].
  destruct (room_expires_at r) as [t|]; cbn; [|left; done].
  destruct (t <? now e); cbn; [left; done|].
  destruct (Js.includes _ _); cbn; [|left; done].
  destruct (Supabase.single _) as [x|code]; cbn; [left; done|].
  destruct (String.eqb code _); cbn; [|left; done].
  fold (session_of e request).
  fold (inserted_vote e (VoteRoute.params_id request) (session_of e request)
          (VoteRoute.as_string choice)).
  destruct (Supabase.vote_insertable _ _) as [v|code'] eqn:Hins; cbn; [|left; done].
  right. exists (VoteRoute.as_string choice). cbn zeta.
  assert (v = inserted_vote e (VoteRoute.params_id request) (session_of e request)
                (VoteRoute.as_string choice)) as ->.
  { unfold Supabase.vote_insertable in Hins.
    repeat case_bool_decide; congruence. }
  split; [done|].
  unfold SessionManager.createSession. cbn.
  destruct (kv_status (kv w)); done.
Qed.

(** The uniqueness constraint of the ledger is an invariant of [POST]. *)
Lemma POST_preserves_ledger_unique e request w :
  ledger_unique (db w) -> ledger_unique (db (VoteRoute.POST e request w).2).
Proof.
  intros Hu. destruct (POST_effect e request w) as [[-> _]|(c & Hins & ->)]; [done|].
  by apply with_vote_unique.
Qed.

Lemma POST_duplicate_kept_out e request w v :
  v ∈ votes (db w) ->
  Supabase.vote_matches (VoteRoute.params_id request) (session_of e request) v = true ->
  db (VoteRoute.POST e request w).2 = db w
  /\ status (VoteRoute.POST e request w).1 <> 201.
Proof.
  intros Hin Hm.
  destruct (POST_effect e request w) as [H|(c & Hins & _)]; [done|].
  exfalso. pose proof (insertable_no_match _ _ Hins v Hin) as Hno.
  cbn in Hno. rewrite vote_matches_lower in Hno. congruence.
Qed.

Lemma POST_resolved e request w c p r :
  VoteRoute.body request = Some (Js.Str c) -> c <> "" ->
  UuidRegex.test (VoteRoute.params_id request) = true ->
  resolves w (VoteRoute.params_id request) p r ->
  VoteRoute.POST e request w
  = try_catch (VoteRoute.vote_on e (VoteRoute.params_id request)
                 (session_of e request) c p r)
      VoteRoute.internal_error
      (logged w [SelectPollWithRoom (VoteRoute.params_id request)]).
Proof.
  intros Hbody Hc Hid Hrows. unfold VoteRoute.POST. run_handler.
  rewrite Hbody, Hid. cbn.
  apply String.eqb_neq in Hc. rewrite Hc. cbn. rewrite Hrows. cbn. done.
Qed.

Lemma vote_on_inactive e id sid c p r w :
  poll_is_active p = false ->
  VoteRoute.vote_on e id sid c p r w = (Return VoteRoute.poll_inactive, w).
Proof. intros H. run_vote_on. rewrite H. done. Qed.

Lemma vote_on_expired e id sid c p r w :
  poll_is_active p = true -> room_open e r = false ->
  VoteRoute.vote_on e id sid c p r w = (Return VoteRoute.room_expired, w).
Proof.
  intros H Hexp. run_vote_on. rewrite H. cbn. unfold room_open in Hexp.
  destruct (room_expires_at r) as [t|]; cbn; [|done].
  replace (t <? now e) with true by lia. done.
Qed.


Lemma vote_on_duplicate e id sid c p r w v :
  poll_is_active p = true -> room_open e r = true ->
  c ∈ VoteRoute.validChoices p ->
  filter (fun v0 => Supabase.vote_matches id sid v0 = true) (votes (db w)) = [v] ->
  VoteRoute.vote_on e id sid c p r w
  = (Return VoteRoute.already_voted, logged w [SelectVoteId id sid]).
Proof.
  intros H (t & Hexp & Hnow)%room_open_true Hc Hv. run_vote_on. rewrite H, Hexp. cbn.
  replace (t <? now e) with false by lia. cbn.
  apply includes_true in Hc. rewrite Hc. cbn. rewrite Hv. done.
Qed.

Lemma vote_on_first_vote e id sid c p r w :
  poll_is_active p = true -> room_open e r = true ->
  c ∈ VoteRoute.validChoices p ->
  filter (fun v0 => Supabase.vote_matches id sid v0 = true) (votes (db w)) = [] ->
  Supabase.vote_insertable (db w) (inserted_vote e id sid c)
    = Supabase.Data (inserted_vote e id sid c) ->
  VoteRoute.vote_on e id sid c p r w
  = bind (SessionManager.createSession e sid (room_code r) participant)
      (fun _ => pure (vote_created (inserted_vote e id sid c)))
      {| db := with_vote (db w) (inserted_vote e id sid c); kv := kv w;
         db_calls := db_calls w ++ [SelectVoteId id sid; InsertVote id sid c] |}.
Proof.
  intros H (t & Hexp & Hnow)%room_open_true Hc Hv Hins.
  run_vote_on. rewrite H, Hexp. cbn.
  replace (t <? now e) with false by lia. cbn.
  apply includes_true in Hc. rewrite Hc. cbn. rewrite Hv. cbn.
  fold (inserted_vote e id sid c). rewrite Hins. cbn.
  rewrite <- app_assoc. done.
Qed.


(** A first vote is answered 201 when the session store is available or
    not configured at all. *)
Lemma first_vote_created e request w c p r :
  VoteRoute.body request = Some (Js.Str c) -> c <> "" ->
  UuidRegex.test (VoteRoute.params_id request) = true ->
  resolves w (VoteRoute.params_id request) p r ->
  poll_is_active p = true -> room_open e r = true ->
  c ∈ VoteRoute.validChoices p ->
  filter (fun v0 => Supabase.vote_matches (VoteRoute.params_id request)
                      (session_of e request) v0 = true) (votes (db w)) = [] ->
  Supabase.vote_insertable (db w)
    (inserted_vote e (VoteRoute.params_id request) (session_of e request) c)
  = Supabase.Data
      (inserted_vote e (VoteRoute.params_id request) (session_of e request) c) ->
  kv_status (kv w) <> KvUnreachable ->
  (VoteRoute.POST e request w).1
  = vote_created
      (inserted_vote e (VoteRoute.params_id request) (session_of e request) c).
Proof.
  intros Hbody Hc Hid Hrows Hact Hopen Hvalid Hfilter Hins Hkv.
  rewrite (POST_resolved e request w c p r) by done.
  unfold try_catch.
  rewrite (vote_on_first_vote e _ _ c p r) by done.
  unfold bind, SessionManager.createSession. cbn.
  destruct (kv_status (kv w)); done.
Qed.

(** With the session store unreachable, a first vote is inserted and the
    call then fails. *)
Lemma first_vote_with_store_unreachable e request w c p r :
  VoteRoute.body request = Some (Js.Str c) -> c <> "" ->
  UuidRegex.test (VoteRoute.params_id request) = true ->
  resolves w (VoteRoute.params_id request) p r ->
  poll_is_active p = true -> room_open e r = true ->
  c ∈ VoteRoute.validChoices p ->
  (forall v, v ∈ votes (db w) -> uuid_eqb (vote_id v) (generated_id e) = false) ->
  (forall v, v ∈ votes (db w) ->
     Supabase.vote_matches (VoteRoute.params_id request) (session_of e request) v
     = false) ->
  kv_status (kv w) = KvUnreachable ->
  (VoteRoute.POST e request w).1 = VoteRoute.internal_error
  /\ inserted_vote e (VoteRoute.params_id request) (session_of e request) c
     ∈ votes (db (VoteRoute.POST e request w).2).
Proof.
  intros Hbody Hc Hid Hrows Hact Hopen Hvalid Hfresh Hnone Hkv.
  rewrite (POST_resolved e request w c p r) by done.
  assert (filter (fun v0 => Supabase.vote_matches (VoteRoute.params_id request)
                              (session_of e request) v0 = true) (votes (db w)) = [])
    as Hfilter.
  { apply filter_none. intros v Hin. rewrite (Hnone v Hin). done. }
  assert (Supabase.vote_insertable (db w)
            (inserted_vote e (VoteRoute.params_id request) (session_of e request) c)
          = Supabase.Data
              (inserted_vote e (VoteRoute.params_id request) (session_of e request) c))
    as Hins.
  { unfold Supabase.vote_insertable. cbn.
    rewrite bool_decide_eq_true_2.
    2: { apply Exists_exists. exists p.
         destruct (resolves_poll _ _ _ _ Hrows) as [Hin Hp].
         split; [exact Hin |].
         cbn. rewrite uuid_eqb_lower_r. exact Hp. }
    rewrite bool_decide_eq_false_2; [done|].
    intros (v & Hin & [Hm|Hm])%Exists_exists.
    - rewrite vote_matches_lower, (Hnone v Hin) in Hm. done.
    - rewrite (Hfresh v Hin) in Hm. done. }
  unfold try_catch.
  rewrite (vote_on_first_vote e _ _ c p r) by done.
  unfold bind, SessionManager.createSession. cbn. rewrite Hkv. cbn.
  split; [done|]. apply elem_of_app. right. apply list_elem_of_here.
Qed.

(* ===================================================================== *)
(** ** Properties of the specification *)
(* ===================================================================== *)

(** The scenario of the specification: session A votes "yes" (201),
    votes "no" again (409), session B votes "no" (201), and the results
    show two votes, one for each choice, at 50 percent. *)
Example scenario :
  let empty := Example.world (Example.yes_no true) Example.open_room []
                 KvAvailable in
  let first := VoteRoute.POST Example.env
                 (Example.vote Example.poll_uuid "yes" "A") empty in
  let second := VoteRoute.POST Example.later
                  (Example.vote Example.poll_uuid "no" "A") first.2 in
  let third := VoteRoute.POST Example.later
                 (Example.vote Example.poll_uuid "no" "B") second.2 in
  let results := ResultsRoute.GET Example.later Example.poll_uuid third.2 in
  status first.1 = 201 /\ status second.1 = 409 /\ status third.1 = 201
  /\ exists r,
       results_of results.1 = Some (2%nat, r)
       /\ r !! "yes" = Some {| label := "Yes"; count := 1; percentage := 50 |}
       /\ r !! "no" = Some {| label := "No"; count := 1; percentage := 50 |}.
Proof.
  cbn zeta. repeat split; try (vm_compute; reflexivity).
  eexists. split; [vm_compute; reflexivity|].
  split; vm_compute; reflexivity.
Qed.

(** [Math.round((count / total) * 100)] is computed in binary64:
    23 of 40 is 57.49999999999999 and rounds to 57, where the exact
    quotient 57.5 would round to 58; 1 of 8 is exactly 12.5 and rounds
    to 13. *)
Example percent_values :
  ResultsRoute.percent 1 2 = 50 /\ ResultsRoute.percent 1 3 = 33
  /\ ResultsRoute.percent 2 3 = 67 /\ ResultsRoute.percent 1 8 = 13
  /\ ResultsRoute.percent 23 40 = 57 /\ ResultsRoute.percent 200 201 = 100.
Proof. repeat split; vm_compute; reflexivity. Qed.

Lemma single_row_ledger_unique d v : votes d = [v] -> ledger_unique d.
Proof.
  intros H pid sid. rewrite H, filter_cons, filter_nil.
  case_decide; cbn; lia.
Qed.

(** C1, as stated, fails on the code.  Session 1 has voted "yes" on the
    binary poll.  Its second call for the same poll, this time with the
    choice "maybe", is rejected as an invalid choice (400), not as a
    duplicate vote (409): the choice is validated before the ledger is
    consulted. *)
Lemma second_call_with_illegal_choice_is_not_409 :
  (exists v,
     v ∈ votes (db Example.voted)
     /\ Supabase.vote_matches Example.poll_uuid "session-1" v = true)
  /\ (VoteRoute.POST Example.env
        (Example.vote Example.poll_uuid "maybe" "session-1") Example.voted).1
     = VoteRoute.invalid_choice ["yes"; "no"]
  /\ status (VoteRoute.POST Example.env
               (Example.vote Example.poll_uuid "maybe" "session-1")
               Example.voted).1 <> 409.
Proof.
  split.
  - exists (Example.ballot "yes" 1). split; [apply list_elem_of_here|].
    vm_compute. reflexivity.
  - split; [vm_compute; reflexivity|]. vm_compute. discriminate.
Qed.

(** C1 (amended).  At most one vote exists per (poll, session) pair, and
    a call never breaks this.  If a vote for (pollId, sessionId) has
    already been recorded, a second call for the same pair, whatever its
    choice, is not answered with 201 and leaves the ledger unchanged, so
    the results are the same as before it.  The second call is rejected
    as a duplicate vote (409, "Already voted") whenever it passes the
    checks that come first: a well-formed identifier, a non-empty string
    choice, a poll that is found and active, a room that has not
    expired, and a choice of the derived legal set. *)
Theorem duplicate_vote_leaves_ledger e request w v :
  ledger_unique (db w) ->
  v ∈ votes (db w) ->
  Supabase.vote_matches (VoteRoute.params_id request) (session_of e request) v
  = true ->
  db (VoteRoute.POST e request w).2 = db w
  /\ ledger_unique (db (VoteRoute.POST e request w).2)
  /\ status (VoteRoute.POST e request w).1 <> 201
  /\ (forall e' id,
        (ResultsRoute.GET e' id (VoteRoute.POST e request w).2).1
        = (ResultsRoute.GET e' id w).1)
  /\ (forall c p r,
        VoteRoute.body request = Some (Js.Str c) -> c <> "" ->
        UuidRegex.test (VoteRoute.params_id request) = true ->
        resolves w (VoteRoute.params_id request) p r ->
        poll_is_active p = true -> room_open e r = true ->
        c ∈ VoteRoute.validChoices p ->
        (VoteRoute.POST e request w).1 = VoteRoute.already_voted).
Proof.
  intros Hu Hin Hm.
  destruct (POST_duplicate_kept_out e request w v Hin Hm) as [Hdb Hst].
  split; [done|]. split; [by rewrite Hdb|]. split; [done|]. split.
  - intros e' id. by apply GET_results_response_db.
  - intros c p r Hbody Hc Hid Hrows Hact Hopen Hvalid.
    rewrite (POST_resolved e request w c p r) by done.
    unfold try_catch.
    rewrite (vote_on_duplicate e _ _ c p r _ v); [done..|].
    by apply single_matches_unique.
Qed.

Lemma duplicate_vote_leaves_ledger_witness :
  (VoteRoute.POST Example.env
     (Example.vote Example.poll_uuid "no" "session-1") Example.voted).1
  = VoteRoute.already_voted
  /\ db (VoteRoute.POST Example.env
           (Example.vote Example.poll_uuid "no" "session-1") Example.voted).2
     = db Example.voted.
Proof.
  destruct (duplicate_vote_leaves_ledger Example.env
              (Example.vote Example.poll_uuid "no" "session-1")
              Example.voted (Example.ballot "yes" 1))
    as (Hdb & _ & _ & _ & H409).
  - apply (single_row_ledger_unique _ (Example.ballot "yes" 1)). reflexivity.
  - apply list_elem_of_here.
  - vm_compute. reflexivity.
  - split; [|exact Hdb].
    apply (H409 "no" (Example.yes_no true) Example.open_room).
    + reflexivity.
    + discriminate.
    + vm_compute. reflexivity.
    + vm_compute. reflexivity.
    + reflexivity.
    + vm_compute. reflexivity.
    + apply list_elem_of_further, list_elem_of_here.
Defined.






(** C4, as stated, fails on the code.  The poll is inactive and its room
    expired at 500, before the clock's 1000.  The call is rejected as
    "Poll inactive", not as "Room expired": the handler checks the
    active flag first. *)
Lemma inactive_poll_in_expired_room_is_inactive :
  room_open Example.env Example.expired_room = false
  /\ (VoteRoute.POST Example.env
        (Example.vote Example.poll_uuid "yes" "session-1")
        (Example.world (Example.yes_no false) Example.expired_room []
           KvAvailable)).1
     = failure 410 "Poll inactive" "This poll is no longer accepting votes".
Proof. split; vm_compute; reflexivity. Qed.

(** C4 (amended).  The failure checks of a vote are evaluated in order
    with short-circuiting, and the active flag is checked before the
    expiration of the room: for every poll whose owning room has a null
    or past expiration, the call is rejected with status 410, as
    "Room expired" when the poll is active and as "Poll inactive" when
    its active flag is false. *)
Theorem inactive_checked_before_expiry e request w c p r :
  VoteRoute.body request = Some (Js.Str c) -> c <> "" ->
  UuidRegex.test (VoteRoute.params_id request) = true ->
  resolves w (VoteRoute.params_id request) p r ->
  room_open e r = false ->
  (VoteRoute.POST e request w).1
  = (if poll_is_active p then VoteRoute.room_expired else VoteRoute.poll_inactive)
  /\ status (VoteRoute.POST e request w).1 = 410.
Proof.
  intros Hbody Hc Hid Hrows Hexp.
  rewrite (POST_resolved e request w c p r) by done. unfold try_catch.
  destruct (poll_is_active p) eqn:Hact.
  - by rewrite vote_on_expired.
  - by rewrite vote_on_inactive.
Qed.

Lemma inactive_checked_before_expiry_witness :
  (VoteRoute.POST Example.env
     (Example.vote Example.poll_uuid "yes" "session-1")
     (Example.world (Example.yes_no true) Example.expired_room [] KvAvailable)).1
  = VoteRoute.room_expired.
Proof.
  destruct (inactive_checked_before_expiry Example.env
              (Example.vote Example.poll_uuid "yes" "session-1")
              (Example.world (Example.yes_no true) Example.expired_room []
                 KvAvailable)
              "yes" (Example.yes_no true) Example.expired_room) as [H _].
  - reflexivity.
  - discriminate.
  - vm_compute. reflexivity.
  - vm_compute. reflexivity.
  - vm_compute. reflexivity.
  - exact H.
Defined.

(** C5 fails on the code.  The session store is configured but its
    requests reject.  A first, valid vote is inserted into the ledger,
    then the rejected [setex] of [createSession] is thrown into the
    handler's [catch]: the call answers 500 "Internal server error"
    although the vote has been recorded. *)
Theorem session_write_failure_fails_vote :
  (VoteRoute.POST Example.env
     (Example.vote Example.poll_uuid "yes" "session-1")
     (Example.world (Example.yes_no true) Example.open_room [] KvUnreachable)).1
  = failure 500 "Internal server error"
      "An unexpected error occurred while processing the vote"
  /\ votes (db (VoteRoute.POST Example.env
                  (Example.vote Example.poll_uuid "yes" "session-1")
                  (Example.world (Example.yes_no true) Example.open_room []
                     KvUnreachable)).2)
     = [inserted_vote Example.env Example.poll_uuid "session-1" "yes"].
Proof. split; vm_compute; reflexivity. Qed.


(** C7.  For every poll identifier that is not in the UUID format, the
    vote handler (given a request whose body parses) and the results
    handler both answer 400 "Invalid poll ID", and the world is the one
    they started in: no storage call is logged, and neither the database
    nor the session store has changed. *)
Theorem malformed_id_rejected_without_storage e request choice w :
  UuidRegex.test (VoteRoute.params_id request) = false ->
  VoteRoute.body request = Some choice ->
  VoteRoute.POST e request w
  = (failure 400 "Invalid poll ID" "Poll ID must be a valid UUID", w)
  /\ ResultsRoute.GET e (VoteRoute.params_id request) w
     = (failure 400 "Invalid poll ID" "Poll ID must be a valid UUID", w).
Proof.
  intros Hid Hbody. split.
  - by apply (POST_invalid_id e request choice).
  - by apply GET_results_invalid_id.
Qed.

Lemma malformed_id_rejected_without_storage_witness :
  db_calls (VoteRoute.POST Example.env
              (Example.vote "not-a-valid-id" "yes" "session-1")
              Example.voted).2 = []
  /\ ResultsRoute.GET Example.env "not-a-valid-id" Example.voted
     = (failure 400 "Invalid poll ID" "Poll ID must be a valid UUID",
        Example.voted).
Proof.
  destruct (malformed_id_rejected_without_storage Example.env
              (Example.vote "not-a-valid-id" "yes" "session-1")
              (Js.Str "yes") Example.voted) as [Hpost Hget].
  - vm_compute. reflexivity.
  - reflexivity.
  - split; [rewrite Hpost; reflexivity | exact Hget].
Defined.





(** C9, as stated, fails on the code.  The room "ABC123" is stored and
    has not expired.  The lowercase form "abc123" of its code is rejected
    as malformed (400): the format is validated before the code is
    normalised, and the validation admits uppercase letters and digits
    only. *)
Lemma lowercase_room_code_is_rejected :
  (exists room,
     room ∈ rooms (db Example.voted)
     /\ room_code room = Js.toUpperCase "abc123"
     /\ room_open Example.env room = true)
  /\ RoomRoute.GET Example.env "abc123" None Example.voted
     = (failure 400 "Invalid room code"
          "Room code must be exactly 6 alphanumeric characters",
        Example.voted).
Proof.
  split.
  - exists Example.open_room. split; [apply list_elem_of_here|].
    split; vm_compute; reflexivity.
  - vm_compute. reflexivity.
Qed.

(** C9 (amended).  Room codes are validated as supplied, before any
    normalisation: a code that is not exactly 6 characters of [A-Z0-9]
    (in particular, every code that contains a lowercase letter) is
    rejected as malformed (400) without a lookup.  For a code that passes
    the validation the normalisation changes nothing, and the room is
    looked up under the code as it was supplied. *)
Theorem room_code_validated_before_normalization e code sid w :
  (Utils.validateRoomCode code = true ->
   Utils.normalizeRoomCode code = code
   /\ db_calls (RoomRoute.GET e code sid w).2
      = (db_calls w ++ [SelectRoom code])%list)
  /\ (Utils.validateRoomCode code = false ->
      RoomRoute.GET e code sid w
      = (failure 400 "Invalid room code"
           "Room code must be exactly 6 alphanumeric characters", w))
  /\ (forall c, c ∈ string_chars code -> Js.is_lower c = true ->
                Utils.validateRoomCode code = false).
Proof.
  split; [|split].
  - intros H. split; [by apply normalize_valid_code | by apply GET_room_valid_lookup].
  - apply GET_room_invalid.
  - apply lowercase_code_invalid.
Qed.

Lemma room_code_validated_before_normalization_witness :
  Utils.normalizeRoomCode "ABC123" = "ABC123"
  /\ db_calls (RoomRoute.GET Example.env "ABC123" None Example.voted).2
     = [SelectRoom "ABC123"].
Proof.
  destruct (room_code_validated_before_normalization Example.env "ABC123" None
              Example.voted) as (Hvalid & _ & _).
  apply Hvalid. vm_compute. reflexivity.
Defined.




(* ===================================================================== *)
(** ** Identifiers and codes as strings *)
(* ===================================================================== *)

Lemma map_string_length f s : String.length (Js.map_string f s) = String.length s.
Proof. induction s as [|c r IH]; cbn; [done | by rewrite IH]. Qed.

Lemma hex_length n s r : UuidRegex.hex n s = Some r -> String.length s = (n + String.length r)%nat.
Proof.
  revert s. induction n as [|n IH]; intros s; cbn.
  - by intros [= ->].
  - destruct s as [|c s]; [done|]. destruct (Js.is_hex c); [|done].
    intros H. cbn. by rewrite (IH s H).
Qed.

Lemma groups_length ls s :
  UuidRegex.groups ls s = true ->
  String.length s = (sum_list ls + (length ls - 1))%nat.
Proof.
  revert s. induction ls as [|n ls IH]; intros s; [done|].
  destruct ls as [|n' ls].
  - cbn. destruct (UuidRegex.hex n s) as [[|]|] eqn:E; try done.
    intros _. apply hex_length in E. cbn in E. lia.
  - cbn [UuidRegex.groups]. destruct (UuidRegex.hex n s) as [[|c r]|] eqn:E; try done.
    destruct (Ascii.eqb_spec c "-") as [->|Hne].
    + intros H. apply IH in H. apply hex_length in E. cbn in E, H |- *. lia.
    + destruct c as [[] [] [] [] [] [] [] []]; done.
Qed.

Lemma upper_char_hex c : Js.is_hex (Js.upper_char c) = Js.is_hex c.
Proof. destruct c as [[] [] [] [] [] [] [] []]; vm_compute; reflexivity. Qed.

Lemma lower_char_hex c : Js.is_hex (Js.lower_char c) = Js.is_hex c.
Proof. destruct c as [[] [] [] [] [] [] [] []]; vm_compute; reflexivity. Qed.

Lemma upper_char_hyphen c : Ascii.eqb (Js.upper_char c) "-" = Ascii.eqb c "-".
Proof. destruct c as [[] [] [] [] [] [] [] []]; vm_compute; reflexivity. Qed.

Lemma lower_char_hyphen c : Ascii.eqb (Js.lower_char c) "-" = Ascii.eqb c "-".
Proof. destruct c as [[] [] [] [] [] [] [] []]; vm_compute; reflexivity. Qed.

Lemma hex_map f n s :
  (forall c, Js.is_hex (f c) = Js.is_hex c) ->
  UuidRegex.hex n (Js.map_string f s) = Js.map_string f <$> UuidRegex.hex n s.
Proof.
  intros Hf. revert s. induction n as [|n IH]; intros s; [done|].
  destruct s as [|c s]; [done|]. cbn. rewrite Hf.
  destruct (Js.is_hex c); [apply IH | done].
Qed.

Lemma match_hyphen (c : ascii) {A} (x y : A) :
  match c with "-"%char => x | _ => y end = if Ascii.eqb c "-" then x else y.
Proof. destruct c as [[] [] [] [] [] [] [] []]; reflexivity. Qed.

Lemma groups_map f ls s :
  (forall c, Js.is_hex (f c) = Js.is_hex c) ->
  (forall c, Ascii.eqb (f c) "-" = Ascii.eqb c "-") ->
  UuidRegex.groups ls (Js.map_string f s) = UuidRegex.groups ls s.
Proof.
  intros Hhex Hhy. revert s. induction ls as [|n ls IH]; intros s; [done|].
  destruct ls as [|n' ls].
  - cbn. rewrite hex_map by done.
    destruct (UuidRegex.hex n s) as [[|]|]; done.
  - cbn [UuidRegex.groups]. rewrite hex_map by done.
    destruct (UuidRegex.hex n s) as [[|c r]|]; try done.
    cbn [fmap option_fmap option_map Js.map_string].
    rewrite !match_hyphen, Hhy. destruct (Ascii.eqb c "-"); [apply IH | done].
Qed.

(** X1.  The format check of a poll identifier does not depend on the
    case of its letters: an identifier passes exactly when its upper-case
    form passes and exactly when its lower-case form passes.  Every
    identifier that passes has exactly 36 characters. *)
Theorem uuid_format_is_case_insensitive id :
  UuidRegex.test (Js.toUpperCase id) = UuidRegex.test id
  /\ UuidRegex.test (Js.toLowerCase id) = UuidRegex.test id
  /\ (UuidRegex.test id = true -> String.length id = 36%nat).
Proof.
  split; [|split].
  - apply groups_map; [apply upper_char_hex | apply upper_char_hyphen].
  - apply groups_map; [apply lower_char_hex | apply lower_char_hyphen].
  - intros H. by apply groups_length in H.
Qed.

Lemma uuid_format_is_case_insensitive_witness :
  String.length Example.poll_uuid = 36%nat.
Proof.
  apply (proj2 (proj2 (uuid_format_is_case_insensitive Example.poll_uuid))).
  vm_compute. reflexivity.
Defined.

Lemma trim_start_no_leading s : no_leading_space (Js.trim_start s).
Proof.
  induction s as [|c r IH]; cbn; [done|].
  destruct (Js.is_space c) eqn:E; [done | cbn; done].
Qed.

Lemma trim_start_id s : no_leading_space s -> Js.trim_start s = s.
Proof. destruct s as [|c r]; cbn; [done|]. by intros ->. Qed.

Lemma trim_end_no_leading s : no_leading_space s -> no_leading_space (Js.trim_end s).
Proof.
  destruct s as [|c r]; cbn; [done|]. intros Hc.
  destruct (Js.trim_end r); [by rewrite Hc | done].
Qed.

Lemma trim_end_cons c r :
  Js.trim_end (String c r)
  = match Js.trim_end r with
    | EmptyString => if Js.is_space c then EmptyString else String c EmptyString
    | r' => String c r'
    end.
Proof. reflexivity. Qed.

Lemma trim_end_idemp s : Js.trim_end (Js.trim_end s) = Js.trim_end s.
Proof.
  induction s as [|c r IH]; [done|]. rewrite trim_end_cons.
  destruct (Js.trim_end r) as [|d t] eqn:E.
  - destruct (Js.is_space c) eqn:Hc; cbn; [done | by rewrite Hc].
  - rewrite trim_end_cons, IH. done.
Qed.

Lemma trim_idemp s : Js.trim (Js.trim s) = Js.trim s.
Proof.
  unfold Js.trim.
  rewrite (trim_start_id (Js.trim_end _))
    by apply trim_end_no_leading, trim_start_no_leading.
  apply trim_end_idemp.
Qed.

Lemma upper_char_space c : Js.is_space (Js.upper_char c) = Js.is_space c.
Proof. destruct c as [[] [] [] [] [] [] [] []]; vm_compute; reflexivity. Qed.

Lemma upper_char_idemp c : Js.upper_char (Js.upper_char c) = Js.upper_char c.
Proof. destruct c as [[] [] [] [] [] [] [] []]; vm_compute; reflexivity. Qed.

Lemma upper_char_not_lower c : Js.is_lower (Js.upper_char c) = false.
Proof. destruct c as [[] [] [] [] [] [] [] []]; vm_compute; reflexivity. Qed.

Lemma upper_char_alnum c : is_alnum c = true -> Js.is_upper_alnum (Js.upper_char c) = true.
Proof. destruct c as [[] [] [] [] [] [] [] []]; vm_compute; try reflexivity; discriminate. Qed.

Lemma toUpperCase_idemp s : Js.toUpperCase (Js.toUpperCase s) = Js.toUpperCase s.
Proof.
  unfold Js.toUpperCase. induction s as [|c r IH]; cbn; [done|].
  by rewrite upper_char_idemp, IH.
Qed.

Lemma trim_start_map f s :
  (forall c, Js.is_space (f c) = Js.is_space c) ->
  Js.trim_start (Js.map_string f s) = Js.map_string f (Js.trim_start s).
Proof.
  intros Hf. induction s as [|c r IH]; cbn; [done|].
  rewrite Hf. destruct (Js.is_space c); [apply IH | done].
Qed.

Lemma trim_end_map f s :
  (forall c, Js.is_space (f c) = Js.is_space c) ->
  Js.trim_end (Js.map_string f s) = Js.map_string f (Js.trim_end s).
Proof.
  intros Hf. induction s as [|c r IH]; cbn; [done|].
  rewrite IH, Hf. destruct (Js.trim_end r); cbn; [|done].
  destruct (Js.is_space c); done.
Qed.

Lemma trim_map f s :
  (forall c, Js.is_space (f c) = Js.is_space c) ->
  Js.trim (Js.map_string f s) = Js.map_string f (Js.trim s).
Proof. intros Hf. unfold Js.trim. by rewrite trim_start_map, trim_end_map. Qed.

Lemma string_chars_map f s : string_chars (Js.map_string f s) = f <$> string_chars s.
Proof. induction s as [|c r IH]; cbn; [done | by rewrite IH]. Qed.

Lemma forall_string_spec p s :
  Js.forall_string p s = true <-> forall c, c ∈ string_chars s -> p c = true.
Proof.
  induction s as [|c r IH]; cbn.
  - split; [intros _ c Hc; by apply elem_of_nil in Hc | done].
  - rewrite andb_true_iff, IH. split.
    + intros [Hc Hr] d Hd. apply elem_of_cons in Hd as [->|Hd]; [done | by apply Hr].
    + intros H. split; [apply H, list_elem_of_here|].
      intros d Hd. by apply H, list_elem_of_further.
Qed.

Lemma normalizeRoomCode_eq code :
  Utils.normalizeRoomCode code = Js.toUpperCase (Js.trim code).
Proof. apply trim_map, upper_char_space. Qed.

Lemma toUpperCase_trim s : Js.trim (Js.toUpperCase s) = Js.toUpperCase (Js.trim s).
Proof. apply trim_map, upper_char_space. Qed.

(** X2.  [normalizeRoomCode] is idempotent: a normalised code is left
    as it is by a second normalisation.  A normalised code has no white
    space at either end and holds no lower-case letter. *)
Theorem normalizeRoomCode_idempotent code :
  Utils.normalizeRoomCode (Utils.normalizeRoomCode code)
  = Utils.normalizeRoomCode code
  /\ trimmed (Utils.normalizeRoomCode code)
  /\ Js.forall_string (fun c => negb (Js.is_lower c)) (Utils.normalizeRoomCode code)
     = true.
Proof.
  unfold trimmed. rewrite !normalizeRoomCode_eq.
  rewrite !toUpperCase_trim, !trim_idemp, toUpperCase_idemp.
  split; [done|]. split; [done|].
  apply forall_string_spec. intros c. unfold Js.toUpperCase.
  rewrite string_chars_map. intros (d & -> & _)%list_elem_of_fmap.
  by rewrite upper_char_not_lower.
Qed.

(** X3.  Six letters and digits in any case are normalised to a code
    that [validateRoomCode] accepts, and the normalisation only changes
    the case. *)
Theorem alphanumeric_code_normalizes_to_valid code :
  String.length code = 6%nat ->
  Js.forall_string is_alnum code = true ->
  Utils.validateRoomCode (Utils.normalizeRoomCode code) = true
  /\ Utils.normalizeRoomCode code = Js.toUpperCase code.
Proof.
  intros Hlen Hall.
  assert (Js.forall_string Js.is_upper_alnum (Js.toUpperCase code) = true) as Hup.
  { apply forall_string_spec. intros c. unfold Js.toUpperCase.
    rewrite string_chars_map. intros (d & -> & Hd)%list_elem_of_fmap.
    apply upper_char_alnum. by apply (proj1 (forall_string_spec _ _) Hall). }
  assert (Utils.normalizeRoomCode code = Js.toUpperCase code) as Hn.
  { unfold Utils.normalizeRoomCode, Js.trim.
    by rewrite trim_start_fixed, trim_end_fixed. }
  split; [|done]. rewrite Hn.
  unfold Utils.validateRoomCode, Utils.upper_alnum_regex_test.
  unfold Js.toUpperCase at 1. rewrite map_string_length, Hlen, Hup.
  destruct code; [done|]. done.
Qed.

Lemma alphanumeric_code_normalizes_to_valid_witness :
  Utils.validateRoomCode (Utils.normalizeRoomCode "abc123") = true
  /\ Utils.normalizeRoomCode "abc123" = "ABC123".
Proof.
  apply (alphanumeric_code_normalizes_to_valid "abc123"); reflexivity.
Defined.

(* ===================================================================== *)
(** ** Random characters *)
(* ===================================================================== *)

Lemma unit_interval_below_one m a :
  0 <= m < 2 ^ 53 -> 0 <= a -> m < 2 ^ a ->
  m * 2 ^ 53 <= (2 ^ 53 - 1) * 2 ^ a.
Proof.
  intros Hm Ha Hlt.
  destruct (Z_le_gt_dec a 53) as [Hle|Hgt].
  - assert (2 ^ a <= 2 ^ 53) by (apply Z.pow_le_mono_r; lia).
    remember (2 ^ a) as P. remember (2 ^ 53) as Q. nia.
  - assert (2 ^ 53 <= 2 ^ a) by (apply Z.pow_le_mono_r; lia).
    remember (2 ^ a) as P. remember (2 ^ 53) as Q. nia.
Qed.

Lemma rounded_below q D N Y :
  0 < D -> 2 ^ 52 * D <= N ->
  Z.abs (2 * q * D - 2 * N) <= D ->
  N < Y -> N * 2 ^ 53 <= (2 ^ 53 - 1) * Y ->
  q * D < Y.
Proof.
  intros HD HN Herr HNY Hgap.
  destruct (Z_lt_ge_dec (q * D) Y) as [|Hge]; [done|exfalso].
  remember (q * D) as qD eqn:EqD.
  replace (2 * q * D) with (2 * qD) in Herr by (subst qD; ring).
  change (2 ^ 52) with 4503599627370496 in HN.
  change (2 ^ 53) with 9007199254740992 in Hgap.
  lia.
Qed.

Lemma random_index_range (r : Js.f64) (n : nat) :
  Js.unit_interval r -> (0 < n)%nat -> Z.of_nat n < 2 ^ 53 ->
  0 <= Js.Math_floor (Js.fmul r (Js.of_nat n)) < Z.of_nat n.
Proof.
  destruct r as [m e]. unfold Js.unit_interval. cbn [fst snd].
  intros [Hm Hme] Hn0 Hn53.
  assert (e <= 0) as He.
  { destruct (Z_le_gt_dec e 0) as [|Hpos]; [done|].
    rewrite Z.pow_neg_r in Hme by lia. lia. }
  unfold Js.of_nat.
  destruct (round53_exact (Z.of_nat n)) as (s & Hs & Heq & HB); [lia|].
  rewrite Heq. unfold Js.fmul. cbn [fst snd].
  destruct (Z.eq_dec m 0) as [->|Hm0].
  { rewrite Z.mul_0_l.
    change (Js.Math_floor (Js.round53 0 1 (e + (- s + 0)))) with 0. lia. }
  set (B := Z.of_nat n * 2 ^ s) in *.
  destruct (round53_spec (m * B) 1 (e + (- s + 0))) as (q & k & Hr & HD & HN & Herr);
    [nia | lia |].
  rewrite Hr. unfold Js.Math_floor.
  set (a := - e) in *.
  assert (0 <= a) as Ha by (unfold a; lia).
  pose proof (unit_interval_below_one m a Hm Ha Hme) as Hgap.
  assert (0 < 2 ^ a) as HPa by (apply Z.pow_pos_nonneg; lia).
  assert (0 < 2 ^ s) as HPs by (apply Z.pow_pos_nonneg; lia).
  set (Y := B * 2 ^ a).
  assert (m * B < Y) as HmY by (unfold Y; nia).
  assert (m * B * 2 ^ 53 <= (2 ^ 53 - 1) * Y) as HgapY.
  { unfold Y. remember (2 ^ a) as Pa. remember (2 ^ 53) as Q. nia. }
  unfold Js.scaled in HD, HN, Herr.
  destruct (0 <=? k) eqn:Hk; cbn [fst snd] in HD, HN, Herr.
  - (* 0 <= k *)
    apply Z.leb_le in Hk.
    assert (q * (1 * 2 ^ k) < Y) as Hlt.
    { apply (rounded_below q (1 * 2 ^ k) (m * B) Y); [done | apply HN | done..]. }
    assert (0 <= q) as Hq.
    { remember (2 ^ k) as D. remember (2 ^ 52) as Q. nia. }
    destruct (0 <=? k + (e + (- s + 0))) eqn:HE.
    + apply Z.leb_le in HE.
      assert (0 < 2 ^ (k + (e + (- s + 0)))) by (apply Z.pow_pos_nonneg; lia).
      split; [nia|].
      assert (2 ^ k = 2 ^ (k + (e + (- s + 0))) * (2 ^ s * 2 ^ a)) as Hpow.
      { rewrite <- !Z.pow_add_r by lia. f_equal. unfold a. lia. }
      unfold Y, B in Hlt. rewrite Hpow in Hlt.
      remember (2 ^ (k + (e + (- s + 0)))) as PE.
      remember (2 ^ s) as Ps. remember (2 ^ a) as Pa.
      assert (0 < Ps * Pa) by nia.
      apply (Z.mul_lt_mono_pos_r (Ps * Pa)); [done|]. nia.
    + apply Z.leb_gt in HE.
      assert (0 < 2 ^ (- (k + (e + (- s + 0))))) by (apply Z.pow_pos_nonneg; lia).
      split; [apply Z.div_pos; lia|].
      apply Z.div_lt_upper_bound; [done|].
      assert (2 ^ (- (k + (e + (- s + 0)))) * 2 ^ k = 2 ^ s * 2 ^ a) as Hpow.
      { rewrite <- !Z.pow_add_r by lia. f_equal. unfold a. lia. }
      unfold Y, B in Hlt.
      assert (0 < 2 ^ k) as HPk by (apply Z.pow_pos_nonneg; lia).
      remember (2 ^ (- (k + (e + (- s + 0))))) as PE.
      remember (2 ^ s) as Ps. remember (2 ^ a) as Pa. remember (2 ^ k) as Pk.
      apply (Z.mul_lt_mono_pos_r Pk); [done|].
      replace (PE * Z.of_nat n * Pk) with (Z.of_nat n * (PE * Pk)) by ring.
      rewrite Hpow. nia.
  - (* k < 0 *)
    apply Z.leb_gt in Hk.
    assert (0 < 2 ^ (- k)) as HPk by (apply Z.pow_pos_nonneg; lia).
    assert (q * 1 < Y * 2 ^ (- k)) as Hlt.
    { apply (rounded_below q 1 (m * B * 2 ^ (- k)) (Y * 2 ^ (- k)));
        [done | apply HN | done | |].
      - remember (2 ^ (- k)) as Pk. nia.
      - remember (2 ^ (- k)) as Pk. remember (2 ^ 53) as Q. nia. }
    assert (0 <= q) as Hq.
    { remember (2 ^ (- k)) as Pk. remember (2 ^ 52) as Q. nia. }
    assert (k + (e + (- s + 0)) < 0) as HE by lia.
    replace (0 <=? k + (e + (- s + 0))) with false by (symmetry; apply Z.leb_gt; lia).
    assert (0 < 2 ^ (- (k + (e + (- s + 0))))) by (apply Z.pow_pos_nonneg; lia).
    split; [apply Z.div_pos; lia|].
    apply Z.div_lt_upper_bound; [done|].
    assert (2 ^ (- (k + (e + (- s + 0)))) = 2 ^ s * 2 ^ a * 2 ^ (- k)) as Hpow.
    { rewrite <- !Z.pow_add_r by lia. f_equal. unfold a. lia. }
    rewrite Hpow. unfold Y, B in Hlt.
    remember (2 ^ s) as Ps. remember (2 ^ a) as Pa. remember (2 ^ (- k)) as Pk.
    nia.
Qed.

Lemma append_cons x (a b : string) : String x a +:+ b = String x (a +:+ b).
Proof. reflexivity. Qed.

Lemma append_assoc (a b c : string) : (a +:+ b) +:+ c = a +:+ (b +:+ c).
Proof. induction a as [|x a IH]; [done | by rewrite !append_cons, IH]. Qed.

Lemma append_length (a b : string) :
  String.length (a +:+ b) = (String.length a + String.length b)%nat.
Proof. induction a as [|x a IH]; [done | rewrite append_cons; cbn; by rewrite IH]. Qed.

Lemma string_chars_append (a b : string) :
  string_chars (a +:+ b) = (string_chars a ++ string_chars b)%list.
Proof. induction a as [|x a IH]; [done | rewrite append_cons; cbn; by rewrite IH]. Qed.

Lemma string_chars_length s : length (string_chars s) = String.length s.
Proof. induction s as [|c r IH]; cbn; [done | by rewrite IH]. Qed.

Lemma get_in_range (i : nat) (s : string) :
  (i < String.length s)%nat ->
  exists c, String.get i s = Some c /\ c ∈ string_chars s.
Proof.
  revert i. induction s as [|c r IH]; intros i; cbn; [lia|].
  destruct i as [|i]; intros Hi.
  - exists c. split; [done | apply list_elem_of_here].
  - destruct (IH i) as (d & Hd & Hin); [lia|].
    exists d. split; [done | by apply list_elem_of_further].
Qed.

Lemma random_char_spec chars r :
  Js.unit_interval r ->
  (0 < String.length chars)%nat -> Z.of_nat (String.length chars) < 2 ^ 53 ->
  exists c, Utils.random_char chars r = String c "" /\ c ∈ string_chars chars.
Proof.
  intros Hr H0 H53. unfold Utils.random_char, Js.charAt.
  pose proof (random_index_range r (String.length chars) Hr H0 H53) as [Hlo Hhi].
  replace (_ <? 0) with false by (symmetry; apply Z.ltb_ge; done).
  destruct (get_in_range
              (Z.to_nat (Js.Math_floor (Js.fmul r (Js.of_nat (String.length chars)))))
              chars) as (c & -> & Hc); [lia|].
  by exists c.
Qed.

Lemma random_chars_spec chars random first n result :
  (forall k, Js.unit_interval (random k)) ->
  (0 < String.length chars)%nat -> Z.of_nat (String.length chars) < 2 ^ 53 ->
  exists tail,
    Utils.random_chars chars random first n result = result +:+ tail
    /\ String.length tail = n
    /\ forall c, c ∈ string_chars tail -> c ∈ string_chars chars.
Proof.
  intros Hr H0 H53. revert first result.
  induction n as [|n IH]; intros first result; cbn [Utils.random_chars].
  - exists "". split; [|split; [done|]].
    + clear. induction result as [|c r IH]; [done | by rewrite append_cons, <- IH].
    + intros c Hc. by apply elem_of_nil in Hc.
  - destruct (random_char_spec chars (random first) (Hr first) H0 H53)
      as (c & -> & Hc).
    destruct (IH (S first) (result +:+ String c "")) as (tail & -> & Hlen & Hall).
    exists (String c tail). split; [by rewrite append_assoc|].
    split; [cbn; by rewrite Hlen|].
    intros d Hd. cbn in Hd. apply elem_of_cons in Hd as [->|Hd]; [done | by apply Hall].
Qed.

Lemma generateRoomCode_valid random first :
  (forall k, Js.unit_interval (random k)) ->
  Utils.validateRoomCode (Utils.generateRoomCode random first) = true.
Proof.
  intros Hr. unfold Utils.generateRoomCode.
  destruct (random_chars_spec "ABCDEFGHIJKLMNOPQRSTUVWXYZ0123456789"
              random first 6 "" Hr) as (tail & -> & Hlen & Hall);
    [cbn; lia | cbn; lia |].
  change ("" +:+ tail) with tail.
  unfold Utils.validateRoomCode, Utils.upper_alnum_regex_test.
  rewrite Hlen. cbn [Nat.eqb andb].
  apply andb_true_iff. split.
  - destruct tail; [done | done].
  - apply forall_string_spec. intros c Hc. apply Hall in Hc.
    revert c Hc. apply forall_string_spec. vm_compute. reflexivity.
Qed.

(** X4.  Whatever [Math.random()] returns, [generateRoomCode] yields a
    code that [validateRoomCode] accepts and that [normalizeRoomCode]
    leaves unchanged: the index [Math.floor(Math.random() * 36)],
    computed in binary64, never leaves the alphabet. *)
Theorem generated_room_code_is_valid random first :
  (forall k, Js.unit_interval (random k)) ->
  Utils.validateRoomCode (Utils.generateRoomCode random first) = true
  /\ Utils.normalizeRoomCode (Utils.generateRoomCode random first)
     = Utils.generateRoomCode random first.
Proof.
  intros Hr. split; [by apply generateRoomCode_valid|].
  by apply normalize_valid_code, generateRoomCode_valid.
Qed.

Lemma generated_room_code_is_valid_witness :
  Utils.generateRoomCode (fun _ => (2 ^ 52, - 53)) 0 = "SSSSSS"
  /\ Utils.validateRoomCode "SSSSSS" = true.
Proof.
  assert (Utils.generateRoomCode (fun _ => (2 ^ 52, - 53)) 0 = "SSSSSS") as E
    by (vm_compute; reflexivity).
  split; [exact E|]. rewrite <- E.
  apply (generated_room_code_is_valid (fun _ => (2 ^ 52, - 53)) 0).
  intros _. unfold Js.unit_interval. cbn. lia.
Defined.

(** X5.  [generateSessionId] yields "sess_" followed by exactly 32
    letters and digits.  [getSessionId] never yields the empty string:
    it returns the [x-session-id] header when that is present and not
    empty, and a generated identifier otherwise. *)
Theorem session_id_is_prefixed_and_never_empty random first req :
  (forall k, Js.unit_interval (random k)) ->
  (exists tail,
     Utils.generateSessionId random first = "sess_" +:+ tail
     /\ String.length tail = 32%nat
     /\ Js.forall_string is_alnum tail = true)
  /\ Utils.getSessionId random first req <> ""
  /\ (forall h, Utils.x_session_id req = Some h -> h <> "" ->
                Utils.getSessionId random first req = h).
Proof.
  intros Hr.
  assert (exists tail,
     Utils.generateSessionId random first = "sess_" +:+ tail
     /\ String.length tail = 32%nat
     /\ Js.forall_string is_alnum tail = true) as Hgen.
  { unfold Utils.generateSessionId.
    destruct (random_chars_spec
                "ABCDEFGHIJKLMNOPQRSTUVWXYZabcdefghijklmnopqrstuvwxyz0123456789"
                random first 32 "sess_" Hr) as (tail & -> & Hlen & Hall);
      [cbn; lia | cbn; lia |].
    exists tail. split; [done|]. split; [done|].
    apply forall_string_spec. intros c Hc. apply Hall in Hc.
    revert c Hc. apply forall_string_spec. vm_compute. reflexivity. }
  split; [done|]. split.
  - unfold Utils.getSessionId, Utils.present.
    destruct (Utils.x_session_id req) as [h|].
    + destruct (String.eqb_spec h ""); [|done].
      destruct Hgen as (tail & -> & _). done.
    + destruct Hgen as (tail & -> & _). done.
  - intros h Hh Hne. unfold Utils.getSessionId, Utils.present. rewrite Hh.
    by destruct (String.eqb_spec h "").
Qed.

Lemma session_id_is_prefixed_and_never_empty_witness :
  Utils.generateSessionId (fun _ => (0, 0)) 0
  = "sess_AAAAAAAAAAAAAAAAAAAAAAAAAAAAAAAA"
  /\ Utils.getSessionId (fun _ => (0, 0)) 0
       {| Utils.x_session_id := Some ""; Utils.x_forwarded_for := None;
          Utils.x_real_ip := None; Utils.cf_connecting_ip := None;
          Utils.user_agent := None |} <> "".
Proof.
  split; [vm_compute; reflexivity|].
  apply (session_id_is_prefixed_and_never_empty (fun _ => (0, 0)) 0).
  intros _. unfold Js.unit_interval. cbn. lia.
Defined.

(* ===================================================================== *)
(** ** Request headers *)
(* ===================================================================== *)

Lemma split_first_no_sep sep s c :
  c ∈ string_chars (Js.split_first sep s) -> c <> sep.
Proof.
  induction s as [|d r IH]; cbn.
  - intros H. by apply elem_of_nil in H.
  - destruct (Ascii.eqb_spec d sep) as [->|Hne]; cbn.
    + intros H. by apply elem_of_nil in H.
    + intros [->|H]%elem_of_cons; [done | by apply IH].
Qed.

Lemma trim_start_chars s c :
  c ∈ string_chars (Js.trim_start s) -> c ∈ string_chars s.
Proof.
  induction s as [|d r IH]; cbn; [done|].
  destruct (Js.is_space d); [|done].
  intros H. by apply list_elem_of_further, IH.
Qed.

Lemma trim_end_chars s c :
  c ∈ string_chars (Js.trim_end s) -> c ∈ string_chars s.
Proof.
  induction s as [|d r IH]; [done|]. rewrite trim_end_cons.
  destruct (Js.trim_end r) as [|x t].
  - destruct (Js.is_space d); cbn; [intros H; by apply elem_of_nil in H|].
    intros [->|H]%elem_of_cons; [apply list_elem_of_here | by apply elem_of_nil in H].
  - cbn. intros [->|H]%elem_of_cons; [apply list_elem_of_here|].
    by apply list_elem_of_further, IH.
Qed.

Lemma trim_chars s c : c ∈ string_chars (Js.trim s) -> c ∈ string_chars s.
Proof. unfold Js.trim. intros H. by apply trim_start_chars, trim_end_chars. Qed.

(** X6.  With a non-empty [x-forwarded-for] header, [getClientIP]
    returns the first entry of the header, trimmed, whatever the other
    headers hold: the result contains no comma and has no white space
    at either end. *)
Theorem client_ip_is_first_forwarded_entry req forwarded :
  Utils.x_forwarded_for req = Some forwarded -> forwarded <> "" ->
  Utils.getClientIP req = Js.trim (Js.split_first "," forwarded)
  /\ (forall c, c ∈ string_chars (Utils.getClientIP req) -> c <> ","%char)
  /\ trimmed (Utils.getClientIP req).
Proof.
  intros Hf Hne.
  assert (Utils.getClientIP req = Js.trim (Js.split_first "," forwarded)) as ->.
  { unfold Utils.getClientIP, Utils.present. rewrite Hf.
    by destruct (String.eqb_spec forwarded ""). }
  split; [done|]. split.
  - intros c Hc. by apply trim_chars, split_first_no_sep in Hc.
  - apply trim_idemp.
Qed.

Lemma client_ip_is_first_forwarded_entry_witness :
  Utils.getClientIP
    {| Utils.x_session_id := None;
       Utils.x_forwarded_for := Some " 203.0.113.7 , 10.0.0.1";
       Utils.x_real_ip := Some "10.0.0.2"; Utils.cf_connecting_ip := None;
       Utils.user_agent := None |}
  = "203.0.113.7".
Proof.
  destruct (client_ip_is_first_forwarded_entry
              {| Utils.x_session_id := None;
                 Utils.x_forwarded_for := Some " 203.0.113.7 , 10.0.0.1";
                 Utils.x_real_ip := Some "10.0.0.2"; Utils.cf_connecting_ip := None;
                 Utils.user_agent := None |} " 203.0.113.7 , 10.0.0.1")
    as [H _]; [reflexivity | discriminate |].
  rewrite H. vm_compute. reflexivity.
Defined.

(* ===================================================================== *)
(** ** The session store *)
(* ===================================================================== *)

Lemma append_inj_l (p a b : string) : p +:+ a = p +:+ b -> a = b.
Proof.
  induction p as [|c p IH]; [done|]. rewrite !append_cons. intros [= H]. by apply IH.
Qed.

Lemma session_key_inj a b :
  SessionManager.SESSION_PREFIX +:+ a = SessionManager.SESSION_PREFIX +:+ b -> a = b.
Proof. apply append_inj_l. Qed.

Lemma getSession_available sid w :
  kv_status (kv w) = KvAvailable ->
  SessionManager.getSession sid w = (Value (stored_session w sid), w).
Proof. intros H. unfold SessionManager.getSession. by rewrite H. Qed.

Lemma createSession_available e sid code r w :
  kv_status (kv w) = KvAvailable ->
  SessionManager.createSession e sid code r w
  = (Value tt,
     {| db := db w;
        kv := {| kv_status := KvAvailable;
                 kv_entries :=
                   <[SessionManager.SESSION_PREFIX +:+ sid
                     := (SessionManager.SESSION_TTL, new_session e sid code r)]>
                     (kv_entries (kv w)) |};
        db_calls := db_calls w |}).
Proof. intros H. unfold SessionManager.createSession. by rewrite H. Qed.

(** X7.  With the store available, the session that [createSession]
    writes is the one that [getSession] reads back, whatever the store
    held under that identifier before, and [isSessionValid] answers
    true.  The sessions under other identifiers are read as before and
    the database is not touched. *)
Theorem created_session_is_read_back e sid code r w :
  kv_status (kv w) = KvAvailable ->
  (SessionManager.getSession sid (SessionManager.createSession e sid code r w).2).1
  = Value (Some (new_session e sid code r))
  /\ (SessionManager.isSessionValid sid
        (SessionManager.createSession e sid code r w).2).1 = Value true
  /\ (forall other, other <> sid ->
        (SessionManager.getSession other
           (SessionManager.createSession e sid code r w).2).1
        = (SessionManager.getSession other w).1)
  /\ db (SessionManager.createSession e sid code r w).2 = db w.
Proof.
  intros Hkv. rewrite createSession_available by done. cbn [snd].
  split; [|split; [|split]].
  - rewrite getSession_available by done. unfold stored_session. cbn.
    by rewrite lookup_insert_eq.
  - unfold SessionManager.isSessionValid, bind.
    rewrite getSession_available by done. unfold stored_session. cbn.
    by rewrite lookup_insert_eq.
  - intros other Hne. rewrite !getSession_available by done.
    unfold stored_session. cbn. rewrite lookup_insert_ne; [done|].
    intros Heq. by apply session_key_inj in Heq.
  - done.
Qed.

Lemma created_session_is_read_back_witness :
  (SessionManager.getSession "session-1"
     (SessionManager.createSession Example.env "session-1" "ABC123" creator
        Example.voted).2).1
  = Value (Some (new_session Example.env "session-1" "ABC123" creator)).
Proof.
  apply (created_session_is_read_back Example.env "session-1" "ABC123" creator
           Example.voted).
  reflexivity.
Defined.

(** X8.  The session functions when the store is not available.
    [getSession], [isSessionValid] and [updateSessionActivity] return
    quietly ([null], [false], nothing) and change nothing.
    [createSession] and [deleteSession] return quietly when the store is
    not configured, and throw when its requests reject. *)
Theorem session_store_failures e sid code r w :
  (kv_status (kv w) <> KvAvailable ->
   SessionManager.getSession sid w = (Value None, w)
   /\ SessionManager.isSessionValid sid w = (Value false, w)
   /\ SessionManager.updateSessionActivity e sid w = (Value tt, w))
  /\ (kv_status (kv w) = KvUnconfigured ->
      SessionManager.createSession e sid code r w = (Value tt, w)
      /\ SessionManager.deleteSession sid w = (Value tt, w))
  /\ (kv_status (kv w) = KvUnreachable ->
      SessionManager.createSession e sid code r w = (Throw, w)
      /\ SessionManager.deleteSession sid w = (Throw, w)).
Proof.
  unfold SessionManager.isSessionValid, SessionManager.updateSessionActivity,
    SessionManager.getSession, SessionManager.createSession,
    SessionManager.deleteSession, bind, pure.
  destruct (kv_status (kv w)); repeat split; done.
Qed.

Lemma session_store_failures_witness :
  SessionManager.createSession Example.env "session-1" "ABC123" participant
    (Example.world (Example.yes_no true) Example.open_room [] KvUnreachable)
  = (Throw, Example.world (Example.yes_no true) Example.open_room [] KvUnreachable).
Proof.
  refine (proj1 (proj2 (proj2 (session_store_failures Example.env "session-1"
                                 "ABC123" participant
                                 (Example.world (Example.yes_no true)
                                    Example.open_room [] KvUnreachable))) _)).
  reflexivity.
Defined.

(** X9.  [updateSessionActivity] neither creates nor removes a
    session: the store holds the same keys afterwards.  The session of
    the identifier keeps its fields except [lastActivity], which is set
    to the clock; the other sessions and the database stay as they
    were. *)
Theorem session_activity_update_keeps_identity e sid w :
  let w' := (SessionManager.updateSessionActivity e sid w).2 in
  dom (kv_entries (kv w')) = dom (kv_entries (kv w))
  /\ (kv_status (kv w) = KvAvailable ->
      stored_session w' sid = touched e <$> stored_session w sid)
  /\ (forall other, other <> sid -> stored_session w' other = stored_session w other)
  /\ db w' = db w.
Proof.
  cbn zeta.
  unfold SessionManager.updateSessionActivity, bind, pure, SessionManager.getSession.
  destruct (kv_status (kv w)) eqn:Hkv; cbn [fst snd];
    [by repeat split | | by repeat split].
  unfold stored_session.
  destruct (kv_entries (kv w) !! (SessionManager.SESSION_PREFIX +:+ sid))
    as [[ttl s]|] eqn:Hs; cbn [fmap option_fmap option_map snd].
  - rewrite Hkv. cbn [snd kv kv_entries db].
    split; [|split; [|split]].
    + apply set_eq. intros k. rewrite !elem_of_dom.
      destruct (decide (k = SessionManager.SESSION_PREFIX +:+ sid)) as [->|Hne].
      * rewrite lookup_insert_eq, ?Hs. split; intros _; eauto.
      * by rewrite lookup_insert_ne.
    + intros _. by rewrite lookup_insert_eq, ?Hs.
    + intros other Hne. rewrite lookup_insert_ne; [done|].
      intros Heq. by apply session_key_inj in Heq.
    + done.
  - cbn [snd]. rewrite ?Hs. repeat split; done.
Qed.

Lemma session_activity_update_keeps_identity_witness :
  let w := with_session Example.env Example.voted "session-1" "ABC123" participant in
  stored_session (SessionManager.updateSessionActivity Example.later "session-1" w).2
    "session-1"
  = touched Example.later <$> stored_session w "session-1".
Proof.
  intros w.
  refine (proj1 (proj2 (session_activity_update_keeps_identity Example.later
                          "session-1" w)) _).
  reflexivity.
Defined.

(** X10.  After [deleteSession] the session is read as [null] and is
    not valid; the other sessions are read as before; deleting once
    more changes nothing. *)
Theorem deleted_session_is_gone sid w :
  kv_status (kv w) = KvAvailable ->
  let w' := (SessionManager.deleteSession sid w).2 in
  (SessionManager.getSession sid w').1 = Value None
  /\ (SessionManager.isSessionValid sid w').1 = Value false
  /\ (forall other, other <> sid -> stored_session w' other = stored_session w other)
  /\ (SessionManager.deleteSession sid w').2 = w'
  /\ db w' = db w.
Proof.
  intros Hkv. cbn zeta.
  unfold SessionManager.isSessionValid, bind, pure, SessionManager.getSession,
    SessionManager.deleteSession, stored_session.
  rewrite Hkv. cbn [fst snd kv kv_status kv_entries db].
  rewrite lookup_delete_eq. cbn.
  split; [done|]. split; [done|]. split; [|split; [|done]].
  - intros other Hne. rewrite lookup_delete_ne; [done|].
    intros Heq. by apply session_key_inj in Heq.
  - f_equal. f_equal. apply delete_delete_eq.
Qed.

Lemma deleted_session_is_gone_witness :
  (SessionManager.getSession "session-1"
     (SessionManager.deleteSession "session-1"
        (SessionManager.createSession Example.env "session-1" "ABC123" creator
           Example.voted).2).2).1
  = Value None.
Proof.
  apply (deleted_session_is_gone "session-1"
           (SessionManager.createSession Example.env "session-1" "ABC123" creator
              Example.voted).2).
  reflexivity.
Defined.

(* ===================================================================== *)
(** ** The rate limiter *)
(* ===================================================================== *)

Lemma counter_state_count s id t times c :
  counter_state s id (t :: times) c ->
  RateLimiter.count_of (counter_at s t id) = c.
Proof.
  intros [[-> Hfresh]|(ex & Hex & Hlive)].
  - by rewrite Hfresh by apply list_elem_of_here.
  - unfold counter_at, RateLimiter.get. rewrite Hex.
    specialize (Hlive t (list_elem_of_here _ _)).
    by replace (ex <=? t) with false by (symmetry; apply Z.leb_gt; lia).
Qed.

Lemma counter_state_tail s id t times c :
  counter_state s id (t :: times) c -> counter_state s id times c.
Proof.
  intros [[-> Hfresh]|(ex & Hex & Hlive)].
  - left. split; [done|]. intros t' Ht'. by apply Hfresh, list_elem_of_further.
  - right. exists ex. split; [done|].
    intros t' Ht'. by apply Hlive, list_elem_of_further.
Qed.

Lemma counter_state_allowed s id t times c max win :
  RateLimiter.store_status s = KvAvailable ->
  counter_state s id (t :: times) c ->
  (forall t', t' ∈ times -> t' < t + win * 1000) ->
  c < max ->
  RateLimiter.checkRateLimit t id max win s
  = ({| RateLimiter.allowed := true; RateLimiter.remaining := max - c - 1;
        RateLimiter.resetTime := t / 1000 + win |},
     {| RateLimiter.store_status := KvAvailable;
        RateLimiter.counters :=
          RateLimiter.expire t (RateLimiter.RATE_LIMIT_PREFIX +:+ id) win
            (RateLimiter.incr t (RateLimiter.RATE_LIMIT_PREFIX +:+ id)
               (RateLimiter.counters s)) |})
  /\ counter_state
       {| RateLimiter.store_status := KvAvailable;
          RateLimiter.counters :=
            RateLimiter.expire t (RateLimiter.RATE_LIMIT_PREFIX +:+ id) win
              (RateLimiter.incr t (RateLimiter.RATE_LIMIT_PREFIX +:+ id)
                 (RateLimiter.counters s)) |}
       id times (c + 1).
Proof.
  intros Hs Hst Hclose Hlt. split.
  - unfold RateLimiter.checkRateLimit. rewrite Hs.
    fold (counter_at s t id). rewrite (counter_state_count s id t times c Hst).
    by replace (max <=? c) with false by (symmetry; apply Z.leb_gt; lia).
  - right. exists (t + win * 1000). split; [|done]. cbn [RateLimiter.counters].
    destruct Hst as [[-> Hfresh]|(ex & Hex & Hlive)].
    + specialize (Hfresh t (list_elem_of_here _ _)). unfold counter_at in Hfresh.
      unfold RateLimiter.incr. rewrite Hfresh.
      unfold RateLimiter.expire, RateLimiter.get. rewrite lookup_insert_eq.
      cbv beta iota. by rewrite lookup_insert_eq.
    + specialize (Hlive t (list_elem_of_here _ _)).
      unfold RateLimiter.incr, RateLimiter.get. rewrite Hex.
      replace (ex <=? t) with false by (symmetry; apply Z.leb_gt; lia).
      unfold RateLimiter.expire, RateLimiter.get. rewrite lookup_insert_eq.
      replace (ex <=? t) with false by (symmetry; apply Z.leb_gt; lia).
      cbv beta iota. by rewrite lookup_insert_eq.
Qed.

Lemma counter_state_refused s id t times c max win :
  RateLimiter.store_status s = KvAvailable ->
  counter_state s id (t :: times) c ->
  max <= c ->
  RateLimiter.checkRateLimit t id max win s
  = ({| RateLimiter.allowed := false; RateLimiter.remaining := 0;
        RateLimiter.resetTime := t / 1000 + win |}, s).
Proof.
  intros Hs Hst Hle. unfold RateLimiter.checkRateLimit. rewrite Hs.
  fold (counter_at s t id). rewrite (counter_state_count s id t times c Hst).
  by replace (max <=? c) with true by (symmetry; apply Z.leb_le; lia).
Qed.

Lemma check_each_counts times id max win s c i l :
  RateLimiter.store_status s = KvAvailable ->
  counter_state s id times c ->
  (forall t t', t ∈ times -> t' ∈ times -> t < t' + win * 1000) ->
  (check_each times id max win s).1 !! i = Some l ->
  RateLimiter.allowed l = bool_decide (c + Z.of_nat i < max)
  /\ RateLimiter.remaining l
     = (if RateLimiter.allowed l then max - c - Z.of_nat i - 1 else 0)
  /\ RateLimiter.resetTime l = default 0 (times !! i) / 1000 + win.
Proof.
  revert s c i. induction times as [|t times IH]; intros s c i Hs Hst Hclose; [done|].
  cbn [check_each].
  assert (forall t0 t', t0 ∈ times -> t' ∈ times -> t0 < t' + win * 1000) as Hclose'.
  { intros t0 t' H0 H'. by apply Hclose; apply list_elem_of_further. }
  destruct (Z_lt_ge_dec c max) as [Hlt|Hge].
  - destruct (counter_state_allowed s id t times c max win Hs Hst) as [-> Hst'];
      [|done|].
    { intros t' Ht'. apply Hclose; [by apply list_elem_of_further|].
      apply list_elem_of_here. }
    match type of Hst' with
    | counter_state ?s1 _ _ _ =>
        specialize (fun i => IH s1 (c + 1) i eq_refl Hst' Hclose')
    end.
    destruct (check_each times id max win _) as [ls s2]. cbn [fst] in *.
    destruct i as [|i]; cbn [lookup list_lookup default].
    + intros [= <-]. cbn. change (Z.of_nat 0) with 0.
      rewrite bool_decide_eq_true_2 by lia. repeat split; lia.
    + intros Hl. destruct (IH i Hl) as (Ha & Hr & Ht).
      rewrite Hr, Ha, Nat2Z.inj_succ. unfold Z.succ.
      split; [apply bool_decide_ext; lia|]. split; [|done].
      case_bool_decide; [lia | done].
  - rewrite (counter_state_refused s id t times c max win Hs Hst) by lia.
    specialize (fun i => IH s c i Hs (counter_state_tail _ _ _ _ _ Hst) Hclose').
    destruct (check_each times id max win s) as [ls s2]. cbn [fst] in *.
    destruct i as [|i]; cbn [lookup list_lookup default].
    + intros [= <-]. cbn. change (Z.of_nat 0) with 0.
      rewrite bool_decide_eq_false_2 by lia. done.
    + intros Hl. destruct (IH i Hl) as (Ha & Hr & Ht).
      rewrite Hr, Ha, Nat2Z.inj_succ. unfold Z.succ.
      rewrite !bool_decide_eq_false_2 by lia. done.
Qed.

(** X11.  The rate limiter counts the requests of a window.  Take
    calls for one identifier, any two of them less than a window apart,
    that start with no live counter (none was written, or its time to
    live has run out).  The call number [i], counted from 0, is allowed
    exactly when [i < maxRequests]; an allowed call reports
    [maxRequests - i - 1] remaining requests and a refused one reports
    0; every call reports the reset time [floor(now / 1000) + window]. *)
Theorem rate_limit_counts_requests_in_window times id max win s i l :
  RateLimiter.store_status s = KvAvailable ->
  (forall t, t ∈ times -> counter_at s t id = None) ->
  (forall t t', t ∈ times -> t' ∈ times -> t < t' + win * 1000) ->
  (check_each times id max win s).1 !! i = Some l ->
  RateLimiter.allowed l = bool_decide (Z.of_nat i < max)
  /\ RateLimiter.remaining l
     = (if RateLimiter.allowed l then max - Z.of_nat i - 1 else 0)
  /\ RateLimiter.resetTime l = default 0 (times !! i) / 1000 + win.
Proof.
  intros Hs Hfresh Hclose Hl.
  destruct (check_each_counts times id max win s 0 i l Hs) as (Ha & Hr & Ht);
    [by left | done | done |].
  rewrite Ha, Hr, Ht, Ha. split; [apply bool_decide_ext; lia|].
  split; [|done]. case_bool_decide; [lia | done].
Qed.

Lemma rate_limit_counts_requests_in_window_witness :
  (check_each [0; 1000; 2000] "10.0.0.1" 2 60
     {| RateLimiter.store_status := KvAvailable;
        RateLimiter.counters := ∅ |}).1
  = [ {| RateLimiter.allowed := true; RateLimiter.remaining := 1;
         RateLimiter.resetTime := 60 |};
      {| RateLimiter.allowed := true; RateLimiter.remaining := 0;
         RateLimiter.resetTime := 61 |};
      {| RateLimiter.allowed := false; RateLimiter.remaining := 0;
         RateLimiter.resetTime := 62 |} ]
  /\ RateLimiter.allowed
       {| RateLimiter.allowed := false; RateLimiter.remaining := 0;
          RateLimiter.resetTime := 62 |}
     = bool_decide (Z.of_nat 2 < 2).
Proof.
  assert ((check_each [0; 1000; 2000] "10.0.0.1" 2 60
             {| RateLimiter.store_status := KvAvailable;
                RateLimiter.counters := ∅ |}).1
          = [ {| RateLimiter.allowed := true; RateLimiter.remaining := 1;
                 RateLimiter.resetTime := 60 |};
              {| RateLimiter.allowed := true; RateLimiter.remaining := 0;
                 RateLimiter.resetTime := 61 |};
              {| RateLimiter.allowed := false; RateLimiter.remaining := 0;
                 RateLimiter.resetTime := 62 |} ]) as E
    by (vm_compute; reflexivity).
  split; [exact E|].
  apply (rate_limit_counts_requests_in_window [0; 1000; 2000] "10.0.0.1" 2 60
           {| RateLimiter.store_status := KvAvailable;
              RateLimiter.counters := ∅ |} 2).
  - reflexivity.
  - intros t _. reflexivity.
  - intros t t' Ht Ht'.
    repeat (apply elem_of_cons in Ht as [->|Ht]);
      repeat (apply elem_of_cons in Ht' as [->|Ht']);
      try lia; by apply elem_of_nil in Ht || by apply elem_of_nil in Ht'.
  - rewrite E. reflexivity.
Defined.

(** X12.  The rate limiter fails open.  When the store is not
    configured or its requests reject, every call is allowed, reports
    [maxRequests] remaining requests and leaves the counters as they
    were. *)
Theorem rate_limit_fails_open times id max win s :
  RateLimiter.store_status s <> KvAvailable ->
  (check_each times id max win s).2 = s
  /\ forall i l,
       (check_each times id max win s).1 !! i = Some l ->
       RateLimiter.allowed l = true /\ RateLimiter.remaining l = max.
Proof.
  intros Hs. induction times as [|t times [IHs IHl]]; [done|].
  cbn [check_each].
  assert (RateLimiter.checkRateLimit t id max win s
          = ({| RateLimiter.allowed := true; RateLimiter.remaining := max;
                RateLimiter.resetTime := t / 1000 + win |}, s)) as ->.
  { unfold RateLimiter.checkRateLimit. by destruct (RateLimiter.store_status s). }
  destruct (check_each times id max win s) as [ls s2]. cbn [fst snd] in *.
  split; [done|]. intros [|i] l; cbn.
  - by intros [= <-].
  - apply IHl.
Qed.

Lemma rate_limit_fails_open_witness :
  (check_each [0; 1; 2] "10.0.0.1" 1 60
     {| RateLimiter.store_status := KvUnreachable; RateLimiter.counters := ∅ |}).2
  = {| RateLimiter.store_status := KvUnreachable; RateLimiter.counters := ∅ |}.
Proof.
  apply (rate_limit_fails_open [0; 1; 2] "10.0.0.1" 1 60
           {| RateLimiter.store_status := KvUnreachable;
              RateLimiter.counters := ∅ |}).
  discriminate.
Defined.

(* ===================================================================== *)
(** ** What a created vote tells *)
(* ===================================================================== *)

Lemma single_Data {A} (l : list A) (x : A) :
  Supabase.single l = Supabase.Data x <-> l = [x].
Proof.
  destruct l as [|y [|z l]]; cbn; split; try done.
  - by intros [= ->].
  - by intros [= ->].
Qed.

Lemma single_Error {A} (l : list A) c :
  Supabase.single l = Supabase.Error c -> c = "PGRST116".
Proof. destruct l as [|y [|z l]]; cbn; congruence. Qed.

(** The vote handler either leaves the database alone and does not
    answer 201, or it has checked everything and added the vote. *)
Lemma POST_vote_outcome e request w :
  (db (VoteRoute.POST e request w).2 = db w
   /\ status (VoteRoute.POST e request w).1 <> 201)
  \/ exists c p r,
       VoteRoute.body request = Some (Js.Str c) /\ c <> ""
       /\ UuidRegex.test (VoteRoute.params_id request) = true
       /\ resolves w (VoteRoute.params_id request) p r
       /\ poll_is_active p = true /\ room_open e r = true
       /\ c ∈ VoteRoute.validChoices p
       /\ (forall v, v ∈ votes (db w) ->
             Supabase.vote_matches (VoteRoute.params_id request)
               (session_of e request) v = false)
       /\ db (VoteRoute.POST e request w).2
          = with_vote (db w)
              (inserted_vote e (VoteRoute.params_id request)
                 (session_of e request) c)
       /\ (kv_status (kv w) <> KvUnreachable ->
           (VoteRoute.POST e request w).1
           = vote_created (inserted_vote e (VoteRoute.params_id request)
                             (session_of e request) c))
       /\ (kv_status (kv w) = KvUnreachable ->
           (VoteRoute.POST e request w).1 = VoteRoute.internal_error).
Proof.
  unfold VoteRoute.POST, VoteRoute.vote_on. run_handler.
  destruct (VoteRoute.body request) as [choice|] eqn:Hbody; [|by left].
  destruct (UuidRegex.test _) eqn:Hid; cbn; [|by left].
  destruct (Js.truthy choice) eqn:Htruthy; cbn; [|by left].
  destruct (Js.is_string choice) eqn:Hstr; cbn; [|by left].
  destruct choice as [| | | |c|]; try done. cbn in Htruthy.
  destruct (Supabase.single (Supabase.poll_rows _ _)) as [[p r]|code] eqn:Hrows; cbn.
  2: { left. by destruct (String.eqb code _). }
  apply single_Data in Hrows.
  destruct (poll_is_active p) eqn:Hact; cbn; [|by left].
  destruct (room_expires_at r) as [t|] eqn:Hexp; cbn; [|by left].
  destruct (t <? now e) eqn:Hnow; cbn; [by left|].
  destruct (Js.includes _ _) eqn:Hinc; cbn; [|by left].
  destruct (Supabase.single _) as [x|code] eqn:Hsingle; cbn; [by left|].
  destruct (String.eqb code _); cbn; [|by left].
  fold (session_of e request).
  fold (inserted_vote e (VoteRoute.params_id request) (session_of e request) c).
  destruct (Supabase.vote_insertable _ _) as [v|code'] eqn:Hins; cbn; [|by left].
  assert (v = inserted_vote e (VoteRoute.params_id request) (session_of e request) c)
    as ->.
  { unfold Supabase.vote_insertable in Hins.
    repeat case_bool_decide; congruence. }
  right. exists c, p, r.
  split; [done|]. split; [by destruct c|]. split; [done|]. split; [done|].
  split; [done|]. split; [unfold room_open; rewrite Hexp; lia|].
  split; [by apply includes_true|]. split.
  { intros v0 Hv0. pose proof (insertable_no_match _ _ Hins v0 Hv0) as Hno.
    cbn in Hno. by rewrite vote_matches_lower in Hno. }
  unfold SessionManager.createSession. cbn [kv].
  destruct (kv_status (kv w)) eqn:Hkv; cbn; repeat split; done.
Qed.

(** X13.  A vote is created only when it is legal.  Whenever the vote
    handler answers 201, the body held a non-empty string choice, the
    identifier was well-formed and resolved to exactly one poll, the
    poll was active, its room had not expired, the choice was in the
    derived choice set, the session had no vote on the poll, the
    session store did not reject, and the database is the old one with
    exactly the returned vote added. *)
Theorem vote_is_created_only_when_legal e request w :
  status (VoteRoute.POST e request w).1 = 201 ->
  exists c p r,
    VoteRoute.body request = Some (Js.Str c) /\ c <> ""
    /\ UuidRegex.test (VoteRoute.params_id request) = true
    /\ resolves w (VoteRoute.params_id request) p r
    /\ poll_is_active p = true /\ room_open e r = true
    /\ c ∈ VoteRoute.validChoices p
    /\ (forall v, v ∈ votes (db w) ->
          Supabase.vote_matches (VoteRoute.params_id request)
            (session_of e request) v = false)
    /\ kv_status (kv w) <> KvUnreachable
    /\ (VoteRoute.POST e request w).1
       = vote_created (inserted_vote e (VoteRoute.params_id request)
                         (session_of e request) c)
    /\ db (VoteRoute.POST e request w).2
       = with_vote (db w)
           (inserted_vote e (VoteRoute.params_id request)
              (session_of e request) c).
Proof.
  intros H201.
  destruct (POST_vote_outcome e request w)
    as [[_ Hno]|(c & p & r & Hb & Hc & Hid & Hres & Hact & Hopen & Hin & Hfirst
                 & Hdb & Hok & Hfail)]; [done|].
  exists c, p, r. repeat (split; [done|]).
  assert (kv_status (kv w) <> KvUnreachable) as Hkv.
  { intros Hkv. rewrite (Hfail Hkv) in H201. done. }
  split; [done|]. split; [by apply Hok | done].
Qed.

Lemma vote_is_created_only_when_legal_witness :
  exists c p r,
    VoteRoute.body (Example.vote Example.poll_uuid "yes" "session-1")
    = Some (Js.Str c)
    /\ resolves (Example.world (Example.yes_no true) Example.open_room []
                   KvAvailable) Example.poll_uuid p r
    /\ c ∈ VoteRoute.validChoices p.
Proof.
  destruct (vote_is_created_only_when_legal Example.env
              (Example.vote Example.poll_uuid "yes" "session-1")
              (Example.world (Example.yes_no true) Example.open_room []
                 KvAvailable))
    as (c & p & r & Hb & _ & _ & Hr & _ & _ & Hc & _);
    [vm_compute; reflexivity|].
  exists c, p, r. done.
Defined.

(* ===================================================================== *)
(** ** Reading the results *)
(* ===================================================================== *)

Lemma GET_results_effect e id w :
  db (ResultsRoute.GET e id w).2 = db w /\ kv (ResultsRoute.GET e id w).2 = kv w.
Proof.
  unfold ResultsRoute.GET. run_handler.
  destruct (UuidRegex.test id); cbn; [|done].
  destruct (Supabase.single _) as [[p r]|code]; cbn.
  2: { destruct (String.eqb code _); done. }
  destruct (room_expires_at r) as [t|]; cbn; [|done].
  destruct (t <? now e); cbn; [done|].
  destruct (ResultsRoute.calculate _ _); done.
Qed.

Lemma GET_results_success e id w total results :
  results_of (ResultsRoute.GET e id w).1 = Some (total, results) ->
  exists p r,
    UuidRegex.test id = true /\ resolves w id p r /\ room_open e r = true.
Proof.
  unfold ResultsRoute.GET. run_handler.
  destruct (UuidRegex.test id) eqn:Hid; cbn; [|done].
  destruct (Supabase.single _) as [[p r]|code] eqn:Hrows; cbn.
  2: { destruct (String.eqb code _); done. }
  apply single_Data in Hrows.
  destruct (room_expires_at r) as [t|] eqn:Hexp; cbn; [|done].
  destruct (t <? now e) eqn:Hnow; cbn; [done|].
  intros _. exists p, r. split; [done|]. split; [done|].
  unfold room_open. rewrite Hexp. lia.
Qed.

(** X14.  The results handler only reads: whatever the identifier,
    the database and the session store are the same afterwards, and a
    second request at the same time gets the same response. *)
Theorem results_are_read_only e id w :
  db (ResultsRoute.GET e id w).2 = db w
  /\ kv (ResultsRoute.GET e id w).2 = kv w
  /\ (ResultsRoute.GET e id (ResultsRoute.GET e id w).2).1
     = (ResultsRoute.GET e id w).1.
Proof.
  destruct (GET_results_effect e id w) as [Hdb Hkv].
  split; [done|]. split; [done|]. by apply GET_results_response_db.
Qed.

(** X15.  Every entry of a result set reports a count that is at most
    the total and, for totals below 2^32, a percentage between 0 and
    100. *)
Theorem reported_percentages_are_between_0_and_100 e id w total results k entry :
  results_of (ResultsRoute.GET e id w).1 = Some (total, results) ->
  Z.of_nat total < 2 ^ 32 ->
  results !! k = Some entry ->
  (count entry <= total)%nat /\ 0 <= percentage entry <= 100.
Proof.
  intros Hres Htotal Hk.
  destruct (GET_results_success e id w total results Hres) as (p & r & Hid & Hrows & Hopen).
  rewrite (GET_results_resolved e id w p r) in Hres by done.
  cbn in Hres. injection Hres as <- <-.
  rewrite (proj2 (calculate_spec p (fetched_votes w id)) k) in Hk.
  case_decide; [|done]. injection Hk as <-. cbn.
  pose proof (length_filter (fun v => vote_choice v = k) (fetched_votes w id)) as Hle.
  fold (count_choice k (fetched_votes w id)) in Hle.
  split; [done|].
  destruct (length (fetched_votes w id)) as [|n] eqn:E; cbn [Nat.eqb]; [clear; lia|].
  pose proof (percent_nearest (count_choice k (fetched_votes w id)) (S n)
                Hle ltac:(lia) Htotal) as Hnear.
  remember (ResultsRoute.percent _ _) as pc.
  remember (Z.of_nat (count_choice k (fetched_votes w id))) as c.
  remember (Z.of_nat (S n)) as t.
  assert (0 <= c <= t) as Hc by lia. assert (0 < t) as Ht by lia.
  clear -Hnear Hc Ht. split.
  - destruct (Z_le_gt_dec 0 pc) as [|Hneg]; [done|exfalso].
    assert (t * pc <= t * (-1)) by (apply Z.mul_le_mono_nonneg_l; lia). lia.
  - destruct (Z_le_gt_dec pc 100) as [|Hbig]; [done|exfalso].
    assert (t * 101 <= t * pc) by (apply Z.mul_le_mono_nonneg_l; lia). lia.
Qed.

Lemma reported_percentages_are_between_0_and_100_witness :
  exists results entry,
    results_of (ResultsRoute.GET Example.env Example.poll_uuid
                  Example.with_legacy_vote).1 = Some (201%nat, results)
    /\ results !! "yes" = Some entry
    /\ 0 <= percentage entry <= 100.
Proof.
  destruct (results_of (ResultsRoute.GET Example.env Example.poll_uuid
                          Example.with_legacy_vote).1) as [[total results]|] eqn:E;
    [|vm_compute in E; discriminate].
  assert (total = 201%nat) as -> by (vm_compute in E; congruence).
  destruct (results !! "yes") as [entry|] eqn:Hyes.
  - exists results, entry. split; [done|]. split; [done|].
    apply (reported_percentages_are_between_0_and_100 Example.env Example.poll_uuid
             Example.with_legacy_vote 201 results "yes" entry); [done | | done].
    vm_compute. reflexivity.
  - exfalso. vm_compute in E. injection E as <-. vm_compute in Hyes. discriminate.
Defined.





Lemma sessions_distinct (votes : list Vote) (id : string) :
  (forall sid,
     (length (filter (fun v => Supabase.vote_matches id sid v = true) votes) <= 1)%nat) ->
  NoDup (vote_session_id <$> filter (fun v => uuid_eqb (vote_poll_id v) id = true) votes).
Proof.
  induction votes as [|v votes IH]; intros Huniq; [apply NoDup_nil_2|].
  assert (NoDup (vote_session_id <$>
                   filter (fun v => uuid_eqb (vote_poll_id v) id = true) votes)) as Hrest.
  { apply IH. intros sid. specialize (Huniq sid).
    rewrite filter_cons in Huniq. case_decide; cbn in Huniq; lia. }
  rewrite filter_cons. case_decide as Hv; [|done].
  cbn. apply NoDup_cons. split; [|done].
  intros (v' & Hsid & Hin)%list_elem_of_fmap.
  apply list_elem_of_filter in Hin as [Hpoll Hin].
  specialize (Huniq (vote_session_id v)).
  rewrite filter_cons in Huniq.
  rewrite decide_True in Huniq.
  2: { unfold Supabase.vote_matches. rewrite Hv. cbn. apply String.eqb_refl. }
  cbn in Huniq.
  assert (v' ∈ filter (fun v0 => Supabase.vote_matches id (vote_session_id v) v0 = true)
                      votes) as Hin'.
  { apply list_elem_of_filter. split; [|done].
    unfold Supabase.vote_matches. rewrite Hpoll, <- Hsid. cbn. apply String.eqb_refl. }
  destruct (filter (fun v0 => Supabase.vote_matches id (vote_session_id v) v0 = true)
              votes); [by apply elem_of_nil in Hin' | cbn in Huniq; lia].
Qed.

Lemma post_all_ledger_unique requests w :
  ledger_unique (db w) -> ledger_unique (db (post_all requests w)).
Proof.
  revert w. induction requests as [|[e request] rest IH]; intros w Hw; [done|].
  cbn. by apply IH, POST_preserves_ledger_unique.
Qed.

(** X17.  Starting from a ledger that satisfies
    [UNIQUE(poll_id, session_id)], after any sequence of vote requests
    the constraint still holds and the votes that the results handler
    fetches for a poll come from pairwise different sessions. *)
Theorem counted_votes_come_from_distinct_sessions requests w id :
  ledger_unique (db w) ->
  ledger_unique (db (post_all requests w))
  /\ NoDup (vote_session_id <$> fetched_votes (post_all requests w) id).
Proof.
  intros Hw. pose proof (post_all_ledger_unique requests w Hw) as Hu.
  split; [done|]. apply sessions_distinct. intros sid. apply Hu.
Qed.

Lemma counted_votes_come_from_distinct_sessions_witness :
  NoDup (vote_session_id <$>
           fetched_votes
             (post_all [(Example.env, Example.vote Example.poll_uuid "yes" "A");
                        (Example.later, Example.vote Example.poll_uuid "no" "A")]
                (Example.world (Example.yes_no true) Example.open_room []
                   KvAvailable))
             Example.poll_uuid).
Proof.
  apply (counted_votes_come_from_distinct_sessions
           [(Example.env, Example.vote Example.poll_uuid "yes" "A");
            (Example.later, Example.vote Example.poll_uuid "no" "A")]
           (Example.world (Example.yes_no true) Example.open_room [] KvAvailable)
           Example.poll_uuid).
  intros pid sid. cbn. lia.
Defined.

(* ===================================================================== *)
(** ** The constraints of the schema *)
(* ===================================================================== *)

Lemma uuid_eqb_sym a b : uuid_eqb a b = uuid_eqb b a.
Proof. unfold uuid_eqb. apply String.eqb_sym. Qed.

Lemma uuid_eqb_trans a b c :
  uuid_eqb a b = true -> uuid_eqb b c = true -> uuid_eqb a c = true.
Proof. rewrite !uuid_eqb_eq. congruence. Qed.

Lemma createSession_effect e sid code r w :
  db (SessionManager.createSession e sid code r w).2 = db w
  /\ kv_status (kv (SessionManager.createSession e sid code r w).2) = kv_status (kv w)
  /\ db_calls (SessionManager.createSession e sid code r w).2 = db_calls w.
Proof.
  unfold SessionManager.createSession. destruct (kv_status (kv w)) eqn:E; cbn; done.
Qed.

Lemma room_insertable_Data d r r' :
  Supabase.room_insertable d r = Supabase.Data r' ->
  r' = r
  /\ (String.length (room_code r) <= 6)%nat
  /\ forall r0, r0 ∈ rooms d ->
       uuid_eqb (room_id r0) (room_id r) = false /\ room_code r0 <> room_code r.
Proof.
  unfold Supabase.room_insertable.
  destruct (6 <? String.length (room_code r))%nat eqn:Hlen; [done|].
  case_bool_decide as Hex; [done|]. intros [= <-].
  split; [done|]. split; [apply Nat.ltb_ge in Hlen; lia|].
  intros r0 Hr0. rewrite Exists_exists in Hex.
  split.
  - destruct (uuid_eqb (room_id r0) (room_id r)) eqn:E; [|done].
    exfalso. apply Hex. exists r0. split; [done | by left].
  - intros Heq. apply Hex. exists r0. split; [done | by right].
Qed.

Lemma poll_insertable_Data d p p' :
  Supabase.poll_insertable d p = Supabase.Data p' ->
  p' = p
  /\ (forall p0, p0 ∈ polls d -> uuid_eqb (poll_id p0) (poll_id p) = false)
  /\ exists r, r ∈ rooms d /\ uuid_eqb (room_id r) (poll_room_id p) = true.
Proof.
  unfold Supabase.poll_insertable.
  destruct (20 <? String.length (poll_type p))%nat; [done|].
  case_bool_decide as Hex; [done|]. case_bool_decide as Hroom; [|done].
  intros [= <-]. split; [done|]. split.
  - intros p0 Hp0. destruct (uuid_eqb (poll_id p0) (poll_id p)) eqn:E; [|done].
    exfalso. apply Hex. rewrite Exists_exists. by exists p0.
  - by rewrite Exists_exists in Hroom.
Qed.

Lemma vote_insertable_Data d v v' :
  Supabase.vote_insertable d v = Supabase.Data v' ->
  v' = v /\ exists p, p ∈ polls d /\ uuid_eqb (poll_id p) (vote_poll_id v) = true.
Proof.
  unfold Supabase.vote_insertable.
  case_bool_decide as Hp; [|done]. case_bool_decide; [done|].
  intros [= <-]. split; [done|]. by rewrite Exists_exists in Hp.
Qed.

Lemma with_vote_constraints d v :
  constraints_hold d -> Supabase.vote_insertable d v = Supabase.Data v ->
  constraints_hold (with_vote d v).
Proof.
  intros ((Hpolls & Hvotes) & Hledger & Hcodes) Hins.
  split; [|split; [by apply with_vote_unique | done]].
  split; [done|]. intros v0 [Hv0|Hv0%list_elem_of_singleton]%elem_of_app.
  - by apply Hvotes.
  - subst v0. by apply vote_insertable_Data in Hins as [_ ?].
Qed.

Lemma with_poll_constraints d p :
  constraints_hold d -> Supabase.poll_insertable d p = Supabase.Data p ->
  constraints_hold (with_poll d p).
Proof.
  intros ((Hpolls & Hvotes) & Hledger & Hcodes) Hins.
  split; [|done]. split.
  - intros p0 [Hp0|Hp0%list_elem_of_singleton]%elem_of_app.
    + by apply Hpolls.
    + subst p0. by apply poll_insertable_Data in Hins as (_ & _ & ?).
  - intros v Hv. destruct (Hvotes v Hv) as (p0 & Hp0 & Heq).
    exists p0. split; [|done]. apply elem_of_app. by left.
Qed.

Lemma with_room_constraints d r :
  constraints_hold d -> Supabase.room_insertable d r = Supabase.Data r ->
  constraints_hold (with_room d r).
Proof.
  intros ((Hpolls & Hvotes) & Hledger & Hcodes) Hins.
  apply room_insertable_Data in Hins as (_ & _ & Hfresh).
  split; [|split; [done|]].
  - split; [|done]. intros p Hp. destruct (Hpolls p Hp) as (r0 & Hr0 & Heq).
    exists r0. split; [|done]. apply elem_of_app. by left.
  - intros code. cbn. rewrite filter_app, length_app.
    destruct (decide (code = room_code r)) as [->|Hne].
    + rewrite (filter_none (fun r0 => room_code r0 = room_code r) (rooms d)).
      * rewrite filter_cons, filter_nil. case_decide; cbn; lia.
      * intros r0 Hr0. by apply Hfresh.
    + specialize (Hcodes code). rewrite filter_cons, filter_nil.
      rewrite decide_False by done. cbn. lia.
Qed.

Lemma filter_length_le_filter {A} (P Q : A -> Prop)
    `{!forall x, Decision (P x)} `{!forall x, Decision (Q x)} (l : list A) :
  (length (filter P (filter Q l)) <= length (filter P l))%nat.
Proof.
  induction l as [|x l IH]; [done|].
  rewrite (filter_cons Q). destruct (decide (Q x)).
  - rewrite !filter_cons. destruct (decide (P x)); cbn; lia.
  - rewrite filter_cons. destruct (decide (P x)); cbn; lia.
Qed.

Lemma without_room_constraints d id :
  constraints_hold d -> constraints_hold (without_room d id).
Proof.
  intros ((Hpolls & Hvotes) & Hledger & Hcodes).
  split; [split|split].
  - intros p [Hp Hin]%list_elem_of_filter.
    destruct (Hpolls p Hin) as (r & Hr & Heq). exists r. split; [|done].
    apply list_elem_of_filter. split; [|done].
    destruct (uuid_eqb (room_id r) id) eqn:E; [|done].
    unfold Supabase.poll_of_room in Hp.
    rewrite uuid_eqb_sym in Heq.
    by rewrite (uuid_eqb_trans _ _ _ Heq E) in Hp.
  - intros v [Hv Hin]%list_elem_of_filter.
    destruct (Hvotes v Hin) as (p & Hp & Heq). exists p. split; [|done].
    apply list_elem_of_filter. split; [|done].
    destruct (Supabase.poll_of_room id p) eqn:E; [|done].
    unfold Supabase.vote_of_room in Hv. apply bool_decide_eq_false in Hv.
    exfalso. apply Hv. rewrite Exists_exists. by exists p.
  - intros pid sid. specialize (Hledger pid sid). cbn.
    pose proof (filter_length_le_filter
                  (fun v => Supabase.vote_matches pid sid v = true)
                  (fun v => Supabase.vote_of_room d id v = false) (votes d)). lia.
  - intros code. specialize (Hcodes code). cbn.
    pose proof (filter_length_le_filter
                  (fun r => room_code r = code)
                  (fun r => uuid_eqb (room_id r) id = false) (rooms d)). lia.
Qed.

Lemma DELETE_effect code w :
  db (RoomRoute.DELETE code w).2 = db w
  \/ exists room,
       room ∈ rooms (db w)
       /\ db (RoomRoute.DELETE code w).2 = without_room (db w) (room_id room).
Proof.
  unfold RoomRoute.DELETE. run_reply.
  destruct (Utils.validateRoomCode code); cbn; [|by left].
  destruct (Supabase.single _) as [room|c] eqn:Hs; cbn.
  - right. exists room. split; [|done].
    destruct (filter _ _) as [|x [|y l]] eqn:Hf; cbn in Hs; try done.
    injection Hs as ->.
    assert (room ∈ filter (fun r => String.eqb (room_code r)
                             (Utils.normalizeRoomCode code) = true) (rooms (db w)))
      as Hin by (rewrite Hf; apply list_elem_of_here).
    by apply list_elem_of_filter in Hin as [_ ?].
  - left. by destruct (String.eqb c _).
Qed.

Lemma generate_unique_code_effect random fuel attempts w :
  db (CreateRoomRoute.generate_unique_code random fuel attempts w).2 = db w
  /\ kv (CreateRoomRoute.generate_unique_code random fuel attempts w).2 = kv w.
Proof.
  revert attempts w. induction fuel as [|fuel IH]; intros attempts w;
    cbn [CreateRoomRoute.generate_unique_code]; run_reply.
  - destruct (Supabase.single _); cbn -[Nat.leb Nat.ltb]; [|done].
    destruct (_ <=? _)%nat; done.
  - destruct (Supabase.single _); cbn -[Nat.leb Nat.ltb]; [|done].
    destruct (_ <=? _)%nat; cbn -[Nat.leb Nat.ltb]; [done|].
    destruct (_ <? _)%nat; [|done].
    destruct (IH (S attempts)
                {| db := db w; kv := kv w;
                   db_calls := db_calls w
                     ++ [SelectRoom (Utils.generateRoomCode random (6 * attempts))] |})
      as [H1 H2]. done.
Qed.

Lemma CreateRoom_effect e random request w :
  db (CreateRoomRoute.POST e random request w).2 = db w
  \/ exists r,
       Supabase.room_insertable (db w) r = Supabase.Data r
       /\ db (CreateRoomRoute.POST e random request w).2 = with_room (db w) r.
Proof.
  unfold CreateRoomRoute.POST, CreateRoomRoute.request_json.
  unfold try_reply, bind, return_if, respond, pure, throw, Supabase.insert_room.
  destruct (CreateRoomRoute.body request) as [name|]; [|by left].
  destruct (_ && _); [by left|].
  pose proof (generate_unique_code_effect random CreateRoomRoute.maxAttempts 0 w)
    as [Hdb Hkv].
  destruct (CreateRoomRoute.generate_unique_code random _ 0 w) as [[code|resp|] w1];
    cbn [fst snd] in *; [|by left|by left].
  rewrite Hdb.
  destruct (Supabase.room_insertable (db w) _) as [r|c] eqn:Hins.
  - right. exists r.
    pose proof (room_insertable_Data _ _ _ Hins) as [-> _].
    split; [done|].
    match goal with
    | |- context [SessionManager.createSession ?e ?s ?c ?r ?w0] =>
        destruct (createSession_effect e s c r w0) as (H1 & _);
        destruct (SessionManager.createSession e s c r w0) as [[| |] w2]
    end; cbn in *; by rewrite H1.
  - by left.
Qed.

Lemma validateOptions_world t o w :
  (CreatePollRoute.validateOptions t o w).2 = w.
Proof.
  unfold CreatePollRoute.validateOptions, respond, pure.
  repeat match goal with
         | |- context [if ?b then _ else _] => destruct b
         | |- context [match ?x with _ => _ end] => destruct x
         end; done.
Qed.

Lemma CreatePoll_effect e request w :
  db (CreatePollRoute.POST e request w).2 = db w
  \/ exists p,
       Supabase.poll_insertable (db w) p = Supabase.Data p
       /\ db (CreatePollRoute.POST e request w).2 = with_poll (db w) p.
Proof.
  unfold CreatePollRoute.POST, CreatePollRoute.request_json,
    CreatePollRoute.select_room, CreatePollRoute.trim_question.
  unfold try_reply, bind, return_if, respond, pure, throw,
    Supabase.insert_poll, Supabase.select_room_by_id.
  destruct (CreatePollRoute.body request) as [b|]; [|by left].
  destruct (_ || _); [by left|].
  destruct (negb _); [by left|].
  pose proof (validateOptions_world
                (CreatePollRoute.as_string (CreatePollRoute.pollType b))
                (CreatePollRoute.options b) w) as Hw.
  destruct (CreatePollRoute.validateOptions _ _ w) as [[opts|resp|] w1];
    cbn [fst snd] in *; subst w1; [|by left|by left].
  destruct (CreatePollRoute.roomId b) as [| | | |rid|]; try by left.
  destruct (Supabase.single _) as [room|c]; [|by left].
  destruct (CreatePollRoute.question b) as [| | | |q|]; try by left.
  cbn [CreatePollRoute.as_string].
  destruct (Supabase.poll_insertable (db w) _) as [p|c] eqn:Hins; [|by left].
  right. exists p.
  pose proof (poll_insertable_Data _ _ _ Hins) as [-> _].
  split; [done|].
  match goal with
  | |- context [SessionManager.createSession ?e ?s ?c ?r ?w0] =>
      destruct (createSession_effect e s c r w0) as (H1 & _);
      destruct (SessionManager.createSession e s c r w0) as [[| |] w2]
  end; cbn in *; by rewrite H1.
Qed.

(** X18.  The handlers that write keep the constraints of the schema.
    If every poll has its room, every vote its poll, no (poll, session)
    pair two votes and no code two rooms, the same holds after a vote,
    after the creation of a poll, after the creation of a room and
    after the deletion of a room, whatever the request. *)
Theorem handlers_keep_the_constraints w :
  constraints_hold (db w) ->
  (forall e request, constraints_hold (db (VoteRoute.POST e request w).2))
  /\ (forall e request, constraints_hold (db (CreatePollRoute.POST e request w).2))
  /\ (forall e random request,
        constraints_hold (db (CreateRoomRoute.POST e random request w).2))
  /\ (forall code, constraints_hold (db (RoomRoute.DELETE code w).2)).
Proof.
  intros Hw. split; [|split; [|split]].
  - intros e request.
    destruct (POST_effect e request w) as [[-> _]|(c & Hins & ->)]; [done|].
    by apply with_vote_constraints.
  - intros e request.
    destruct (CreatePoll_effect e request w) as [->|(p & Hins & ->)]; [done|].
    by apply with_poll_constraints.
  - intros e random request.
    destruct (CreateRoom_effect e random request w) as [->|(r & Hins & ->)]; [done|].
    by apply with_room_constraints.
  - intros code.
    destruct (DELETE_effect code w) as [->|(room & _ & ->)]; [done|].
    by apply without_room_constraints.
Qed.

Lemma example_constraints_hold : constraints_hold (db Example.voted).
Proof.
  split; [split|split].
  - intros p Hp%list_elem_of_singleton. subst p.
    exists Example.open_room. split; [apply list_elem_of_here | reflexivity].
  - intros v Hv%list_elem_of_singleton. subst v.
    exists (Example.yes_no true). split; [apply list_elem_of_here | reflexivity].
  - by apply (single_row_ledger_unique _ (Example.ballot "yes" 1)).
  - intros code. change (rooms (db Example.voted)) with [Example.open_room].
    rewrite filter_cons, filter_nil. case_decide; cbn; lia.
Qed.

Lemma handlers_keep_the_constraints_witness :
  constraints_hold (db (RoomRoute.DELETE "ABC123" Example.voted).2)
  /\ constraints_hold
       (db (VoteRoute.POST Example.later
              (Example.vote Example.poll_uuid "no" "session-2") Example.voted).2).
Proof.
  destruct (handlers_keep_the_constraints Example.voted example_constraints_hold)
    as (Hvote & _ & _ & Hdelete).
  split; [apply Hdelete | apply Hvote].
Defined.

(* ===================================================================== *)
(** ** The deletion of a room *)
(* ===================================================================== *)

Lemma no_elements {A} (l : list A) : (forall x, x ∉ l) -> l = [].
Proof. destruct l as [|x l]; [done|]. intros H. destruct (H x). apply list_elem_of_here. Qed.

Lemma filter_comm {A} (P Q : A -> Prop)
    `{!forall x, Decision (P x)} `{!forall x, Decision (Q x)} (l : list A) :
  filter P (filter Q l) = filter Q (filter P l).
Proof.
  induction l as [|x l IH]; [done|].
  rewrite (filter_cons Q), (filter_cons P).
  destruct (decide (Q x)), (decide (P x));
    rewrite ?filter_cons, ?decide_True, ?decide_False by done; by rewrite IH.
Qed.

Lemma elem_of_poll_rows d id p r :
  (p, r) ∈ Supabase.poll_rows d id
  <-> p ∈ polls d /\ uuid_eqb (poll_id p) id = true
      /\ r ∈ rooms d /\ uuid_eqb (room_id r) (poll_room_id p) = true.
Proof.
  unfold Supabase.poll_rows. rewrite list_elem_of_bind. split.
  - intros (p' & Hr & Hp'). apply list_elem_of_filter in Hp' as [Hid Hp'].
    apply list_elem_of_bind in Hr as (r' & Heq & Hr').
    apply list_elem_of_singleton in Heq. injection Heq as -> ->.
    apply list_elem_of_filter in Hr' as [Hrid Hr']. done.
  - intros (Hp & Hid & Hr & Hrid). exists p. split.
    + apply list_elem_of_bind. exists r. split; [apply list_elem_of_here|].
      by apply list_elem_of_filter.
    + by apply list_elem_of_filter.
Qed.

Lemma pairs_filter {A B} (F : A -> Prop) (Q : B -> Prop)
    `{!forall x, Decision (F x)} `{!forall y, Decision (Q y)} (p : A) (m : list B) :
  filter (fun pr : A * B => F pr.1 /\ Q pr.2) (m ≫= fun r => [(p, r)])
  = if decide (F p) then filter Q m ≫= (fun r => [(p, r)]) else [].
Proof.
  induction m as [|r m IH]; [by destruct (decide (F p))|].
  cbn [mbind list_bind app]. rewrite filter_cons. cbn [fst snd]. rewrite IH.
  rewrite (filter_cons Q).
  destruct (decide (F p)), (decide (Q r)).
  - rewrite decide_True by done. done.
  - rewrite decide_False by tauto. done.
  - rewrite decide_False by tauto. done.
  - rewrite decide_False by tauto. done.
Qed.

Lemma rows_filter {A B} (F Pid : A -> Prop) (Q : B -> Prop) (R : A -> B -> Prop)
    `{!forall x, Decision (F x)} `{!forall x, Decision (Pid x)}
    `{!forall y, Decision (Q y)} `{!forall x y, Decision (R x y)}
    (l : list A) (m : list B) :
  filter Pid (filter F l) ≫= (fun p => filter (R p) (filter Q m) ≫= fun r => [(p, r)])
  = filter (fun pr : A * B => F pr.1 /\ Q pr.2)
      (filter Pid l ≫= (fun p => filter (R p) m ≫= fun r => [(p, r)])).
Proof.
  induction l as [|p l IH]; [done|].
  rewrite (filter_cons F), (filter_cons Pid p l).
  destruct (decide (F p)) as [HF|HF], (decide (Pid p)) as [HP|HP].
  - rewrite filter_cons, decide_True by done.
    cbn [mbind list_bind]. rewrite filter_app, <- IH. f_equal.
    rewrite pairs_filter, decide_True by done. f_equal.
    clear. induction m as [|r m IHm]; [done|].
    rewrite (filter_cons Q), (filter_cons (R p) r m).
    destruct (decide (Q r)), (decide (R p r));
      rewrite ?filter_cons, ?decide_True, ?decide_False by done; by rewrite IHm.
  - rewrite filter_cons, decide_False by done. apply IH.
  - cbn [mbind list_bind]. rewrite filter_app, <- IH.
    rewrite pairs_filter, decide_False by done. done.
  - apply IH.
Qed.

Lemma poll_rows_without_room d id rid :
  Supabase.poll_rows (without_room d rid) id
  = filter (fun pr => Supabase.poll_of_room rid pr.1 = false
                      /\ uuid_eqb (room_id pr.2) rid = false)
           (Supabase.poll_rows d id).
Proof.
  unfold Supabase.poll_rows, without_room. cbn [polls rooms].
  exact (rows_filter (fun p => Supabase.poll_of_room rid p = false)
           (fun p => uuid_eqb (poll_id p) id = true)
           (fun r => uuid_eqb (room_id r) rid = false)
           (fun p r => uuid_eqb (room_id r) (poll_room_id p) = true)
           (polls d) (rooms d)).
Qed.

Lemma filter_filter_id {A} (P Q : A -> Prop)
    `{!forall x, Decision (P x)} `{!forall x, Decision (Q x)} (l : list A) :
  (forall x, x ∈ l -> P x -> Q x) -> filter P (filter Q l) = filter P l.
Proof.
  induction l as [|x l IH]; intros Hall; [done|].
  assert (filter P (filter Q l) = filter P l) as IH'.
  { apply IH. intros y Hy. by apply Hall, list_elem_of_further. }
  rewrite (filter_cons Q), (filter_cons P x l).
  destruct (decide (P x)) as [HP|HP].
  - rewrite decide_True by (apply Hall; [apply list_elem_of_here | done]).
    by rewrite filter_cons, decide_True, IH'.
  - destruct (decide (Q x)); [|done]. by rewrite filter_cons, decide_False.
Qed.

Lemma DELETE_found code w room :
  Utils.validateRoomCode code = true ->
  filter (fun r => String.eqb (room_code r) code = true) (rooms (db w)) = [room] ->
  RoomRoute.DELETE code w
  = (Succeeded 200 "Room deleted successfully",
     {| db := without_room (db w) (room_id room); kv := kv w;
        db_calls := db_calls w ++ [SelectRoom code] |}).
Proof.
  intros Hv Hrows. unfold RoomRoute.DELETE. run_reply.
  rewrite Hv, (normalize_valid_code code Hv). cbn. rewrite Hrows. done.
Qed.

Lemma room_gone d code room :
  filter (fun r => String.eqb (room_code r) code = true) (rooms d) = [room] ->
  filter (fun r => String.eqb (room_code r) code = true)
         (rooms (without_room d (room_id room))) = [].
Proof.
  intros Hrows. cbn [without_room rooms]. rewrite filter_comm, Hrows.
  rewrite filter_cons, filter_nil, decide_False; [done|].
  unfold uuid_eqb. by rewrite String.eqb_refl.
Qed.

Lemma poll_gone d id p r rid :
  Supabase.poll_rows d id = [(p, r)] ->
  Supabase.poll_of_room rid p = true ->
  Supabase.poll_rows (without_room d rid) id = [].
Proof.
  intros Hrows Hp. rewrite poll_rows_without_room, Hrows.
  rewrite filter_cons, filter_nil, decide_False; [done|]. cbn. rewrite Hp.
  intros [? _]. done.
Qed.

Lemma poll_kept d id p r rid :
  Supabase.poll_rows d id = [(p, r)] ->
  Supabase.poll_of_room rid p = false ->
  Supabase.poll_rows (without_room d rid) id = [(p, r)].
Proof.
  intros Hrows Hp. rewrite poll_rows_without_room, Hrows.
  rewrite filter_cons, filter_nil, decide_True; [done|]. cbn. split; [done|].
  assert ((p, r) ∈ Supabase.poll_rows d id) as Hin
    by (rewrite Hrows; apply list_elem_of_here).
  apply elem_of_poll_rows in Hin as (_ & _ & _ & Hr).
  destruct (uuid_eqb (room_id r) rid) eqn:E; [|done].
  unfold Supabase.poll_of_room in Hp. rewrite uuid_eqb_sym in Hr.
  by rewrite (uuid_eqb_trans _ _ _ Hr E) in Hp.
Qed.

Lemma votes_kept d id p r room :
  room ∈ rooms d ->
  Supabase.poll_rows d id = [(p, r)] ->
  Supabase.poll_of_room (room_id room) p = false ->
  filter (fun v => uuid_eqb (vote_poll_id v) id = true)
         (votes (without_room d (room_id room)))
  = filter (fun v => uuid_eqb (vote_poll_id v) id = true) (votes d).
Proof.
  intros Hroom Hrows Hp. cbn [without_room votes].
  apply filter_filter_id. intros v Hv Hid.
  unfold Supabase.vote_of_room. apply bool_decide_eq_false.
  rewrite Exists_exists. intros (p' & Hp' & Hof & Hpid).
  assert ((p', room) ∈ Supabase.poll_rows d id) as Hin.
  { apply elem_of_poll_rows. split; [done|].
    split; [by apply (uuid_eqb_trans _ _ _ Hpid)|]. split; [done|].
    unfold Supabase.poll_of_room in Hof. by rewrite uuid_eqb_sym. }
  rewrite Hrows in Hin. apply list_elem_of_singleton in Hin. injection Hin as -> ->.
  by rewrite Hp in Hof.
Qed.

Lemma GET_room_not_found e code sid w :
  Utils.validateRoomCode code = true ->
  filter (fun r => String.eqb (room_code r) code = true) (rooms (db w)) = [] ->
  (RoomRoute.GET e code sid w).1 = RoomRoute.room_not_found.
Proof.
  intros Hv Hrows. unfold RoomRoute.GET. run_handler.
  rewrite Hv, (normalize_valid_code code Hv). cbn. by rewrite Hrows.
Qed.

Lemma GET_results_not_found e id w :
  UuidRegex.test id = true -> Supabase.poll_rows (db w) id = [] ->
  (ResultsRoute.GET e id w).1 = ResultsRoute.poll_not_found.
Proof.
  intros Hid Hrows. unfold ResultsRoute.GET. run_handler.
  rewrite Hid. cbn. by rewrite Hrows.
Qed.

Lemma GET_poll_not_found e id sid w :
  UuidRegex.test id = true -> Supabase.poll_rows (db w) id = [] ->
  (PollRoute.GET e id sid w).1 = Failed PollRoute.poll_not_found.
Proof.
  intros Hid Hrows. unfold PollRoute.GET. run_reply.
  rewrite Hid. cbn. by rewrite Hrows.
Qed.

Lemma POST_vote_not_found e request c w :
  VoteRoute.body request = Some (Js.Str c) -> c <> "" ->
  UuidRegex.test (VoteRoute.params_id request) = true ->
  Supabase.poll_rows (db w) (VoteRoute.params_id request) = [] ->
  (VoteRoute.POST e request w).1 = VoteRoute.poll_not_found.
Proof.
  intros Hbody Hc Hid Hrows. unfold VoteRoute.POST. run_handler.
  rewrite Hbody, Hid. cbn. apply String.eqb_neq in Hc. rewrite Hc. cbn.
  by rewrite Hrows.
Qed.

(** X19.  Deleting a room deletes the room, its polls and their votes,
    and nothing else.  After the deletion of the room of a valid code,
    a lookup of the code answers 404; for a poll that belonged to the
    room, the results handler, the poll handler and the vote handler
    answer 404; a poll of another room still resolves to the same rows
    and keeps its votes.  The session store is not touched. *)
Theorem deleted_room_is_gone_with_its_polls code w room :
  Utils.validateRoomCode code = true ->
  filter (fun r => String.eqb (room_code r) code = true) (rooms (db w)) = [room] ->
  RoomRoute.DELETE code w
  = (Succeeded 200 "Room deleted successfully",
     {| db := without_room (db w) (room_id room); kv := kv w;
        db_calls := db_calls w ++ [SelectRoom code] |})
  /\ (forall e sid,
        (RoomRoute.GET e code sid (RoomRoute.DELETE code w).2).1
        = RoomRoute.room_not_found)
  /\ (forall id p r,
        UuidRegex.test id = true -> resolves w id p r ->
        if Supabase.poll_of_room (room_id room) p
        then (forall e, (ResultsRoute.GET e id (RoomRoute.DELETE code w).2).1
                        = ResultsRoute.poll_not_found)
             /\ (forall e sid, (PollRoute.GET e id sid (RoomRoute.DELETE code w).2).1
                               = Failed PollRoute.poll_not_found)
             /\ (forall e request c,
                   VoteRoute.params_id request = id ->
                   VoteRoute.body request = Some (Js.Str c) -> c <> "" ->
                   (VoteRoute.POST e request (RoomRoute.DELETE code w).2).1
                   = VoteRoute.poll_not_found)
        else resolves (RoomRoute.DELETE code w).2 id p r
             /\ fetched_votes (RoomRoute.DELETE code w).2 id = fetched_votes w id).
Proof.
  intros Hv Hrows. rewrite (DELETE_found code w room Hv Hrows). cbn [snd].
  split; [done|]. split.
  - intros e sid. apply GET_room_not_found; [done|]. cbn [db].
    by apply room_gone.
  - intros id p r Hid Hres.
    destruct (Supabase.poll_of_room (room_id room) p) eqn:Hof.
    + assert (Supabase.poll_rows (without_room (db w) (room_id room)) id = [])
        as Hgone by (by apply (poll_gone _ _ p r)).
      split; [|split].
      * intros e. by apply GET_results_not_found.
      * intros e sid. by apply GET_poll_not_found.
      * intros e request c <- Hbody Hc. by apply (POST_vote_not_found e request c).
    + split.
      * unfold resolves. cbn [db]. by apply poll_kept.
      * unfold fetched_votes. cbn [db]. apply (votes_kept _ _ p r); [|done..].
        assert (room ∈ filter (fun r0 => String.eqb (room_code r0) code = true)
                         (rooms (db w))) as Hin
          by (rewrite Hrows; apply list_elem_of_here).
        by apply list_elem_of_filter in Hin as [_ ?].
Qed.

Lemma deleted_room_is_gone_with_its_polls_witness :
  (RoomRoute.GET Example.env "ABC123" None
     (RoomRoute.DELETE "ABC123" Example.voted).2).1
  = RoomRoute.room_not_found
  /\ (ResultsRoute.GET Example.env Example.poll_uuid
        (RoomRoute.DELETE "ABC123" Example.voted).2).1
     = ResultsRoute.poll_not_found.
Proof.
  destruct (deleted_room_is_gone_with_its_polls "ABC123" Example.voted
              Example.open_room) as (_ & Hroom & Hpolls);
    [reflexivity | reflexivity |].
  split; [apply Hroom|].
  specialize (Hpolls Example.poll_uuid (Example.yes_no true) Example.open_room
                eq_refl eq_refl).
  cbn in Hpolls. apply Hpolls.
Defined.

(* ===================================================================== *)
(** ** The lookup of polls and rooms *)
(* ===================================================================== *)

Lemma room_open_expired e r :
  room_open e r = negb (Utils.isRoomExpired (now e) (room_expires_at r)).
Proof.
  unfold room_open, Utils.isRoomExpired. destruct (room_expires_at r); [|done].
  destruct (Z.leb_spec (now e) z), (Z.ltb_spec z (now e)); cbn; lia || done.
Qed.



Lemma newest_first_total : Total Supabase.newest_first.
Proof. intros p q. unfold Supabase.newest_first. lia. Qed.

Lemma newest_first_trans : Transitive Supabase.newest_first.
Proof. intros p q r. unfold Supabase.newest_first. lia. Qed.

(** X21.  The list of the polls of a room holds exactly the active
    polls of the room, each as often as it is stored, ordered from the
    newest to the oldest.  The code is taken in any case: the request
    for a code and for its upper-case form are answered alike. *)
Theorem room_polls_are_active_newest_first e code w room :
  filter (fun r => String.eqb (room_code r) (Js.toUpperCase code) = true)
         (rooms (db w)) = [room] ->
  room_open e room = true ->
  exists listed,
    RoomPollsRoute.GET e code w
    = (Succeeded 200 listed, logged w [SelectRoom (Js.toUpperCase code)])
    /\ listed ≡ₚ filter (fun p => uuid_eqb (poll_room_id p) (room_id room) = true
                                  /\ poll_is_active p = true) (polls (db w))
    /\ StronglySorted Supabase.newest_first listed
    /\ RoomPollsRoute.GET e (Js.toUpperCase code) w = RoomPollsRoute.GET e code w.
Proof.
  intros Hrows (t & Hexp & Hnow)%room_open_true.
  eexists. split; [|split; [|split]].
  - unfold RoomPollsRoute.GET. run_reply. rewrite Hrows. cbn. rewrite Hexp.
    replace (t <? now e) with false by lia. cbn. reflexivity.
  - apply merge_sort_Permutation.
  - apply StronglySorted_merge_sort;
      [apply newest_first_trans | apply newest_first_total].
  - unfold RoomPollsRoute.GET. by rewrite toUpperCase_idemp.
Qed.

Lemma room_polls_are_active_newest_first_witness :
  exists listed,
    RoomPollsRoute.GET Example.env "abc123" Example.voted
    = (Succeeded 200 listed, logged Example.voted [SelectRoom "ABC123"])
    /\ listed ≡ₚ [Example.yes_no true].
Proof.
  destruct (room_polls_are_active_newest_first Example.env "abc123" Example.voted
              Example.open_room) as (listed & Hget & Hperm & _);
    [reflexivity | reflexivity |].
  exists listed. split; [exact Hget | exact Hperm].
Defined.

Lemma GET_room_found e code sid w room :
  Utils.validateRoomCode code = true ->
  filter (fun r => String.eqb (room_code r) code = true) (rooms (db w)) = [room] ->
  RoomRoute.GET e code sid w
  = (if Utils.isRoomExpired (now e) (room_expires_at room)
     then (RoomRoute.room_expired, logged w [SelectRoom code])
     else match kv_status (kv w) with
          | KvUnconfigured =>
              (ok 200 (RoomData (room_id room) (room_code room) (room_name room)
                         (room_created_at room) (room_expires_at room) false),
               logged w [SelectRoom code])
          | KvAvailable =>
              (ok 200 (RoomData (room_id room) (room_code room) (room_name room)
                         (room_created_at room) (room_expires_at room) false),
               with_session e (logged w [SelectRoom code])
                 (Js.or_string sid (randomUUID e)) code participant)
          | KvUnreachable =>
              (RoomRoute.internal_error, logged w [SelectRoom code])
          end).
Proof.
  intros Hv Hrows. unfold RoomRoute.GET. run_handler.
  rewrite Hv, (normalize_valid_code code Hv). cbn. rewrite Hrows. cbn.
  destruct (Utils.isRoomExpired _ _); cbn; [done|].
  unfold SessionManager.createSession. cbn.
  destruct (kv_status (kv w)); done.
Qed.

(** X26.  The lookup of a stored room that has not expired never
    changes the database.  With the session store available it answers
    200 and stores a participant session for the room under the session
    identifier of the request; without a configured store it answers
    200 and stores nothing; if the store rejects, it answers 500. *)
Theorem room_lookup_registers_the_visitor e code sid w room :
  Utils.validateRoomCode code = true ->
  filter (fun r => String.eqb (room_code r) code = true) (rooms (db w)) = [room] ->
  Utils.isRoomExpired (now e) (room_expires_at room) = false ->
  db (RoomRoute.GET e code sid w).2 = db w
  /\ match kv_status (kv w) with
     | KvUnconfigured =>
         (RoomRoute.GET e code sid w).1
         = ok 200 (RoomData (room_id room) (room_code room) (room_name room)
                     (room_created_at room) (room_expires_at room) false)
         /\ kv (RoomRoute.GET e code sid w).2 = kv w
     | KvAvailable =>
         (RoomRoute.GET e code sid w).1
         = ok 200 (RoomData (room_id room) (room_code room) (room_name room)
                     (room_created_at room) (room_expires_at room) false)
         /\ stored_session (RoomRoute.GET e code sid w).2
              (Js.or_string sid (randomUUID e))
            = Some (new_session e (Js.or_string sid (randomUUID e)) code participant)
     | KvUnreachable =>
         (RoomRoute.GET e code sid w).1 = RoomRoute.internal_error
         /\ kv (RoomRoute.GET e code sid w).2 = kv w
     end.
Proof.
  intros Hv Hrows Hexp. rewrite (GET_room_found e code sid w room Hv Hrows), Hexp.
  destruct (kv_status (kv w)); cbn; (split; [done|]); split; try done.
  unfold stored_session. cbn. by rewrite lookup_insert_eq.
Qed.

Lemma room_lookup_registers_the_visitor_witness :
  stored_session (RoomRoute.GET Example.env "ABC123" (Some "session-9")
                    Example.voted).2 "session-9"
  = Some (new_session Example.env "session-9" "ABC123" participant).
Proof.
  destruct (room_lookup_registers_the_visitor Example.env "ABC123"
              (Some "session-9") Example.voted Example.open_room)
    as [_ H]; [reflexivity | reflexivity | reflexivity |].
  cbn [Example.voted Example.world kv kv_status] in H. apply H.
Defined.

(* ===================================================================== *)
(** ** The creation of a poll *)
(* ===================================================================== *)

Lemma createSession_Value e sid code r w :
  (SessionManager.createSession e sid code r w).1 = Value tt
  <-> kv_status (kv w) <> KvUnreachable.
Proof.
  unfold SessionManager.createSession. destruct (kv_status (kv w)); cbn; split; done.
Qed.


Lemma CreatePoll_success e request w st poll :
  (CreatePollRoute.POST e request w).1 = Succeeded st poll ->
  exists b rid q t opts room,
    CreatePollRoute.body request = Some b
    /\ CreatePollRoute.roomId b = Js.Str rid
    /\ CreatePollRoute.question b = Js.Str q /\ q <> ""
    /\ CreatePollRoute.pollType b = Js.Str t
    /\ t ∈ CreatePollRoute.validPollTypes
    /\ (CreatePollRoute.validateOptions t (CreatePollRoute.options b) w).1 = Value opts
    /\ filter (fun r => uuid_eqb (room_id r) rid = true) (rooms (db w)) = [room]
    /\ poll = inserted_poll e rid (Js.trim q) t opts
    /\ Supabase.poll_insertable (db w) poll = Supabase.Data poll
    /\ db (CreatePollRoute.POST e request w).2 = with_poll (db w) poll
    /\ kv_status (kv w) <> KvUnreachable
    /\ kv_status (kv (CreatePollRoute.POST e request w).2) = kv_status (kv w)
    /\ st = 201.
Proof.
  unfold CreatePollRoute.POST, CreatePollRoute.request_json,
    CreatePollRoute.select_room, CreatePollRoute.trim_question.
  unfold try_reply, bind, return_if, respond, pure, throw,
    Supabase.insert_poll, Supabase.select_room_by_id.
  destruct (CreatePollRoute.body request) as [b|] eqn:Hbody; [|done].
  destruct (Js.truthy (CreatePollRoute.roomId b)) eqn:Hrid; [|done].
  destruct (Js.truthy (CreatePollRoute.question b)) eqn:Hq; [|done].
  destruct (Js.truthy (CreatePollRoute.pollType b)) eqn:Ht; [|done].
  cbn [negb orb].
  destruct (CreatePollRoute.is_valid_type (CreatePollRoute.pollType b)) eqn:Hvalid;
    [|done].
  cbn [negb].
  pose proof (validateOptions_world
                (CreatePollRoute.as_string (CreatePollRoute.pollType b))
                (CreatePollRoute.options b) w) as Hw.
  destruct (CreatePollRoute.validateOptions _ _ w) as [[opts|resp|] w1] eqn:Hopts;
    cbn [fst snd] in *; subst w1; [|done|done].
  destruct (CreatePollRoute.roomId b) as [| | | |rid|] eqn:Eroom; try done.
  destruct (Supabase.single _) as [room|c] eqn:Hroom; [|done].
  apply single_Data in Hroom.
  destruct (CreatePollRoute.question b) as [| | | |q|] eqn:Equestion; try done.
  destruct (CreatePollRoute.pollType b) as [| | | |t|] eqn:Etype; try done.
  cbn [CreatePollRoute.as_string] in *.
  fold (inserted_poll e rid (Js.trim q) t opts).
  destruct (Supabase.poll_insertable (db w) _) as [p|c] eqn:Hins; [|done].
  pose proof (poll_insertable_Data _ _ _ Hins) as [-> _].
  match goal with
  | |- context [SessionManager.createSession ?e ?s ?c ?r ?w0] =>
      destruct (createSession_effect e s c r w0) as (H1 & H2 & _);
      pose proof (createSession_Value e s c r w0) as H3;
      destruct (SessionManager.createSession e s c r w0) as [[[]| |] w2]
  end; cbn [fst snd db kv] in *; [|done..].
  intros [= <- <-]. exists b, rid, q, t, opts, room.
  split; [done|]. split; [done|]. split; [done|].
  split; [by destruct q|]. split; [done|].
  split; [by apply bool_decide_eq_true in Hvalid|].
  split; [by rewrite Hopts|]. split; [done|]. split; [done|]. split; [done|].
  split; [by rewrite H1|]. split; [by apply H3|]. split; [by rewrite H2 | done].
Qed.

Lemma uuid_eqb_refl a : uuid_eqb a a = true.
Proof. unfold uuid_eqb. apply String.eqb_refl. Qed.

Lemma filter_ext_bool {A} (f g : A -> bool) (l : list A) :
  (forall x, f x = g x) ->
  filter (fun x => f x = true) l = filter (fun x => g x = true) l.
Proof.
  intros H. induction l as [|x l IH]; [done|].
  rewrite !filter_cons, IH. destruct (decide (f x = true)) as [Hf|Hf].
  - rewrite decide_True by (by rewrite <- H). done.
  - rewrite decide_False by (by rewrite <- H). done.
Qed.

Lemma GET_poll_resolved e id sid w p r :
  UuidRegex.test id = true -> resolves w id p r ->
  (PollRoute.GET e id sid w).1
  = if room_open e r
    then match kv_status (kv w) with
         | KvUnreachable => Failed PollRoute.internal_error
         | _ => Succeeded 200 (p, room_ref r)
         end
    else Failed PollRoute.room_expired.
Proof.
  intros Hid Hrows. unfold PollRoute.GET, room_open. run_reply.
  rewrite Hid. cbn. rewrite Hrows. cbn.
  destruct (room_expires_at r) as [t|] eqn:Hexp; cbn; [|done].
  destruct (Z.ltb_spec t (now e)), (Z.leb_spec (now e) t); cbn; try lia; [done|].
  unfold SessionManager.createSession. cbn [kv].
  destruct (kv_status (kv w)); cbn; unfold room_ref; by rewrite ?Hexp.
Qed.



Lemma poll_rows_with_poll d poll room :
  Supabase.poll_insertable d poll = Supabase.Data poll ->
  filter (fun r => uuid_eqb (room_id r) (poll_room_id poll) = true) (rooms d) = [room] ->
  Supabase.poll_rows (with_poll d poll) (poll_id poll) = [(poll, room)].
Proof.
  intros (_ & Hfresh & _)%poll_insertable_Data Hroom.
  unfold Supabase.poll_rows, with_poll. cbn [polls rooms].
  rewrite filter_app, (filter_none _ (polls d)).
  2: { intros p0 Hp0. rewrite (Hfresh p0 Hp0). done. }
  rewrite filter_cons, filter_nil, decide_True by apply uuid_eqb_refl.
  cbn. rewrite Hroom. done.
Qed.

Lemma fetched_votes_of_new_poll d poll :
  references_hold d ->
  Supabase.poll_insertable d poll = Supabase.Data poll ->
  filter (fun v => uuid_eqb (vote_poll_id v) (poll_id poll) = true) (votes d) = [].
Proof.
  intros [_ Hvotes] (_ & Hfresh & _)%poll_insertable_Data.
  apply filter_none. intros v Hv Heq.
  destruct (Hvotes v Hv) as (p0 & Hp0 & Hp0v).
  pose proof (Hfresh p0 Hp0) as Hne.
  by rewrite (uuid_eqb_trans _ _ _ Hp0v Heq) in Hne.
Qed.

(** X23.  A created poll is found.  After a 201 of the creation
    handler, the identifier of the poll resolves to the poll in its
    room; the poll handler returns it while the room has not expired
    and answers 410 afterwards (the creation does not look at the
    expiration).  If the foreign keys held before, the poll has no
    votes: the results handler reports a total of 0. *)
Theorem created_poll_is_found e request w poll :
  (CreatePollRoute.POST e request w).1 = Succeeded 201 poll ->
  UuidRegex.test (poll_id poll) = true ->
  exists room,
    room ∈ rooms (db w)
    /\ resolves (CreatePollRoute.POST e request w).2 (poll_id poll) poll room
    /\ (forall e' sid,
          (PollRoute.GET e' (poll_id poll) sid (CreatePollRoute.POST e request w).2).1
          = if room_open e' room
            then Succeeded 200 (poll, room_ref room)
            else Failed PollRoute.room_expired)
    /\ (references_hold (db w) ->
        fetched_votes (CreatePollRoute.POST e request w).2 (poll_id poll) = []
        /\ forall e', room_open e' room = true ->
             results_of (ResultsRoute.GET e' (poll_id poll)
                           (CreatePollRoute.POST e request w).2).1
             = Some (0%nat, (ResultsRoute.calculate poll []).2)).
Proof.
  intros Hpost Hid.
  destruct (CreatePoll_success e request w 201 poll Hpost)
    as (b & rid & q & t & opts & room & _ & _ & _ & _ & _ & _ & _ & Hroom & Hpoll
        & Hins & Hdb & Hkv & Hkv' & _).
  assert (filter (fun r => uuid_eqb (room_id r) (poll_room_id poll) = true)
                 (rooms (db w)) = [room]) as Hroom'.
  { rewrite <- Hroom, Hpoll. cbn [inserted_poll poll_room_id].
    apply filter_ext_bool. intros r. apply uuid_eqb_lower_r. }
  assert (resolves (CreatePollRoute.POST e request w).2 (poll_id poll) poll room)
    as Hres.
  { unfold resolves. rewrite Hdb. by apply poll_rows_with_poll. }
  exists room. split; [|split; [done|split]].
  - assert (room ∈ filter (fun r => uuid_eqb (room_id r) rid = true) (rooms (db w)))
      as Hin by (rewrite Hroom; apply list_elem_of_here).
    by apply list_elem_of_filter in Hin as [_ ?].
  - intros e' sid. rewrite (GET_poll_resolved e' _ sid _ poll room Hid Hres).
    rewrite Hkv'. destruct (room_open e' room); [|done].
    by destruct (kv_status (kv w)).
  - intros Href.
    assert (fetched_votes (CreatePollRoute.POST e request w).2 (poll_id poll) = [])
      as Hnone.
    { unfold fetched_votes. rewrite Hdb. cbn [with_poll votes].
      by apply fetched_votes_of_new_poll. }
    split; [done|]. intros e' Hopen.
    rewrite (GET_results_resolved e' _ _ poll room Hid Hres Hopen). cbn.
    by rewrite Hnone.
Qed.

Lemma created_poll_is_found_witness :
  (PollRoute.GET Example.later "00000000-0000-0000-0000-00000000ffff" None
     (CreatePollRoute.POST Example.env Scenario.rating_poll Example.voted).2).1
  = Succeeded 200 (Scenario.created_rating_poll, room_ref Example.open_room).
Proof.
  destruct (created_poll_is_found Example.env Scenario.rating_poll Example.voted
              Scenario.created_rating_poll) as (room & Hin & _ & Hget & _);
    [vm_compute; reflexivity | reflexivity |].
  apply list_elem_of_singleton in Hin. subst room.
  apply (Hget Example.later None).
Defined.

(* ===================================================================== *)
(** ** The creation of a room *)
(* ===================================================================== *)

Lemma generate_unique_code_step random fuel attempts w :
  CreateRoomRoute.generate_unique_code random fuel attempts w
  = match Supabase.single
            (filter (fun r => String.eqb (room_code r) (candidate random attempts) = true)
                    (rooms (db w))) with
    | Supabase.Error _ =>
        (Value (candidate random attempts),
         logged w [SelectRoom (candidate random attempts)])
    | Supabase.Data _ =>
        if (CreateRoomRoute.maxAttempts <=? S attempts)%nat
        then (Return CreateRoomRoute.no_unique_code,
              logged w [SelectRoom (candidate random attempts)])
        else match fuel with
             | S fuel' =>
                 CreateRoomRoute.generate_unique_code random fuel' (S attempts)
                   (logged w [SelectRoom (candidate random attempts)])
             | O => (Value (candidate random attempts),
                     logged w [SelectRoom (candidate random attempts)])
             end
    end.
Proof.
  destruct fuel as [|fuel]; cbn [CreateRoomRoute.generate_unique_code];
    unfold Supabase.select_room, Supabase.log, bind, return_if, respond, pure,
      candidate, logged; cbn [db kv db_calls];
    destruct (Supabase.single _); try done;
    destruct (CreateRoomRoute.maxAttempts <=? S attempts)%nat eqn:Hmax; try done.
  assert ((S attempts <? CreateRoomRoute.maxAttempts)%nat = true) as ->; [|done].
  apply Nat.ltb_lt. apply Nat.leb_gt in Hmax. done.
Qed.

Lemma logged_logged w l1 l2 : logged (logged w l1) l2 = logged w (l1 ++ l2).
Proof. unfold logged. cbn. by rewrite app_assoc. Qed.

Lemma generate_unique_code_spec random fuel attempts w :
  (attempts < CreateRoomRoute.maxAttempts)%nat ->
  exists n,
    (1 <= n <= CreateRoomRoute.maxAttempts - attempts)%nat
    /\ (CreateRoomRoute.generate_unique_code random fuel attempts w).2
       = logged w (candidate_lookups random attempts n)
    /\ match (CreateRoomRoute.generate_unique_code random fuel attempts w).1 with
       | Value code => exists k, code = candidate random k
       | Return r => r = CreateRoomRoute.no_unique_code
       | Throw => False
       end.
Proof.
  revert attempts w. induction fuel as [|fuel IH]; intros attempts w Hlt;
    rewrite generate_unique_code_step.
  - exists 1%nat. split; [lia|].
    destruct (Supabase.single _); [destruct (_ <=? _)%nat|]; cbn;
      (split; [done|]); eauto.
  - destruct (Supabase.single _).
    2: { exists 1%nat. split; [lia|]. split; [done|]. cbn. eauto. }
    destruct (Nat.leb_spec CreateRoomRoute.maxAttempts (S attempts)) as [Hle|Hgt].
    { exists 1%nat. split; [lia|]. split; done. }
    destruct (IH (S attempts) (logged w [SelectRoom (candidate random attempts)]) Hgt)
      as (n & Hn & Hlog & Hout).
    exists (S n). split; [lia|]. split; [|done].
    rewrite Hlog, logged_logged. done.
Qed.

Lemma generate_unique_code_all_taken random fuel attempts w :
  (attempts < CreateRoomRoute.maxAttempts)%nat ->
  (CreateRoomRoute.maxAttempts <= attempts + S fuel)%nat ->
  (forall k, (attempts <= k < CreateRoomRoute.maxAttempts)%nat ->
             code_taken (db w) (candidate random k)) ->
  CreateRoomRoute.generate_unique_code random fuel attempts w
  = (Return CreateRoomRoute.no_unique_code,
     logged w (candidate_lookups random attempts
                 (CreateRoomRoute.maxAttempts - attempts))).
Proof.
  revert attempts w. induction fuel as [|fuel IH]; intros attempts w Hlt Hsum Htaken;
    rewrite generate_unique_code_step;
    destruct (Htaken attempts ltac:(lia)) as (r & ->); cbn [Supabase.single].
  - replace (CreateRoomRoute.maxAttempts <=? S attempts)%nat with true
      by (symmetry; apply Nat.leb_le; lia).
    by replace (CreateRoomRoute.maxAttempts - attempts)%nat with 1%nat by lia.
  - destruct (Nat.leb_spec CreateRoomRoute.maxAttempts (S attempts)) as [Hle|Hgt].
    { by replace (CreateRoomRoute.maxAttempts - attempts)%nat with 1%nat by lia. }
    rewrite IH; [|lia|lia|].
    + rewrite logged_logged.
      replace (CreateRoomRoute.maxAttempts - attempts)%nat
        with (S (CreateRoomRoute.maxAttempts - S attempts)) by lia.
      done.
    + intros k Hk. apply Htaken. lia.
Qed.



(** X25.  The creation of a room looks up at most ten codes, the
    candidates in the order they are generated.  If the first ten
    candidates are all taken, the handler answers 500 "Room creation
    failed" after exactly ten lookups and nothing is stored. *)
Theorem room_creation_tries_ten_codes e random request w :
  (exists n, (n <= 10)%nat
             /\ db_calls (CreateRoomRoute.POST e random request w).2
                = (db_calls w ++ candidate_lookups random 0 n)%list)
  /\ (forall name,
        CreateRoomRoute.body request = Some name ->
        Js.truthy name && negb (Js.is_string name) = false ->
        (forall k, (k < 10)%nat -> code_taken (db w) (candidate random k)) ->
        CreateRoomRoute.POST e random request w
        = (Failed CreateRoomRoute.no_unique_code,
           logged w (candidate_lookups random 0 10))).
Proof.
  split.
  - unfold CreateRoomRoute.POST, CreateRoomRoute.request_json.
    unfold try_reply, bind, return_if, respond, pure, throw, Supabase.insert_room.
    destruct (CreateRoomRoute.body request) as [name|].
    2: { exists 0%nat. split; [lia|]. cbn. by rewrite app_nil_r. }
    destruct (_ && _).
    { exists 0%nat. split; [lia|]. cbn. by rewrite app_nil_r. }
    destruct (generate_unique_code_spec random CreateRoomRoute.maxAttempts 0 w)
      as (n & Hn & Hlog & _); [unfold CreateRoomRoute.maxAttempts; lia|].
    exists n. split; [unfold CreateRoomRoute.maxAttempts in Hn; lia|].
    destruct (CreateRoomRoute.generate_unique_code random _ 0 w) as [[code|resp|] w1];
      cbn [fst snd] in *; subst w1; try done.
    destruct (Supabase.room_insertable _ _); [|done].
    match goal with
    | |- context [SessionManager.createSession ?e ?s ?c ?r ?w0] =>
        destruct (createSession_effect e s c r w0) as (_ & _ & H3);
        destruct (SessionManager.createSession e s c r w0) as [[[]| |] w2]
    end; cbn [fst snd db kv db_calls] in *; by rewrite H3.
  - intros name Hbody Hname Htaken.
    unfold CreateRoomRoute.POST, CreateRoomRoute.request_json.
    unfold try_reply, bind, return_if, respond, pure, throw.
    rewrite Hbody, Hname.
    rewrite (generate_unique_code_all_taken random CreateRoomRoute.maxAttempts 0 w);
      [done | unfold CreateRoomRoute.maxAttempts; lia
       | unfold CreateRoomRoute.maxAttempts; lia |].
    intros k Hk. apply Htaken. unfold CreateRoomRoute.maxAttempts in Hk. lia.
Qed.



Lemma room_creation_tries_ten_codes_witness :
  CreateRoomRoute.POST Example.env Scenario.zeros Scenario.workshop Scenario.crowded
  = (Failed CreateRoomRoute.no_unique_code,
     logged Scenario.crowded (candidate_lookups Scenario.zeros 0 10)).
Proof.
  destruct (room_creation_tries_ten_codes Example.env Scenario.zeros
              Scenario.workshop Scenario.crowded) as [_ H].
  apply (H (Js.Str "Workshop")); [reflexivity | reflexivity |].
  intros k _. eexists. vm_compute. reflexivity.
Defined.

(* ===================================================================== *)
(** ** Expiration *)
(* ===================================================================== *)

(** X27.  An expiration is final.  If a handler answers 410 at some
    time, it answers 410 to the same request on the same stores at every
    later time: for the lookup of a room, the polls of a room, the
    lookup of a poll, the results and a vote. *)
Theorem expired_rooms_stay_expired e e' w :
  now e <= now e' ->
  (forall code sid sid',
     status (RoomRoute.GET e code sid w).1 = 410 ->
     status (RoomRoute.GET e' code sid' w).1 = 410)
  /\ (forall code,
        reply_status (RoomPollsRoute.GET e code w).1 = 410 ->
        reply_status (RoomPollsRoute.GET e' code w).1 = 410)
  /\ (forall id sid sid',
        reply_status (PollRoute.GET e id sid w).1 = 410 ->
        reply_status (PollRoute.GET e' id sid' w).1 = 410)
  /\ (forall id,
        status (ResultsRoute.GET e id w).1 = 410 ->
        status (ResultsRoute.GET e' id w).1 = 410)
  /\ (forall request,
        status (VoteRoute.POST e request w).1 = 410 ->
        status (VoteRoute.POST e' request w).1 = 410).
Proof.
  intros Hnow. split; [|split; [|split; [|split]]].
  - intros code sid sid'. unfold RoomRoute.GET, Utils.isRoomExpired. run_handler.
    destruct (Utils.validateRoomCode code); cbn; [|done].
    destruct (Supabase.single _) as [room|c]; cbn.
    2: { by destruct (String.eqb c _). }
    destruct (room_expires_at room) as [t|]; cbn; [|done].
    destruct (Z.ltb_spec t (now e)), (Z.ltb_spec t (now e')); cbn; try lia; try done.
    all: unfold SessionManager.createSession; cbn [kv];
      destruct (kv_status (kv w)); cbn; done.
  - intros code. unfold RoomPollsRoute.GET. run_reply.
    destruct (Supabase.single _) as [room|c]; cbn; [|done].
    destruct (room_expires_at room) as [t|]; cbn; [|done].
    destruct (Z.ltb_spec t (now e)), (Z.ltb_spec t (now e')); cbn; try lia; done.
  - intros id sid sid'. unfold PollRoute.GET. run_reply.
    destruct (UuidRegex.test id); cbn; [|done].
    destruct (Supabase.single _) as [[p r]|c]; cbn.
    2: { by destruct (String.eqb c _). }
    destruct (room_expires_at r) as [t|]; cbn; [|done].
    destruct (Z.ltb_spec t (now e)), (Z.ltb_spec t (now e')); cbn; try lia; try done.
    all: unfold SessionManager.createSession; cbn [kv];
      destruct (kv_status (kv w)); cbn; done.
  - intros id. unfold ResultsRoute.GET. run_handler.
    destruct (UuidRegex.test id); cbn; [|done].
    destruct (Supabase.single _) as [[p r]|c]; cbn.
    2: { by destruct (String.eqb c _). }
    destruct (room_expires_at r) as [t|]; cbn; [|done].
    destruct (Z.ltb_spec t (now e)), (Z.ltb_spec t (now e')); cbn; try lia; try done.
    all: destruct (ResultsRoute.calculate _ _); done.
  - intros request. unfold VoteRoute.POST, VoteRoute.vote_on. run_handler.
    destruct (VoteRoute.body request) as [choice|]; [|done].
    destruct (UuidRegex.test _); cbn; [|done].
    destruct (Js.truthy choice); cbn; [|done].
    destruct (Js.is_string choice); cbn; [|done].
    destruct (Supabase.single (Supabase.poll_rows _ _)) as [[p r]|c]; cbn.
    2: { by destruct (String.eqb c _). }
    destruct (poll_is_active p); cbn; [|done].
    destruct (room_expires_at r) as [t|]; cbn; [|done].
    destruct (Z.ltb_spec t (now e)), (Z.ltb_spec t (now e')); cbn; try lia; try done.
    destruct (Js.includes _ _); cbn; [|done].
    destruct (Supabase.single _) as [x|c]; cbn; [done|].
    destruct (String.eqb c _); cbn; [|done].
    destruct (Supabase.vote_insertable _ _) as [v|c']; cbn; [|done].
    unfold SessionManager.createSession; cbn [kv].
    destruct (kv_status (kv w)); cbn; done.
Qed.

Lemma expired_rooms_stay_expired_witness :
  status (ResultsRoute.GET Example.later Example.poll_uuid
            (Example.world (Example.yes_no true) Example.expired_room []
               KvAvailable)).1 = 410.
Proof.
  destruct (expired_rooms_stay_expired Example.env Example.later
              (Example.world (Example.yes_no true) Example.expired_room []
                 KvAvailable)) as (_ & _ & _ & Hresults & _).
  - cbn. lia.
  - apply Hresults. vm_compute. reflexivity.
Defined.

(* ===================================================================== *)
(** ** Requests that are rejected *)
(* ===================================================================== *)

Lemma validateOptions_status t o w r :
  (CreatePollRoute.validateOptions t o w).1 = Return r -> status r = 400.
Proof.
  unfold CreatePollRoute.validateOptions, respond, pure.
  repeat match goal with
         | |- context [if ?b then _ else _] => destruct b
         | |- context [match ?x with _ => _ end] => destruct x
         end; cbn; try done; by intros [= <-].
Qed.



(** X29.  A vote request whose body holds no choice, an empty string or
    a value that is not a string is answered 400 "Invalid choice"
    without any access to the database or the session store; when the
    poll identifier is malformed as well, the answer is 400 "Invalid
    poll ID", since the identifier is checked first. *)
Theorem vote_without_string_choice_is_rejected e request w choice :
  VoteRoute.body request = Some choice ->
  (forall c, choice = Js.Str c -> c = "") ->
  VoteRoute.POST e request w
  = (if UuidRegex.test (VoteRoute.params_id request)
     then failure 400 "Invalid choice" "Choice is required and must be a string"
     else failure 400 "Invalid poll ID" "Poll ID must be a valid UUID",
     w).
Proof.
  intros Hbody Hchoice. unfold VoteRoute.POST. run_handler. rewrite Hbody.
  destruct (UuidRegex.test _); cbn; [|done].
  destruct choice as [| |b|n|c|]; cbn; try done.
  - by destruct b.
  - by destruct (n =? 0).
  - by rewrite (Hchoice c eq_refl).
Qed.

Lemma vote_without_string_choice_is_rejected_witness :
  VoteRoute.POST Example.env
    {| VoteRoute.params_id := Example.poll_uuid;
       VoteRoute.body := Some (Js.Number 1);
       VoteRoute.x_session_id := Some "session-1" |} Example.voted
  = (failure 400 "Invalid choice" "Choice is required and must be a string",
     Example.voted).
Proof.
  apply (vote_without_string_choice_is_rejected Example.env
           {| VoteRoute.params_id := Example.poll_uuid;
              VoteRoute.body := Some (Js.Number 1);
              VoteRoute.x_session_id := Some "session-1" |} Example.voted
           (Js.Number 1)); [reflexivity | discriminate].
Defined.

(* ===================================================================== *)
(** ** Accepted votes are counted *)
(* ===================================================================== *)






